(** * StyleWeave: a shallow embedding of [js/script.js]

    The script enhances a product listing page with five classes
    ([ThemeManager], [FavoriteManager], [ProductInteractions],
    [SmoothScroll], [LazyLoader]) that are instantiated once when the
    page has loaded.  Every class is embedded below as a [Module] of
    the same name whose definitions follow the methods of the class
    line by line.  The browser state the script reads and writes (the
    DOM, [localStorage], the timer queue, the console, the listener
    registry and the intersection observer) is an explicit record,
    [World], that is threaded through the methods. *)

From Stdlib Require Import Decimal DecimalFacts DecimalNat DecimalString Ascii Lia.
From stdpp Require Import base option strings list gmap.

(** ** The DOM *)

(** An element, with the properties the script reads or writes.
    [parentNode] is a reference into the node store of the document. *)
Record Element := mkElement {
  localName : string;
  elementId : option string;
  classList : list string;
  attributes : gmap string string;
  style : gmap string string;
  textContent : string;
  parentNode : option nat
}.

(** The document is a store of nodes.  Reference [0] is
    [document.documentElement], which always exists; reference [S i] is
    the [i]-th further node.  The store lists the nodes of the markup in
    document order; nodes the script creates are added at its end, so a
    reference held by a closure stays valid. *)
Record Document := mkDocument {
  documentElement : Element;
  descendants : list Element
}.

Definition size_of (d : Document) : nat := S (length (descendants d)).

Definition node (d : Document) (r : nat) : option Element :=
  match r with
  | 0 => Some (documentElement d)
  | S i => descendants d !! i
  end.

Definition update_node (f : Element → Element) (r : nat) (d : Document) : Document :=
  match r with
  | 0 => mkDocument (f (documentElement d)) (descendants d)
  | S i => mkDocument (documentElement d) (alter f i (descendants d))
  end.

Definition with_classList (f : list string → list string) (e : Element) : Element :=
  mkElement (localName e) (elementId e) (f (classList e)) (attributes e)
            (style e) (textContent e) (parentNode e).

Definition with_attributes (f : gmap string string → gmap string string)
    (e : Element) : Element :=
  mkElement (localName e) (elementId e) (classList e) (f (attributes e))
            (style e) (textContent e) (parentNode e).

Definition with_style (f : gmap string string → gmap string string)
    (e : Element) : Element :=
  mkElement (localName e) (elementId e) (classList e) (attributes e)
            (f (style e)) (textContent e) (parentNode e).

Definition with_parentNode (p : option nat) (e : Element) : Element :=
  mkElement (localName e) (elementId e) (classList e) (attributes e)
            (style e) (textContent e) p.

(** [DOMTokenList]: [add] appends a token that is not there yet,
    [remove] drops every occurrence, [contains] tests membership. *)
Module DOMTokenList.
Definition contains (c : string) (l : list string) : bool := bool_decide (c ∈ l).
Definition add (c : string) (l : list string) : list string :=
  if contains c l then l else l ++ [c].
Definition remove (c : string) (l : list string) : list string :=
  filter (λ x, x ≠ c) l.
End DOMTokenList.

(** [CSSStyleDeclaration]: assigning the empty string removes the property. *)
Definition style_assign (prop value : string) (s : gmap string string)
    : gmap string string :=
  if decide (value = "") then delete prop s else <[prop := value]> s.

(** The chain of ancestors of a node, nearest first.  The walk is cut
    after as many steps as the store has nodes. *)
Fixpoint ancestors_upto (fuel : nat) (d : Document) (r : nat) : list nat :=
  match fuel with
  | 0 => []
  | S fuel' =>
      match node d r with
      | Some e =>
          match parentNode e with
          | Some p => p :: ancestors_upto fuel' d p
          | None => []
          end
      | None => []
      end
  end.

Definition ancestors (d : Document) (r : nat) : list nat :=
  ancestors_upto (size_of d) d r.

(** [scope.contains(r)] for [r] different from [scope]. *)
Definition is_descendant (d : Document) (scope r : nat) : bool :=
  bool_decide (scope ∈ ancestors d r).

Definition isConnected (d : Document) (r : nat) : bool :=
  bool_decide (r = 0) || is_descendant d 0 r.

Definition matching (p : Element → bool) (d : Document) (r : nat) : bool :=
  match node d r with
  | Some e => p e
  | None => false
  end.

Definition has_class (c : string) (e : Element) : bool :=
  DOMTokenList.contains c (classList e).

Definition has_id (i : string) (e : Element) : bool :=
  bool_decide (elementId e = Some i).

(** The selector [a[href^="#"]]. *)
Definition is_hash_anchor (e : Element) : bool :=
  bool_decide (localName e = "a") &&
  match attributes e !! "href" with
  | Some h => String.prefix "#" h
  | None => false
  end.

(** [document.querySelectorAll] and [element.querySelectorAll] for a
    selector given as a predicate on elements; results are in store
    order. *)
Definition document_querySelectorAll (p : Element → bool) (d : Document) : list nat :=
  filter (λ r, isConnected d r && matching p d r) (seq 0 (size_of d)).

Definition element_querySelectorAll (scope : nat) (p : Element → bool)
    (d : Document) : list nat :=
  filter (λ r, is_descendant d scope r && matching p d r) (seq 0 (size_of d)).

Definition element_querySelector (scope : nat) (p : Element → bool)
    (d : Document) : option nat :=
  head (element_querySelectorAll scope p d).

Definition getElementById (i : string) (d : Document) : option nat :=
  head (document_querySelectorAll (has_id i) d).

(** [element.closest(selector)]: the element itself or its nearest
    ancestor that matches. *)
Definition closest (p : Element → bool) (d : Document) (r : nat) : option nat :=
  head (filter (λ x, matching p d x) (r :: ancestors d r)).

(** ** The browser state *)

Inductive Exn := TypeError | SyntaxError.

Inductive Completion (A : Type) :=
  | Return (a : A)
  | Throw (e : Exn).
Arguments Return {A} a.
Arguments Throw {A} e.

(** The callbacks the script hands to [setTimeout]. *)
Inductive Task :=
  | ResetTransform (el : nat)
  | ResetAnimation (el : nat)
  | RemoveRipple (el : nat).

Inductive EventType := click | mouseenter | mouseleave.

#[global] Instance EventType_eq_dec : EqDecision EventType.
Proof. solve_decision. Defined.

(** The closures the script hands to [addEventListener], each with the
    variables it captures. *)
Inductive Handler :=
  | OnThemeToggleClick
  | OnFavoriteClick (btn index : nat)
  | OnCardMouseEnter (card : nat)
  | OnCardMouseLeave (card : nat)
  | OnCardClick (card : nat)
  | OnAnchorClick (anchor : nat).

Record Listener := mkListener {
  target : nat;
  eventType : EventType;
  handler : Handler
}.

Record ScrollIntoViewOptions := mkScrollOptions {
  behavior : string;
  block : string
}.

(** What [JSON.parse] can return, as far as the script tells values
    apart.  The script calls [includes], [filter] and [push] on the
    value and compares its elements with positions of buttons, which
    are non-negative integers.  An element of an array is therefore
    either such a number or any other value; a value that is not an
    array is a string, on which [includes] is the substring test, or a
    value on which the three method calls throw ([null], a boolean, a
    number, an object).  Every value that the script cannot look into
    is kept with the text [JSON.stringify] writes for it. *)
Inductive Item :=
  | Index (n : nat)
  | NotIndex (text : string).

Inductive JSValue :=
  | JSArray (items : list Item)
  | JSString (s : string) (text : string)
  | JSOther (text : string).

#[global] Instance Item_eq_dec : EqDecision Item.
Proof. solve_decision. Defined.

#[global] Instance JSValue_eq_dec : EqDecision JSValue.
Proof. solve_decision. Defined.

(** The array of the positions [l]. *)
Definition indices (l : list nat) : JSValue := JSArray (Index <$> l).

(** What the browser computes for the script and the script takes as
    given: whether [window] has an [IntersectionObserver], the text of
    [Math.max(rect.width, rect.height) + 'px'] for the bounding
    rectangle of an element as laid out, the selector engine behind
    [document.querySelector] on a selector text that is only known at
    run time (an element, [null], or a [SyntaxError] for a text that is
    not a selector), and [JSON.parse] on a text that is only known at
    run time (a value, or a [SyntaxError] for a text that is not
    JSON). *)
Record Browser := mkBrowser {
  hasIntersectionObserver : bool;
  layoutSize : Document → nat → string;
  selectorEngine : string → Document → Completion (option nat);
  jsonParse : string → Completion JSValue
}.

Record World := mkWorld {
  localStorage : gmap string string;
  document : Document;
  timers : list (Task * nat);
  console : list string;
  listeners : list Listener;
  scrollLog : list (nat * ScrollIntoViewOptions);
  (** targets of the [IntersectionObserver] of the page, once created *)
  observer : option (list nat);
  browser : Browser
}.

Definition with_localStorage (f : gmap string string → gmap string string)
    (w : World) : World :=
  mkWorld (f (localStorage w)) (document w) (timers w) (console w) (listeners w)
          (scrollLog w) (observer w) (browser w).

Definition with_document (f : Document → Document) (w : World) : World :=
  mkWorld (localStorage w) (f (document w)) (timers w) (console w) (listeners w)
          (scrollLog w) (observer w) (browser w).

Definition with_timers (f : list (Task * nat) → list (Task * nat)) (w : World) : World :=
  mkWorld (localStorage w) (document w) (f (timers w)) (console w) (listeners w)
          (scrollLog w) (observer w) (browser w).

Definition with_console (f : list string → list string) (w : World) : World :=
  mkWorld (localStorage w) (document w) (timers w) (f (console w)) (listeners w)
          (scrollLog w) (observer w) (browser w).

Definition with_listeners (f : list Listener → list Listener) (w : World) : World :=
  mkWorld (localStorage w) (document w) (timers w) (console w) (f (listeners w))
          (scrollLog w) (observer w) (browser w).

Definition with_scrollLog
    (f : list (nat * ScrollIntoViewOptions) → list (nat * ScrollIntoViewOptions))
    (w : World) : World :=
  mkWorld (localStorage w) (document w) (timers w) (console w) (listeners w)
          (f (scrollLog w)) (observer w) (browser w).

Definition with_observer (f : option (list nat) → option (list nat)) (w : World) : World :=
  mkWorld (localStorage w) (document w) (timers w) (console w) (listeners w)
          (scrollLog w) (f (observer w)) (browser w).

(** Browser operations used by the script. *)
Definition setAttribute (r : nat) (name value : string) (w : World) : World :=
  with_document (update_node (with_attributes (insert name value)) r) w.

Definition getAttribute (r : nat) (name : string) (w : World) : option string :=
  e ← node (document w) r; attributes e !! name.

Definition classList_add (r : nat) (c : string) (w : World) : World :=
  with_document (update_node (with_classList (DOMTokenList.add c)) r) w.

Definition classList_remove (r : nat) (c : string) (w : World) : World :=
  with_document (update_node (with_classList (DOMTokenList.remove c)) r) w.

Definition classList_contains (r : nat) (c : string) (w : World) : bool :=
  matching (has_class c) (document w) r.

Definition setStyle (r : nat) (prop value : string) (w : World) : World :=
  with_document (update_node (with_style (style_assign prop value)) r) w.

Definition setTimeout (task : Task) (delay : nat) (w : World) : World :=
  with_timers (λ q, q ++ [(task, delay)]) w.

Definition addEventListener (r : nat) (ty : EventType) (h : Handler) (w : World) : World :=
  with_listeners (λ ls, ls ++ [mkListener r ty h]) w.

Definition console_log (msg : string) (w : World) : World :=
  with_console (λ out, out ++ [msg]) w.

(** [x || dflt] for an [x] that is a string or [null]: the empty
    string is falsy. *)
Definition or_default (x : option string) (dflt : string) : string :=
  match x with
  | Some s => if decide (s = "") then dflt else s
  | None => dflt
  end.

(** ** ThemeManager *)

Module ThemeManager.

Definition THEME_KEY : string := "styleweave-theme".

Record t := mk {
  themeToggle : option nat;
  currentTheme : string
}.

Definition getStoredTheme (w : World) : option string :=
  localStorage w !! THEME_KEY.

Definition setStoredTheme (theme : string) (w : World) : World :=
  with_localStorage (insert THEME_KEY theme) w.

Definition applyTheme (this : t) (theme : string) (w : World) : t * World :=
  let w := setAttribute 0 "data-theme" theme w in
  let this := mk (themeToggle this) theme in
  (this, setStoredTheme theme w).

(** [toggleTheme] dereferences [this.themeToggle] without a check
    after the theme has been applied; the state reached at that
    point is kept when it throws. *)
Definition toggleTheme (this : t) (w : World) : t * World * Completion unit :=
  let newTheme : string :=
    if decide (currentTheme this = "light") then "dark" else "light" in
  let '(this, w) := applyTheme this newTheme w in
  match themeToggle this with
  | None => (this, w, Throw TypeError)
  | Some el =>
      let w := setStyle el "transform" "rotate(360deg)" w in
      let w := setTimeout (ResetTransform el) 300 w in
      (this, w, Return ())
  end.

Definition init (this : t) (w : World) : t * World :=
  let '(this, w) := applyTheme this (currentTheme this) w in
  match themeToggle this with
  | Some el => (this, addEventListener el click OnThemeToggleClick w)
  | None => (this, w)
  end.

Definition new (w : World) : t * World :=
  let this := mk (getElementById "themeToggle" (document w))
                 (or_default (getStoredTheme w) "light") in
  init this w.

End ThemeManager.

(** ** JSON

    [stringify] is [JSON.stringify].  [parse] is [JSON.parse]: on the
    texts [stringify] writes for an array of positions (an opening
    bracket, decimal literals without a leading zero separated by
    commas, a closing bracket) its result is computed here; on every
    other text (white space, other numbers, other JSON values,
    malformed text) it is what the [jsonParse] of the browser gives. *)
Module JSON.

Definition show_nat (n : nat) : string :=
  NilZero.string_of_uint (Nat.to_uint n).

Fixpoint join (sep : string) (l : list string) : string :=
  match l with
  | [] => ""
  | [x] => x
  | x :: l' => x +:+ sep +:+ join sep l'
  end.

Definition item_text (x : Item) : string :=
  match x with
  | Index n => show_nat n
  | NotIndex text => text
  end.

Definition stringify (v : JSValue) : string :=
  match v with
  | JSArray items => "[" +:+ join "," (item_text <$> items) +:+ "]"
  | JSString _ text => text
  | JSOther text => text
  end.

(** [cur] is the value of the literal being read, if one has
    started; [acc] holds the elements read so far, last first.
    [Ascii.is_nat] gives the value of a decimal digit. *)
Fixpoint parse_elements (s : string) (cur : option nat) (acc : list nat)
    : option (list nat) :=
  match s with
  | EmptyString => None
  | String c rest =>
      match Ascii.is_nat c with
      | Some k =>
          match cur with
          | None => parse_elements rest (Some k) acc
          | Some 0 => None
          | Some n => parse_elements rest (Some (10 * n + k)) acc
          end
      | None =>
          match cur with
          | None => None
          | Some n =>
              if decide (c = ","%char) then parse_elements rest None (n :: acc)
              else if decide (c = "]"%char) then
                match rest with
                | EmptyString => Some (rev (n :: acc))
                | _ => None
                end
              else None
          end
      end
  end.

(** The positions written in a text of the form [stringify] gives to
    an array of positions; [None] for a text of another form. *)
Definition parse_indices (s : string) : option (list nat) :=
  match s with
  | String "["%char rest =>
      if decide (rest = "]") then Some [] else parse_elements rest None []
  | _ => None
  end.

Definition parse (b : Browser) (s : string) : Completion JSValue :=
  match parse_indices s with
  | Some l => Return (indices l)
  | None => jsonParse b s
  end.

(** A digit sequence that starts with a digit other than zero. *)
Definition nonzero_head (d : uint) : Prop :=
  match d with
  | Nil | D0 _ => False
  | _ => True
  end.

End JSON.

(** ** FavoriteManager *)

Module FavoriteManager.

Definition FAVORITES_KEY : string := "styleweave-favorites".

(** [this.favorites] holds what [JSON.parse] returned, or an array. *)
Record t := mk { favorites : JSValue }.

(** [stored ? JSON.parse(stored) : []]: a missing item and the empty
    string give the empty array. *)
Definition getStoredFavorites (w : World) : Completion JSValue :=
  match localStorage w !! FAVORITES_KEY with
  | Some stored =>
      if decide (stored = "") then Return (JSArray [])
      else JSON.parse (browser w) stored
  | None => Return (JSArray [])
  end.

Definition setStoredFavorites (this : t) (w : World) : World :=
  with_localStorage (insert FAVORITES_KEY (JSON.stringify (favorites this))) w.

(** [this.favorites.includes(index)]: the search of an array, the
    substring test of a string for the decimal text of [index], and a
    [TypeError] on a value that has no such method. *)
Definition includes (v : JSValue) (index : nat) : Completion bool :=
  match v with
  | JSArray items => Return (bool_decide (Index index ∈ items))
  | JSString s _ =>
      Return (bool_decide (is_Some (String.index 0 (JSON.show_nat index) s)))
  | JSOther _ => Throw TypeError
  end.

(** [this.favorites.filter(id => id !== productIndex)]: only an array
    has the method. *)
Definition filter_out (v : JSValue) (productIndex : nat) : Completion JSValue :=
  match v with
  | JSArray items => Return (JSArray (filter (λ id, id ≠ Index productIndex) items))
  | _ => Throw TypeError
  end.

(** [this.favorites.push(productIndex)]: only an array has the method. *)
Definition push (v : JSValue) (productIndex : nat) : Completion JSValue :=
  match v with
  | JSArray items => Return (JSArray (items ++ [Index productIndex]))
  | _ => Throw TypeError
  end.

Definition animateButton (button : nat) (action : string) (w : World) : World :=
  if decide (action = "add") then
    let w := setStyle button "animation" "heartBurst 0.4s ease-out" w in
    setTimeout (ResetAnimation button) 400 w
  else w.

(** The class of the button is changed before the array is; when the
    method call on [this.favorites] throws, the call ends there, with
    the class changed and nothing animated or stored. *)
Definition toggleFavorite (this : t) (button productIndex : nat) (w : World)
    : t * World * Completion unit :=
  let isActive := classList_contains button "active" w in
  if isActive then
    let w := classList_remove button "active" w in
    match filter_out (favorites this) productIndex with
    | Return favs =>
        let this := mk favs in
        let w := animateButton button "remove" w in
        (this, setStoredFavorites this w, Return ())
    | Throw e => (this, w, Throw e)
    end
  else
    let w := classList_add button "active" w in
    match push (favorites this) productIndex with
    | Return favs =>
        let this := mk favs in
        let w := animateButton button "add" w in
        (this, setStoredFavorites this w, Return ())
    | Throw e => (this, w, Throw e)
    end.

(** The body of [favoriteButtons.forEach((btn, index) => ...)]. *)
Definition init_button (this : t) (btn index : nat) (w : World)
    : World * Completion unit :=
  match includes (favorites this) index with
  | Return isFavorite =>
      let w := if isFavorite then classList_add btn "active" w else w in
      (addEventListener btn click (OnFavoriteClick btn index) w, Return ())
  | Throw e => (w, Throw e)
  end.

Fixpoint forEach_button (this : t) (btns : list nat) (index : nat) (w : World)
    : World * Completion unit :=
  match btns with
  | [] => (w, Return ())
  | btn :: rest =>
      match init_button this btn index w with
      | (w, Return _) => forEach_button this rest (S index) w
      | (w, Throw e) => (w, Throw e)
      end
  end.

Definition init (this : t) (w : World) : World * Completion unit :=
  let favoriteButtons :=
    document_querySelectorAll (has_class "favorite-btn") (document w) in
  forEach_button this favoriteButtons 0 w.

Definition new (w : World) : World * Completion t :=
  match getStoredFavorites w with
  | Return favs =>
      let this := mk favs in
      match init this w with
      | (w, Return _) => (w, Return this)
      | (w, Throw e) => (w, Throw e)
      end
  | Throw e => (w, Throw e)
  end.

(** What the click listener of [init] does for the button at
    position [index] of [favoriteButtons]; there is no listener, and
    so no call, for a position past the last button. *)
Definition click (favoriteButtons : list nat) (st : t * World) (index : nat)
    : t * World :=
  match favoriteButtons !! index with
  | Some btn => (toggleFavorite st.1 btn index st.2).1
  | None => st
  end.

End FavoriteManager.

(** ** ProductInteractions *)

Module ProductInteractions.

Definition onCardHover (card : nat) (isHovering : bool) (w : World) : World :=
  match element_querySelector card (has_class "product-image") (document w) with
  | Some image => w
  | None => w
  end.

(** [document.createElement('span')]: a fresh detached node at the
    end of the store. *)
Definition createElement (name : string) (w : World) : nat * World :=
  let r := size_of (document w) in
  let e := mkElement name None [] ∅ ∅ "" None in
  (r, with_document
        (λ d, mkDocument (documentElement d) (descendants d ++ [e])) w).

Definition appendChild (parent child : nat) (w : World) : World :=
  with_document (update_node (with_parentNode (Some parent)) child) w.

Definition createRipple (card : nat) (w : World) : World :=
  let '(ripple, w) := createElement "span" w in
  let w := classList_add ripple "ripple" w in
  let w := setStyle card "position" "relative" w in
  let w := setStyle card "overflow" "hidden" w in
  let size := layoutSize (browser w) (document w) card in
  let w := setStyle ripple "height" size w in
  let w := setStyle ripple "width" size w in
  let w := setStyle ripple "left" "50%" w in
  let w := setStyle ripple "top" "50%" w in
  let w := setStyle ripple "transform" "translate(-50%, -50%)" w in
  let w := setStyle ripple "position" "absolute" w in
  let w := setStyle ripple "borderRadius" "50%" w in
  let w := setStyle ripple "background" "rgba(0, 0, 0, 0.1)" w in
  let w := setStyle ripple "pointerEvents" "none" w in
  let w := setStyle ripple "animation" "rippleEffect 0.6s ease-out" w in
  let w := appendChild card ripple w in
  setTimeout (RemoveRipple ripple) 600 w.

(** [card.querySelector('.product-name').textContent] is read with
    no check of the query result. *)
Definition onCardClick (card : nat) (w : World) : World * Completion unit :=
  match element_querySelector card (has_class "product-name") (document w) with
  | None => (w, Throw TypeError)
  | Some el =>
      let productName := default "" (textContent <$> node (document w) el) in
      let w := console_log ("Product clicked: " +:+ productName) w in
      (createRipple card w, Return ())
  end.

Definition init_card (card : nat) (w : World) : World :=
  let w := addEventListener card mouseenter (OnCardMouseEnter card) w in
  let w := addEventListener card mouseleave (OnCardMouseLeave card) w in
  addEventListener card click (OnCardClick card) w.

Definition init (w : World) : World :=
  let productCards :=
    document_querySelectorAll (has_class "product-card") (document w) in
  foldl (λ w card, init_card card w) w productCards.

Definition new (w : World) : World := init w.

End ProductInteractions.

(** ** Events *)

Record Event := mkEvent {
  ev_type : EventType;
  ev_target : nat;
  defaultPrevented : bool;
  propagationStopped : bool
}.

Definition preventDefault (e : Event) : Event :=
  mkEvent (ev_type e) (ev_target e) true (propagationStopped e).

Definition stopPropagation (e : Event) : Event :=
  mkEvent (ev_type e) (ev_target e) (defaultPrevented e) true.

(** ** SmoothScroll *)

Module SmoothScroll.

Definition scrollIntoView (el : nat) (opts : ScrollIntoViewOptions) (w : World)
    : World :=
  with_scrollLog (λ l, l ++ [(el, opts)]) w.

(** [document.querySelector(anchor.getAttribute('href'))]; a [null]
    argument is converted to the text ["null"]. *)
Definition onAnchorClick (anchor : nat) (e : Event) (w : World)
    : Event * World * Completion unit :=
  let e := preventDefault e in
  let href := default "null" (getAttribute anchor "href" w) in
  match selectorEngine (browser w) href (document w) with
  | Throw exn => (e, w, Throw exn)
  | Return None => (e, w, Return ())
  | Return (Some el) =>
      (e, scrollIntoView el (mkScrollOptions "smooth" "start") w, Return ())
  end.

Definition init (w : World) : World :=
  foldl (λ w anchor, addEventListener anchor click (OnAnchorClick anchor) w) w
        (document_querySelectorAll is_hash_anchor (document w)).

Definition new (w : World) : World := init w.

End SmoothScroll.

(** ** LazyLoader *)

Record IntersectionObserverEntry := mkEntry {
  entry_target : nat;
  isIntersecting : bool
}.

Module LazyLoader.

Record t := mk { images : list nat }.

Definition observe (img : nat) (w : World) : World :=
  with_observer
    (fmap (λ targets, if bool_decide (img ∈ targets) then targets
                      else targets ++ [img])) w.

Definition unobserve (img : nat) (w : World) : World :=
  with_observer (fmap (filter (λ x, x ≠ img))) w.

(** The body of [entries.forEach(entry => ...)]. *)
Definition on_entry (entry : IntersectionObserverEntry) (w : World) : World :=
  if isIntersecting entry then
    let img := entry_target entry in
    let w := classList_add img "loaded" w in
    unobserve img w
  else w.

(** The callback given to [new IntersectionObserver]. *)
Definition callback (entries : list IntersectionObserverEntry) (w : World) : World :=
  foldl (λ w entry, on_entry entry w) w entries.

Definition init (this : t) (w : World) : World :=
  if hasIntersectionObserver (browser w) then
    let w := with_observer (λ _, Some []) w in
    foldl (λ w img, observe img w) w (images this)
  else w.

Definition new (w : World) : t * World :=
  let this := mk (document_querySelectorAll (has_class "product-image") (document w)) in
  (this, init this w).

End LazyLoader.

(** ** The page

    The [DOMContentLoaded] listener builds the five objects; afterwards
    the browser calls the registered closures when the user clicks or
    moves the pointer, when a timer expires and when the intersection
    observer has entries to report. *)
Module Page.

Record t := mk {
  world : World;
  themeManager : option ThemeManager.t;
  favoriteManager : option FavoriteManager.t;
  (** exceptions that left a callback, as the browser reports them *)
  uncaught : list Exn
}.

Definition with_world (f : World → World) (p : t) : t :=
  mk (f (world p)) (themeManager p) (favoriteManager p) (uncaught p).

Definition report {A} (c : Completion A) (p : t) : t :=
  match c with
  | Return _ => p
  | Throw e => mk (world p) (themeManager p) (favoriteManager p) (uncaught p ++ [e])
  end.

Definition onDOMContentLoaded (w : World) : t :=
  let '(tm, w) := ThemeManager.new w in
  match FavoriteManager.new w with
  | (w, Throw e) => mk w (Some tm) None [e]
  | (w, Return fm) =>
      let w := ProductInteractions.new w in
      let w := SmoothScroll.new w in
      let '(_, w) := LazyLoader.new w in
      let w := console_log "âœ¨ StyleWeave initialized successfully!" w in
      mk w (Some tm) (Some fm) []
  end.

(** A page load: the markup as parsed, the storage of the origin as
    earlier visits left it, and nothing else. *)
Definition load (b : Browser) (markup : Document) (storage : gmap string string) : t :=
  onDOMContentLoaded (mkWorld storage markup [] [] [] [] None b).

Definition run_handler (h : Handler) (e : Event) (p : t) : Event * t :=
  match h with
  | OnThemeToggleClick =>
      match themeManager p with
      | Some tm =>
          let '(tm, w, c) := ThemeManager.toggleTheme tm (world p) in
          (e, report c (mk w (Some tm) (favoriteManager p) (uncaught p)))
      | None => (e, p)
      end
  | OnFavoriteClick btn index =>
      let e := stopPropagation e in
      match favoriteManager p with
      | Some fm =>
          let '(fm, w, c) := FavoriteManager.toggleFavorite fm btn index (world p) in
          (e, report c (mk w (themeManager p) (Some fm) (uncaught p)))
      | None => (e, p)
      end
  | OnCardMouseEnter card =>
      (e, with_world (ProductInteractions.onCardHover card true) p)
  | OnCardMouseLeave card =>
      (e, with_world (ProductInteractions.onCardHover card false) p)
  | OnCardClick card =>
      match closest (has_class "favorite-btn") (document (world p)) (ev_target e) with
      | None =>
          let '(w, c) := ProductInteractions.onCardClick card (world p) in
          (e, report c (with_world (λ _, w) p))
      | Some _ => (e, p)
      end
  | OnAnchorClick anchor =>
      let '(e, w, c) := SmoothScroll.onAnchorClick anchor e (world p) in
      (e, report c (with_world (λ _, w) p))
  end.

Definition listeners_at (ty : EventType) (r : nat) (w : World) : list Handler :=
  handler <$> filter (λ l, target l = r ∧ eventType l = ty) (listeners w).

Definition run_handlers (hs : list Handler) (e : Event) (p : t) : Event * t :=
  foldl (λ '(e, p) h, run_handler h e p) (e, p) hs.

(** A click travels from its target to the root and stops after the
    listeners of the node on which [stopPropagation] was called;
    [mouseenter] and [mouseleave] do not bubble. *)
Fixpoint propagate (path : list nat) (e : Event) (p : t) : Event * t :=
  match path with
  | [] => (e, p)
  | r :: rest =>
      if propagationStopped e then (e, p)
      else
        let '(e, p) := run_handlers (listeners_at (ev_type e) r (world p)) e p in
        propagate rest e p
  end.

Definition dispatchEvent (ty : EventType) (tgt : nat) (p : t) : Event * t :=
  let path :=
    match ty with
    | click => tgt :: ancestors (document (world p)) tgt
    | _ => [tgt]
    end in
  propagate path (mkEvent ty tgt false false) p.

(** [ripple.remove()] detaches the node. *)
Definition remove (el : nat) (w : World) : World :=
  with_document (update_node (with_parentNode None) el) w.

Definition run_task (task : Task) (w : World) : World :=
  match task with
  | ResetTransform el => setStyle el "transform" "" w
  | ResetAnimation el => setStyle el "animation" "" w
  | RemoveRipple el => remove el w
  end.

(** The [k]-th pending timer expires. *)
Definition fire (k : nat) (w : World) : World :=
  match timers w !! k with
  | Some (task, _) => run_task task (with_timers (delete k) w)
  | None => w
  end.

(** The entries the observer hands to its callback: the browser
    reports only targets that are being observed. *)
Definition delivered (entries : list IntersectionObserverEntry) (w : World)
    : list IntersectionObserverEntry :=
  match observer w with
  | Some targets => filter (λ en, entry_target en ∈ targets) entries
  | None => []
  end.

Definition deliver (entries : list IntersectionObserverEntry) (w : World) : World :=
  LazyLoader.callback (delivered entries w) w.

Inductive Input :=
  | Click (r : nat)
  | MouseEnter (r : nat)
  | MouseLeave (r : nat)
  | Timeout (k : nat)
  | Intersection (entries : list IntersectionObserverEntry).

Definition step (p : t) (i : Input) : t :=
  match i with
  | Click r => (dispatchEvent click r p).2
  | MouseEnter r => (dispatchEvent mouseenter r p).2
  | MouseLeave r => (dispatchEvent mouseleave r p).2
  | Timeout k => with_world (fire k) p
  | Intersection entries => with_world (deliver entries) p
  end.

Definition run (p : t) (inputs : list Input) : t := foldl step p inputs.

End Page.

(** ** A sample page

    A listing with a theme toggle, two anchors and three product cards;
    the third card has neither an image nor a name.  The selector
    engine of the sample knows ID selectors only. *)
Module Sample.

Definition el (name : string) (i : option string) (classes : list string)
    (attrs : list (string * string)) (text : string) (parent : option nat)
    : Element :=
  mkElement name i classes (list_to_map attrs) ∅ text parent.

Definition markup : Document :=
  mkDocument (el "html" None [] [] "" None)
    [ el "body" None [] [] "" (Some 0);
      el "button" (Some "themeToggle") ["theme-toggle"] [] "" (Some 1);
      el "a" None [] [("href", "#products")] "Shop" (Some 1);
      el "a" None [] [("href", "#")] "Top" (Some 1);
      el "a" None [] [("href", "about.html")] "About" (Some 1);
      el "section" (Some "products") [] [] "" (Some 1);
      el "div" None ["product-card"] [] "" (Some 6);
      el "img" None ["product-image"] [] "" (Some 7);
      el "button" None ["favorite-btn"] [] "" (Some 7);
      el "h3" None ["product-name"] [] "Linen Shirt" (Some 7);
      el "div" None ["product-card"] [] "" (Some 6);
      el "img" None ["product-image"] [] "" (Some 11);
      el "button" None ["favorite-btn"] [] "" (Some 11);
      el "h3" None ["product-name"] [] "Wool Scarf" (Some 11);
      el "div" None ["product-card"] [] "" (Some 6);
      el "button" None ["favorite-btn"] [] "" (Some 15) ].

Definition id_selector (sel : string) (d : Document) : Completion (option nat) :=
  match sel with
  | String "#"%char EmptyString => Throw SyntaxError
  | String "#"%char name => Return (getElementById name d)
  | _ => Return None
  end.

(** The same page with the first favorite button marked active in the
    markup. *)
Definition preselected : Document :=
  update_node (with_classList (λ _, ["favorite-btn"; "active"])) 9 markup.

(** [JSON.parse] of the sample browsers on a text that is not of the
    form [JSON.stringify] writes.  White space between tokens is
    skipped; what is left is read as an array of positions or as one
    of the literals [null], [true] and [false]; every other text is
    rejected.  Numbers with a sign, a fraction or an exponent, strings
    and objects are not read by the sample browsers, and no example
    stores one. *)
Definition is_space (c : ascii) : bool :=
  bool_decide (c = " "%char) || bool_decide (c = "009"%char) ||
  bool_decide (c = "010"%char) || bool_decide (c = "013"%char).

Definition is_word (c : ascii) : bool :=
  let n := nat_of_ascii c in
  (48 <=? n) && (n <=? 57) || (97 <=? n) && (n <=? 122).

Fixpoint compact (s : string) (in_word spaced : bool) : option string :=
  match s with
  | EmptyString => Some EmptyString
  | String c rest =>
      if is_space c then compact rest in_word true
      else if is_word c && in_word && spaced then None
      else String c <$> compact rest (is_word c) false
  end.

Definition json_parse (s : string) : Completion JSValue :=
  match compact s false false with
  | None => Throw SyntaxError
  | Some s' =>
      match JSON.parse_indices s' with
      | Some l => Return (indices l)
      | None =>
          if bool_decide (s' ∈ ["null"; "true"; "false"]) then Return (JSOther s')
          else Throw SyntaxError
      end
  end.

Definition chrome : Browser :=
  mkBrowser true (λ _ _, "280px") id_selector json_parse.

Definition no_observer : Browser :=
  mkBrowser false (λ _ _, "280px") id_selector json_parse.

Definition fresh : World := mkWorld ∅ markup [] [] [] [] None chrome.

End Sample.

(** ** Vocabulary of the properties *)

(** The state a sequence of clicks on favorite buttons keeps: the
    value of [this.favorites] is an array of positions without
    duplicates, it holds the positions of the active buttons, the
    buttons are in the document, and storage holds the array (or
    nothing yet, when the array is empty). *)
Definition consistent (btns : list nat) (st : FavoriteManager.t * World) : Prop :=
  ∃ l, FavoriteManager.favorites st.1 = indices l ∧
       NoDup l ∧
       (∀ i, i ∈ l ↔
             ∃ btn, btns !! i = Some btn ∧ classList_contains btn "active" st.2 = true) ∧
       (∀ btn, btn ∈ btns → is_Some (node (document st.2) btn)) ∧
       (localStorage st.2 !! FavoriteManager.FAVORITES_KEY = None ∧ l = [] ∨
        localStorage st.2 !! FavoriteManager.FAVORITES_KEY =
          Some (JSON.stringify (indices l))).

(** What an observation of elements shows at a reference; [dflt] is
    shown where the store has no node. *)
Definition observe {A} (obs : Element → A) (dflt : A) (d : Document) (r : nat) : A :=
  from_option obs dflt (node d r).

(** [w'] shows the same as [w] at every reference. *)
Definition keeps {A} (obs : Element → A) (dflt : A) (w w' : World) : Prop :=
  ∀ r, observe obs dflt (document w') r = observe obs dflt (document w) r.

(** The event type under which the script registers a closure. *)
Definition registered_for (h : Handler) : EventType :=
  match h with
  | OnCardMouseEnter _ => mouseenter
  | OnCardMouseLeave _ => mouseleave
  | _ => click
  end.

Definition listeners_wf (ls : list Listener) : Prop :=
  ∀ l, l ∈ ls → eventType l = registered_for (handler l).


(** Observations of an element: its [href], one property of its inline
    style, and what the queries of the script look at besides the
    class list. *)
Definition href_of (e : Element) : option string := attributes e !! "href".

Definition style_of (prop : string) (e : Element) : option string := style e !! prop.

Definition skeleton (e : Element) : string * option string * option nat * option string :=
  (localName e, elementId e, parentNode e, href_of e).

(** Updates of an element that an observation may be blind to. *)
Section ignoring.
Context {A : Type} (obs : Element → A).

Definition ignores_style : Prop := ∀ f e, obs (with_style f e) = obs e.
Definition ignores_transform : Prop :=
  ∀ value e, obs (with_style (style_assign "transform" value) e) = obs e.
Definition ignores_animation : Prop :=
  ∀ value e, obs (with_style (style_assign "animation" value) e) = obs e.
Definition ignores_theme_attribute : Prop :=
  ∀ value e, obs (with_attributes (insert "data-theme" value) e) = obs e.
Definition ignores_class (c : string) : Prop :=
  (∀ e, obs (with_classList (DOMTokenList.add c) e) = obs e) ∧
  (∀ e, obs (with_classList (DOMTokenList.remove c) e) = obs e).
Definition ignores_parent : Prop := ∀ p e, obs (with_parentNode p e) = obs e.
End ignoring.


(** What an operation of the [FavoriteManager] leaves alone: every
    stored item but its own, every attribute, and every inline style
    property but [animation]. *)
Definition favorites_frame (w w' : World) : Prop :=
  (∀ k, k ≠ FavoriteManager.FAVORITES_KEY →
        localStorage w' !! k = localStorage w !! k) ∧
  keeps attributes ∅ w w' ∧
  (∀ prop, prop ≠ "animation" → keeps (style_of prop) None w w').

(** The element at [r] carries the class ['loaded']; the observer of
    the page watches [r]. *)
Definition loaded (w : World) (r : nat) : bool := classList_contains r "loaded" w.

Definition observed (w : World) (r : nat) : Prop :=
  ∃ targets, observer w = Some targets ∧ r ∈ targets.


(** A listener of a favorite button is the one [init] registers for
    the button at the position it toggles. *)
Definition favorite_listener (btns : list nat) (l : Listener) : Prop :=
  ∀ btn index, handler l = OnFavoriteClick btn index → btns !! index = Some btn.

(** What every state of a loaded page satisfies, for the favorite
    buttons [btns] of the markup and the listeners [L] of the load. *)
Definition favorites_invariant (btns : list nat) (L : list Listener) (q : Page.t)
    : Prop :=
  listeners (Page.world q) = L ∧
  (∀ btn, btn ∈ btns → classList_contains btn "favorite-btn" (Page.world q) = true) ∧
  ∃ fm, Page.favoriteManager q = Some fm ∧ consistent btns (fm, Page.world q).


#[global] Instance Handler_eq_dec : EqDecision Handler.
Proof. solve_decision. Defined.

#[global] Instance Listener_eq_dec : EqDecision Listener.
Proof. solve_decision. Defined.

(** * Properties *)

(** ** The node store *)

Lemma node_update_eq (f : Element → Element) (r : nat) (d : Document) :
  node (update_node f r d) r = f <$> node d r.
Proof.
  destruct r as [|i]; simpl; [done|].
  by rewrite list_lookup_alter_eq.
Qed.

Lemma node_update_ne (f : Element → Element) (r r' : nat) (d : Document) :
  r ≠ r' → node (update_node f r d) r' = node d r'.
Proof.
  intros Hne. destruct r as [|i], r' as [|j]; simpl; try done.
  apply list_lookup_alter_ne. congruence.
Qed.

Lemma node_update (f : Element → Element) (r r' : nat) (d : Document) :
  node (update_node f r d) r' =
  if decide (r = r') then f <$> node d r' else node d r'.
Proof.
  case_decide as H; [subst; apply node_update_eq | by apply node_update_ne].
Qed.

(** ** ThemeManager *)

Section theme.
Import ThemeManager.

Lemma applyTheme_stored (this : t) (theme : string) (w : World) :
  getStoredTheme (applyTheme this theme w).2 = Some theme.
Proof. unfold getStoredTheme. simpl. apply lookup_insert_eq. Qed.

Lemma new_applies (w : World) :
  let theme := or_default (getStoredTheme w) "light" in
  currentTheme (new w).1 = theme ∧
  getAttribute 0 "data-theme" (new w).2 = Some theme ∧
  getStoredTheme (new w).2 = Some theme.
Proof.
  unfold new, init. simpl.
  destruct (getElementById _ _); simpl; repeat split;
    solve [apply lookup_insert_eq].
Qed.

End theme.

Lemma getAttribute_setStyle (r r' : nat) (name prop value : string) (w : World) :
  getAttribute r name (setStyle r' prop value w) = getAttribute r name w.
Proof.
  unfold getAttribute, setStyle. simpl.
  rewrite node_update. case_decide; [|done]. by destruct (node _ r).
Qed.


Section theme_claims.
Import ThemeManager.

(** C1 (as amended).  For every theme string [theme] other than the
    empty string: after [applyTheme theme] the item stored under
    ['styleweave-theme'] is [theme], and a [ThemeManager] built
    afterwards on any page that sees this storage reads the item and
    applies exactly [theme] to the document. *)
Theorem theme_store_restore (this : t) (theme : string) (w w' : World) :
  theme ≠ "" →
  localStorage w' = localStorage (applyTheme this theme w).2 →
  localStorage (applyTheme this theme w).2 !! THEME_KEY = Some theme ∧
  currentTheme (new w').1 = theme ∧
  getAttribute 0 "data-theme" (new w').2 = Some theme ∧
  localStorage (new w').2 !! THEME_KEY = Some theme.
Proof.
  intros Hne Hsto.
  split; [apply applyTheme_stored|].
  pose proof (new_applies w') as Hnew. simpl in Hnew.
  assert (or_default (getStoredTheme w') "light" = theme) as Hread.
  { unfold getStoredTheme. rewrite Hsto.
    change (localStorage (applyTheme this theme w).2 !! THEME_KEY)
      with (getStoredTheme (applyTheme this theme w).2).
    rewrite applyTheme_stored. unfold or_default. by case_decide. }
  rewrite Hread in Hnew. exact Hnew.
Qed.

Lemma theme_store_restore_witness :
  localStorage (applyTheme (mk None "light") "dark" Sample.fresh).2 !! THEME_KEY
    = Some "dark" ∧
  currentTheme (new (applyTheme (mk None "light") "dark" Sample.fresh).2).1
    = "dark" ∧
  getAttribute 0 "data-theme"
    (new (applyTheme (mk None "light") "dark" Sample.fresh).2).2 = Some "dark" ∧
  localStorage (new (applyTheme (mk None "light") "dark" Sample.fresh).2).2
    !! THEME_KEY = Some "dark".
Proof.
  apply (theme_store_restore (mk None "light") "dark" Sample.fresh); done.
Defined.

(** C1 as stated fails for the empty theme string: it is stored as
    it is, but the next [ThemeManager] takes the stored empty string
    for a missing item and applies ['light']. *)
Lemma theme_store_restore_empty_string :
  let w := (applyTheme (mk None "light") "" Sample.fresh).2 in
  localStorage w !! THEME_KEY = Some "" ∧
  currentTheme (new w).1 = "light" ∧
  getAttribute 0 "data-theme" (new w).2 = Some "light" ∧
  getAttribute 0 "data-theme" (new w).2 ≠ Some "".
Proof. vm_compute. repeat split; congruence. Qed.

Lemma toggleTheme_spec (this : t) (w : World) :
  let newTheme : string :=
    if decide (currentTheme this = "light") then "dark" else "light" in
  currentTheme (toggleTheme this w).1.1 = newTheme ∧
  themeToggle (toggleTheme this w).1.1 = themeToggle this ∧
  getAttribute 0 "data-theme" (toggleTheme this w).1.2 = Some newTheme ∧
  localStorage (toggleTheme this w).1.2 !! THEME_KEY = Some newTheme.
Proof.
  unfold toggleTheme. simpl.
  destruct (themeToggle this) as [el|]; simpl.
  - repeat split.
    + unfold setTimeout. 
      change (getAttribute 0 "data-theme" (with_timers ?f ?w))
        with (getAttribute 0 "data-theme" w).
      rewrite getAttribute_setStyle. apply lookup_insert_eq.
    + apply lookup_insert_eq.
  - repeat split; apply lookup_insert_eq.
Qed.

(** C3.  [toggleTheme] turns ['light'] into ['dark'] and every other
    current theme into ['light']; the new theme is the one applied to
    the document and stored.  For a current theme that is ['light'] or
    ['dark'] the result is the other of the two, and toggling twice
    gives the original theme back. *)
Theorem toggleTheme_binary (this : t) (w : World) :
  let this1 := (toggleTheme this w).1.1 in
  let w1 := (toggleTheme this w).1.2 in
  let this2 := (toggleTheme this1 w1).1.1 in
  let w2 := (toggleTheme this1 w1).1.2 in
  (currentTheme this = "light" → currentTheme this1 = "dark") ∧
  (currentTheme this ≠ "light" → currentTheme this1 = "light") ∧
  getAttribute 0 "data-theme" w1 = Some (currentTheme this1) ∧
  localStorage w1 !! THEME_KEY = Some (currentTheme this1) ∧
  (currentTheme this = "light" ∨ currentTheme this = "dark" →
     (currentTheme this1 = "light" ∨ currentTheme this1 = "dark") ∧
     currentTheme this1 ≠ currentTheme this ∧
     currentTheme this2 = currentTheme this ∧
     getAttribute 0 "data-theme" w2 = Some (currentTheme this) ∧
     localStorage w2 !! THEME_KEY = Some (currentTheme this)).
Proof.
  intros this1 w1 this2 w2.
  destruct (toggleTheme_spec this w) as (Hc1 & _ & Ha1 & Hs1).
  destruct (toggleTheme_spec this1 w1) as (Hc2 & _ & Ha2 & Hs2).
  fold this1 w1 in Hc1, Ha1, Hs1. fold this2 w2 in Hc2, Ha2, Hs2.
  simpl in *.
  repeat split.
  - intros H. rewrite Hc1. by rewrite decide_True.
  - intros H. rewrite Hc1. by rewrite decide_False.
  - by rewrite Ha1, Hc1.
  - by rewrite Hs1, Hc1.
  - destruct H as [H|H]; rewrite Hc1, H; auto.
  - destruct H as [H|H]; rewrite Hc1, H; simpl; congruence.
  - destruct H as [H|H]; rewrite Hc2, Hc1, H; done.
  - destruct H as [H|H]; rewrite Ha2, Hc1, H; done.
  - destruct H as [H|H]; rewrite Hs2, Hc1, H; done.
Qed.

Lemma toggleTheme_binary_witness :
  let this := mk (Some 2) "dark" in
  let this1 := (toggleTheme this Sample.fresh).1.1 in
  let w1 := (toggleTheme this Sample.fresh).1.2 in
  let this2 := (toggleTheme this1 w1).1.1 in
  let w2 := (toggleTheme this1 w1).1.2 in
  currentTheme this1 = "light" ∧
  currentTheme this2 = "dark" ∧
  getAttribute 0 "data-theme" w2 = Some "dark" ∧
  localStorage w2 !! THEME_KEY = Some "dark".
Proof.
  intros this this1 w1 this2 w2.
  destruct (toggleTheme_binary this Sample.fresh) as (_ & H1 & _ & _ & H2).
  split; [apply H1; done|].
  destruct H2 as (_ & _ & H3 & H4 & H5); [right; done|].
  repeat split; assumption.
Defined.

End theme_claims.

(** ** JSON: reading back what was written *)

Section json.
Import JSON.

Lemma append_nil_l (s : string) : "" +:+ s = s.
Proof. done. Qed.

Lemma append_cons (c : ascii) (a b : string) :
  String c a +:+ b = String c (a +:+ b).
Proof. done. Qed.

Lemma append_assoc (a b c : string) : (a +:+ b) +:+ c = a +:+ (b +:+ c).
Proof.
  induction a as [|x a IH]; [done|].
  rewrite !append_cons. by rewrite IH.
Qed.

Lemma to_uint_head (n : nat) :
  Nat.to_uint n = D0 Nil ∨ nonzero_head (Nat.to_uint n).
Proof.
  rewrite <- (Unsigned.of_to n) at 1 2.
  rewrite Unsigned.to_of. unfold unorm.
  pose proof (nzhead_nonzero (Nat.to_uint n)) as Hnz.
  destruct (nzhead (Nat.to_uint n)); simpl; auto.
  by destruct (Hnz u).
Qed.

(** Reading the digits of [d] after a literal of value [n > 0]. *)
Lemma parse_digits (d : uint) (n : nat) (rest : string) (acc : list nat) :
  n ≠ 0 →
  parse_elements (NilEmpty.string_of_uint d +:+ rest) (Some n) acc =
  parse_elements rest (Some (Nat.of_uint_acc d n)) acc.
Proof.
  revert n.
  induction d as [|d IH|d IH|d IH|d IH|d IH|d IH|d IH|d IH|d IH|d IH];
    intros n Hn; [done|..];
    (destruct n as [|m]; [done|]);
    cbn [NilEmpty.string_of_uint]; rewrite append_cons;
    cbn [parse_elements Ascii.is_nat];
    rewrite IH by lia;
    cbn [Nat.of_uint_acc]; rewrite Nat.tail_mul_spec;
    do 3 f_equal; lia.
Qed.

Lemma parse_number (n : nat) (rest : string) (acc : list nat) :
  parse_elements (show_nat n +:+ rest) None acc =
  parse_elements rest (Some n) acc.
Proof.
  unfold show_nat.
  rewrite <- (Unsigned.of_to n) at 2. unfold Nat.of_uint.
  destruct (to_uint_head n) as [->|Hhead]; [done|].
  destruct (Nat.to_uint n) as [|d|d|d|d|d|d|d|d|d|d]; try done;
    cbn [NilZero.string_of_uint NilEmpty.string_of_uint];
    rewrite append_cons; cbn [parse_elements Ascii.is_nat];
    rewrite parse_digits by lia; done.
Qed.

Lemma parse_elements_join (l : list nat) (x : nat) (acc : list nat) :
  parse_elements (join "," (show_nat <$> x :: l) +:+ "]") None acc =
  Some (rev acc ++ x :: l).
Proof.
  revert x acc. induction l as [|y l IH]; intros x acc.
  - cbn [fmap list_fmap join]. rewrite parse_number. done.
  - change (join "," (show_nat <$> x :: y :: l))
      with (show_nat x +:+ "," +:+ join "," (show_nat <$> y :: l)).
    rewrite !append_assoc, parse_number.
    rewrite append_cons, append_nil_l. cbn [parse_elements Ascii.is_nat].
    rewrite decide_True by done. rewrite IH. simpl.
    by rewrite <- app_assoc.
Qed.

Lemma stringify_indices (l : list nat) :
  stringify (indices l) = "[" +:+ join "," (show_nat <$> l) +:+ "]".
Proof. unfold indices. simpl. by rewrite <- list_fmap_compose. Qed.

Lemma parse_indices_stringify (l : list nat) :
  parse_indices (stringify (indices l)) = Some l.
Proof.
  rewrite stringify_indices.
  destruct l as [|x l]; [done|].
  change ("[" +:+ ?s) with (String "["%char s).
  pose proof (parse_elements_join l x []) as Hjoin.
  unfold parse_indices. case_decide as Heq; [|exact Hjoin].
  rewrite Heq in Hjoin. discriminate Hjoin.
Qed.

(** [JSON.parse(JSON.stringify(l))] is [l], for an array [l] of
    positions. *)
Lemma parse_stringify (b : Browser) (l : list nat) :
  parse b (stringify (indices l)) = Return (indices l).
Proof. unfold parse. by rewrite parse_indices_stringify. Qed.

Lemma stringify_nonempty (items : list Item) : stringify (JSArray items) ≠ "".
Proof. done. Qed.

Lemma indices_inj (l l' : list nat) : indices l = indices l' → l = l'.
Proof.
  unfold indices. intros [= H]. revert l' H.
  induction l as [|x l IH]; intros [|y l'] H; try done.
  injection H as -> H. f_equal. by apply IH.
Qed.

Lemma elem_of_indices (i : nat) (l : list nat) : Index i ∈ Index <$> l ↔ i ∈ l.
Proof.
  rewrite list_elem_of_fmap. split.
  - by intros (j & [= ->] & ?).
  - intros ?. by exists i.
Qed.

Lemma filter_indices (i : nat) (l : list nat) :
  filter (λ id, id ≠ Index i) (Index <$> l) = Index <$> filter (λ id, id ≠ i) l.
Proof.
  induction l as [|x l IH]; [done|].
  rewrite fmap_cons, !filter_cons, IH.
  destruct (decide (x = i)) as [->|Hne].
  - rewrite decide_False by (by intros H; apply H).
    by rewrite decide_False by (by intros H; apply H).
  - rewrite decide_True by congruence. by rewrite decide_True.
Qed.

End json.

(** ** Class lists *)

Lemma contains_add (c c' : string) (l : list string) :
  DOMTokenList.contains c (DOMTokenList.add c' l) =
  bool_decide (c = c') || DOMTokenList.contains c l.
Proof.
  unfold DOMTokenList.add, DOMTokenList.contains.
  apply Bool.eq_true_iff_eq.
  rewrite orb_true_iff, !bool_decide_eq_true.
  destruct (bool_decide (c' ∈ l)) eqn:Hin.
  - apply bool_decide_eq_true in Hin.
    split; [auto | intros [->|?]; auto].
  - rewrite elem_of_app, list_elem_of_singleton. tauto.
Qed.

Lemma contains_remove (c c' : string) (l : list string) :
  DOMTokenList.contains c (DOMTokenList.remove c' l) =
  negb (bool_decide (c = c')) && DOMTokenList.contains c l.
Proof.
  unfold DOMTokenList.remove, DOMTokenList.contains.
  apply Bool.eq_true_iff_eq.
  rewrite andb_true_iff, negb_true_iff, bool_decide_eq_false,
    !bool_decide_eq_true, list_elem_of_filter.
  tauto.
Qed.

Lemma matching_update (p : Element → bool) (f : Element → Element)
    (r r' : nat) (d : Document) :
  matching p (update_node f r d) r' =
  if decide (r = r') then matching (p ∘ f) d r' else matching p d r'.
Proof.
  unfold matching. rewrite node_update.
  case_decide; [|done]. by destruct (node d r').
Qed.

Lemma classList_contains_add (r r' : nat) (c c' : string) (w : World) :
  classList_contains r c (classList_add r' c' w) =
  (bool_decide (r = r' ∧ c = c') && bool_decide (is_Some (node (document w) r)))
  || classList_contains r c w.
Proof.
  unfold classList_contains, classList_add. simpl.
  rewrite matching_update. unfold matching.
  apply Bool.eq_true_iff_eq.
  rewrite orb_true_iff, andb_true_iff, !bool_decide_eq_true.
  case_decide as Hr.
  - subst r'. destruct (node (document w) r) as [e|]; simpl.
    + unfold has_class; simpl.
      rewrite contains_add, orb_true_iff, bool_decide_eq_true.
      split; [intros [?|?]; eauto | intros [[[_ ?] _]|?]; auto].
    + split; [done | intros [[_ [? ?]]|?]; done].
  - split; [auto | intros [[[? _] _]|?]; [done | auto]].
Qed.

Lemma classList_contains_remove (r r' : nat) (c c' : string) (w : World) :
  classList_contains r c (classList_remove r' c' w) =
  negb (bool_decide (r = r' ∧ c = c')) && classList_contains r c w.
Proof.
  unfold classList_contains, classList_remove. simpl.
  rewrite matching_update. unfold matching.
  apply Bool.eq_true_iff_eq.
  rewrite andb_true_iff, negb_true_iff, bool_decide_eq_false.
  case_decide as Hr.
  - subst r'. destruct (node (document w) r) as [e|]; simpl.
    + unfold has_class; simpl.
      rewrite contains_remove, andb_true_iff, negb_true_iff, bool_decide_eq_false.
      tauto.
    + split; [done | intros [_ ?]; done].
  - split; [intros ?; split; [intros [? _]; done | done] | intros [_ ?]; done].
Qed.

Lemma classList_contains_setStyle (r r' : nat) (c prop value : string) (w : World) :
  classList_contains r c (setStyle r' prop value w) = classList_contains r c w.
Proof.
  unfold classList_contains, setStyle. simpl.
  rewrite matching_update. by case_decide.
Qed.

Lemma node_is_Some_update (f : Element → Element) (r r' : nat) (d : Document) :
  is_Some (node (update_node f r d) r') ↔ is_Some (node d r').
Proof.
  rewrite node_update. case_decide; [|done].
  by rewrite fmap_is_Some.
Qed.

(** ** FavoriteManager *)

Section favorites.
Import FavoriteManager.

Lemma animateButton_classList (r button : nat) (c action : string) (w : World) :
  classList_contains r c (animateButton button action w) = classList_contains r c w.
Proof.
  unfold animateButton. case_decide; [|done].
  unfold setTimeout.
  change (classList_contains r c (with_timers ?f ?w'))
    with (classList_contains r c w').
  apply classList_contains_setStyle.
Qed.

Lemma animateButton_nodes (r button : nat) (action : string) (w : World) :
  is_Some (node (document (animateButton button action w)) r) ↔
  is_Some (node (document w) r).
Proof.
  unfold animateButton. case_decide; [|done]. simpl.
  apply node_is_Some_update.
Qed.

(** On an array both method calls succeed, and the call runs to its
    end. *)
Lemma toggleFavorite_array (this : t) (items : list Item) (button index : nat)
    (w : World) :
  favorites this = JSArray items →
  toggleFavorite this button index w =
  if classList_contains button "active" w then
    let this' := mk (JSArray (filter (λ id, id ≠ Index index) items)) in
    (this',
     setStoredFavorites this'
       (animateButton button "remove" (classList_remove button "active" w)),
     Return ())
  else
    let this' := mk (JSArray (items ++ [Index index])) in
    (this',
     setStoredFavorites this'
       (animateButton button "add" (classList_add button "active" w)),
     Return ()).
Proof.
  intros Hfav. unfold toggleFavorite. rewrite Hfav.
  by destruct (classList_contains button "active" w).
Qed.

Lemma toggleFavorite_indices (this : t) (l : list nat) (button index : nat)
    (w : World) :
  favorites this = indices l →
  toggleFavorite this button index w =
  if classList_contains button "active" w then
    let this' := mk (indices (filter (λ id, id ≠ index) l)) in
    (this',
     setStoredFavorites this'
       (animateButton button "remove" (classList_remove button "active" w)),
     Return ())
  else
    let this' := mk (indices (l ++ [index])) in
    (this',
     setStoredFavorites this'
       (animateButton button "add" (classList_add button "active" w)),
     Return ()).
Proof.
  intros Hfav. rewrite (toggleFavorite_array this (Index <$> l)) by done.
  unfold indices. by rewrite filter_indices, fmap_app.
Qed.

(** On a value that is not an array the call changes the class of the
    button and throws. *)
Lemma toggleFavorite_not_array (this : t) (button index : nat) (w : World) :
  (∀ items, favorites this ≠ JSArray items) →
  toggleFavorite this button index w =
  (this,
   if classList_contains button "active" w
   then classList_remove button "active" w
   else classList_add button "active" w,
   Throw TypeError).
Proof.
  intros Hfav. unfold toggleFavorite.
  destruct (favorites this) as [items| |] eqn:Hv; [by destruct (Hfav items)|..];
    by destruct (classList_contains button "active" w).
Qed.

Lemma toggleFavorite_cases (this : t) (button index : nat) (w : World) :
  (∃ items, favorites this = JSArray items) ∨
  (∀ items, favorites this ≠ JSArray items).
Proof. destruct (favorites this); eauto. Qed.

Lemma toggleFavorite_favorites (this : t) (l : list nat) (button index : nat)
    (w : World) :
  favorites this = indices l →
  favorites (toggleFavorite this button index w).1.1 =
  indices (if classList_contains button "active" w
           then filter (λ id, id ≠ index) l
           else l ++ [index]).
Proof.
  intros Hfav. rewrite (toggleFavorite_indices this l) by done.
  by destruct (classList_contains button "active" w).
Qed.

(** A call that returns has stored the array. *)
Lemma toggleFavorite_stored (this : t) (button index : nat) (w : World) :
  (toggleFavorite this button index w).2 = Return () →
  localStorage (toggleFavorite this button index w).1.2 !! FAVORITES_KEY =
  Some (JSON.stringify (favorites (toggleFavorite this button index w).1.1)).
Proof.
  destruct (toggleFavorite_cases this button index w) as [[items Hv]|Hv].
  - intros _. rewrite (toggleFavorite_array this items) by done.
    destruct (classList_contains button "active" w); simpl; apply lookup_insert_eq.
  - rewrite toggleFavorite_not_array by done. done.
Qed.

Lemma toggleFavorite_returns (this : t) (button index : nat) (w : World) :
  (toggleFavorite this button index w).2 = Return () ↔
  ∃ items, favorites this = JSArray items.
Proof.
  destruct (toggleFavorite_cases this button index w) as [[items Hv]|Hv].
  - rewrite (toggleFavorite_array this items) by done.
    split; [eauto|]. by destruct (classList_contains button "active" w).
  - rewrite toggleFavorite_not_array by done. split; [done|].
    intros [items Hitems]. by destruct (Hv items).
Qed.

Lemma toggleFavorite_active (this : t) (button index r : nat) (w : World) :
  is_Some (node (document w) button) →
  classList_contains r "active" (toggleFavorite this button index w).1.2 =
  if decide (r = button) then negb (classList_contains button "active" w)
  else classList_contains r "active" w.
Proof.
  intros Hnode.
  assert (classList_contains r "active"
            (if classList_contains button "active" w
             then classList_remove button "active" w
             else classList_add button "active" w) =
          if decide (r = button) then negb (classList_contains button "active" w)
          else classList_contains r "active" w) as Hflip.
  { destruct (classList_contains button "active" w) eqn:Hact.
    - rewrite classList_contains_remove.
      case_decide as Hr.
      + subst. by rewrite bool_decide_eq_true_2.
      + rewrite bool_decide_eq_false_2; [done|]. by intros [? _].
    - rewrite classList_contains_add.
      case_decide as Hr.
      + subst. by rewrite !bool_decide_eq_true_2.
      + rewrite (bool_decide_eq_false_2 (r = button ∧ _)); [done|]. by intros [? _]. }
  destruct (toggleFavorite_cases this button index w) as [[items Hv]|Hv].
  - rewrite (toggleFavorite_array this items) by done. rewrite <- Hflip.
    destruct (classList_contains button "active" w); simpl;
      unfold setStoredFavorites;
      change (classList_contains r "active" (with_localStorage ?f ?w'))
        with (classList_contains r "active" w');
      by rewrite animateButton_classList.
  - by rewrite toggleFavorite_not_array.
Qed.

Lemma toggleFavorite_nodes (this : t) (button index r : nat) (w : World) :
  is_Some (node (document (toggleFavorite this button index w).1.2) r) ↔
  is_Some (node (document w) r).
Proof.
  destruct (toggleFavorite_cases this button index w) as [[items Hv]|Hv].
  - rewrite (toggleFavorite_array this items) by done.
    destruct (classList_contains button "active" w); cbn -[animateButton];
      rewrite animateButton_nodes; simpl; apply node_is_Some_update.
  - rewrite toggleFavorite_not_array by done.
    destruct (classList_contains button "active" w); simpl;
      apply node_is_Some_update.
Qed.

(** [includes] never throws on an array, so [init] runs to its end. *)
Lemma forEach_button_array (items : list Item) (btns : list nat) (index : nat)
    (w : World) :
  (forEach_button (mk (JSArray items)) btns index w).2 = Return ().
Proof.
  revert index w. induction btns as [|btn btns IH]; intros index w; [done|].
  simpl. apply IH.
Qed.

(** With no favorites to restore, [init] adds listeners only. *)
Lemma forEach_button_nil (btns : list nat) (index : nat) (w : World) :
  document (forEach_button (mk (JSArray [])) btns index w).1 = document w ∧
  localStorage (forEach_button (mk (JSArray [])) btns index w).1 = localStorage w.
Proof.
  revert index w. induction btns as [|btn btns IH]; intros index w; [done|].
  simpl.
  match goal with
  | |- context [forEach_button _ btns _ ?w'] =>
      destruct (IH (S index) w') as [-> ->]
  end.
  done.
Qed.

Lemma querySelectorAll_NoDup (p : Element → bool) (d : Document) :
  NoDup (document_querySelectorAll p d).
Proof. apply NoDup_filter, NoDup_seq. Qed.

Lemma querySelectorAll_node (p : Element → bool) (d : Document) (r : nat) :
  r ∈ document_querySelectorAll p d → is_Some (node d r).
Proof.
  unfold document_querySelectorAll. rewrite list_elem_of_filter.
  intros [Hm _]. apply Is_true_true in Hm.
  apply andb_true_iff in Hm as [_ Hm].
  unfold matching in Hm. destruct (node d r); [eauto|done].
Qed.

Lemma click_consistent (btns : list nat) (st : t * World) (index : nat) :
  NoDup btns → consistent btns st → consistent btns (click btns st index).
Proof.
  intros Hbtns (l & Hfav & Hnd & Hiff & Hnodes & Hsto). unfold click.
  destruct (btns !! index) as [button|] eqn:Hbtn; [|by exists l].
  destruct st as [this w]. simpl in *.
  assert (is_Some (node (document w) button)) as Hnode.
  { apply Hnodes. by eapply list_elem_of_lookup_2. }
  exists (if classList_contains button "active" w
          then filter (λ id, id ≠ index) l else l ++ [index]).
  split; [by apply toggleFavorite_favorites|].
  split; [|split; [|split]].
  - destruct (classList_contains button "active" w) eqn:Hact.
    + by apply NoDup_filter.
    + apply NoDup_app. split; [done|]. split; [|apply NoDup_singleton].
      intros i Hi ->%list_elem_of_singleton.
      apply Hiff in Hi as (btn & Hlook & Hbtnact). congruence.
  - intros i.
    assert (∀ btn, btns !! i = Some btn →
              classList_contains btn "active"
                (toggleFavorite this button index w).1.2 =
              if decide (i = index)
              then negb (classList_contains button "active" w)
              else classList_contains btn "active" w) as Hcls.
    { intros btn Hlook. rewrite toggleFavorite_active by done.
      destruct (decide (i = index)) as [->|Hne].
      - assert (btn = button) as -> by congruence. by rewrite decide_True.
      - rewrite decide_False; [done|]. intros Heq. subst btn.
        apply Hne. exact (NoDup_lookup _ _ _ _ Hbtns Hlook Hbtn). }
    destruct (classList_contains button "active" w) eqn:Hact.
    + rewrite list_elem_of_filter, Hiff. split.
      * intros [Hne (btn & Hlook & Hon)]. exists btn. split; [done|].
        rewrite (Hcls _ Hlook), decide_False by done. done.
      * intros (btn & Hlook & Hon). rewrite (Hcls _ Hlook) in Hon.
        case_decide; [done|]. eauto.
    + rewrite elem_of_app, list_elem_of_singleton, Hiff. split.
      * intros [(btn & Hlook & Hon) | ->].
        -- exists btn. split; [done|]. rewrite (Hcls _ Hlook).
           case_decide; [done|]. done.
        -- exists button. split; [done|].
           rewrite (Hcls _ Hbtn), decide_True by done. done.
      * intros (btn & Hlook & Hon). rewrite (Hcls _ Hlook) in Hon.
        case_decide; [by right|]. left. eauto.
  - intros btn Hin. rewrite toggleFavorite_nodes. auto.
  - right. rewrite toggleFavorite_stored.
    + by rewrite (toggleFavorite_favorites this l).
    + apply toggleFavorite_returns. rewrite Hfav. unfold indices. eauto.
Qed.

Lemma clicks_consistent (btns : list nat) (clicks : list nat) (st : t * World) :
  NoDup btns → consistent btns st → consistent btns (foldl (click btns) st clicks).
Proof.
  intros Hbtns. revert st.
  induction clicks as [|i clicks IH]; intros st Hst; [done|].
  simpl. apply IH. by apply click_consistent.
Qed.

(** Reading back what was stored does not depend on the browser. *)
Lemma stored_read (w : World) (l : list nat) :
  localStorage w !! FAVORITES_KEY = None ∧ l = [] ∨
  localStorage w !! FAVORITES_KEY = Some (JSON.stringify (indices l)) →
  getStoredFavorites w = Return (indices l).
Proof.
  unfold getStoredFavorites. intros [[-> ->] | ->]; [done|].
  rewrite decide_False by apply stringify_nonempty.
  by rewrite parse_stringify.
Qed.

Lemma consistent_read (btns : list nat) (st : t * World) :
  consistent btns st → getStoredFavorites st.2 = Return (favorites st.1).
Proof. intros (l & -> & _ & _ & _ & Hsto). by apply stored_read. Qed.

(** The state the constructor leaves on a page whose markup marks no
    favorite button active and whose storage holds no favorites. *)
Lemma new_consistent (w0 : World) :
  let btns := document_querySelectorAll (has_class "favorite-btn") (document w0) in
  localStorage w0 !! FAVORITES_KEY = None →
  (∀ btn, btn ∈ btns → classList_contains btn "active" w0 = false) →
  new w0 = ((init (mk (indices [])) w0).1, Return (mk (indices []))) ∧
  consistent btns (mk (indices []), (init (mk (indices [])) w0).1).
Proof.
  intros btns Hempty Hinactive. split.
  { unfold new, getStoredFavorites. rewrite Hempty.
    change (JSArray []) with (indices []).
    pose proof (forEach_button_array [] btns 0 w0) as Hret.
    unfold init. fold btns. change (JSArray []) with (indices []) in Hret.
    by destruct (forEach_button (mk (indices [])) btns 0 w0) as [w1 [[]|e]]. }
  destruct (forEach_button_nil btns 0 w0) as [Hdoc Hsto].
  unfold init. fold btns. change (indices []) with (JSArray []).
  exists []. simpl.
  split; [done|]. split; [apply NoDup_nil_2|]. split; [|split].
  - intros i. split; [by intros ?%elem_of_nil|].
    intros (btn & Hlook & Hon). exfalso.
    unfold classList_contains in Hon. rewrite Hdoc in Hon.
    apply list_elem_of_lookup_2 in Hlook.
    apply Hinactive in Hlook. unfold classList_contains in Hlook. congruence.
  - intros btn Hin. rewrite Hdoc. by eapply querySelectorAll_node.
  - left. by rewrite Hsto.
Qed.

End favorites.

(** ** Idempotent and toggling effects *)

Lemma update_node_idemp (f : Element → Element) (r : nat) (d : Document) :
  (∀ e, f (f e) = f e) →
  update_node f r (update_node f r d) = update_node f r d.
Proof.
  intros Hf. destruct r as [|i]; unfold update_node; simpl.
  - by rewrite Hf.
  - f_equal. rewrite list_alter_alter_eq.
    apply list_alter_ext; [|done]. intros e _. apply Hf.
Qed.

Lemma add_idemp (c : string) (l : list string) :
  DOMTokenList.add c (DOMTokenList.add c l) = DOMTokenList.add c l.
Proof.
  unfold DOMTokenList.add at 1.
  rewrite contains_add, bool_decide_eq_true_2 by done. done.
Qed.

Lemma filter_idemp {A} (P : A → Prop) `{∀ x, Decision (P x)} (l : list A) :
  filter P (filter P l) = filter P l.
Proof.
  induction l as [|x l IH]; [done|].
  rewrite filter_cons. case_decide; [|done].
  rewrite filter_cons, decide_True by done. by rewrite IH.
Qed.

Section idempotence.
Import ThemeManager.

Lemma applyTheme_idemp (this : t) (theme : string) (w : World) :
  applyTheme (applyTheme this theme w).1 theme (applyTheme this theme w).2 =
  applyTheme this theme w.
Proof.
  unfold applyTheme, setStoredTheme, setAttribute, with_localStorage,
    with_document. simpl.
  f_equal. f_equal.
  - apply insert_insert_eq.
  - f_equal. unfold with_attributes. simpl. f_equal. apply insert_insert_eq.
Qed.

Lemma on_entry_idemp (entry : IntersectionObserverEntry) (w : World) :
  LazyLoader.on_entry entry (LazyLoader.on_entry entry w) =
  LazyLoader.on_entry entry w.
Proof.
  unfold LazyLoader.on_entry. destruct (isIntersecting entry); [|done].
  unfold LazyLoader.unobserve, classList_add, with_observer, with_document.
  simpl. f_equal.
  - apply update_node_idemp. intros e. unfold with_classList. simpl.
    f_equal. apply add_idemp.
  - destruct (observer w) as [targets|]; simpl; [|done].
    f_equal. apply filter_idemp.
Qed.

(** C4 (as amended).  Applying a theme and marking an image loaded
    are idempotent: doing either twice in succession with the same
    arguments leaves the objects, the document and the storage as
    doing it once does.  A click on a favorite button is a toggle: each
    call of [toggleFavorite] on a button of the document inverts
    whether the button carries ['active']. *)
Theorem effects_idempotent_or_toggling :
  (∀ this theme w,
     applyTheme (applyTheme this theme w).1 theme (applyTheme this theme w).2 =
     applyTheme this theme w) ∧
  (∀ entry w,
     LazyLoader.on_entry entry (LazyLoader.on_entry entry w) =
     LazyLoader.on_entry entry w) ∧
  (∀ this btn index w,
     is_Some (node (document w) btn) →
     classList_contains btn "active"
       (FavoriteManager.toggleFavorite this btn index w).1.2 =
     negb (classList_contains btn "active" w)).
Proof.
  split; [exact applyTheme_idemp|]. split; [exact on_entry_idemp|].
  intros this btn index w Hnode.
  rewrite toggleFavorite_active by done. by rewrite decide_True.
Qed.

Lemma effects_idempotent_or_toggling_witness :
  is_Some (node (document Sample.fresh) 9) ∧
  classList_contains 9 "active"
    (FavoriteManager.toggleFavorite (FavoriteManager.mk (indices [])) 9 0
       Sample.fresh).1.2 =
  negb (classList_contains 9 "active" Sample.fresh).
Proof.
  assert (is_Some (node (document Sample.fresh) 9)) as Hnode.
  { vm_compute. eauto. }
  split; [exact Hnode|].
  destruct effects_idempotent_or_toggling as (_ & _ & Htoggle).
  apply Htoggle. exact Hnode.
Defined.

(** C4 as stated fails for the click on a favorite button: the
    second [toggleFavorite] on the same button undoes the first, so
    the button and the stored array differ from those after one
    call. *)
Lemma toggleFavorite_twice_differs :
  let once :=
    FavoriteManager.toggleFavorite (FavoriteManager.mk (indices [])) 9 0
      Sample.fresh in
  let twice := FavoriteManager.toggleFavorite once.1.1 9 0 once.1.2 in
  classList_contains 9 "active" once.1.2 = true ∧
  classList_contains 9 "active" twice.1.2 = false ∧
  localStorage once.1.2 !! FavoriteManager.FAVORITES_KEY = Some "[0]" ∧
  localStorage twice.1.2 !! FavoriteManager.FAVORITES_KEY = Some "[]" ∧
  twice ≠ once.
Proof.
  intros once twice.
  assert (classList_contains 9 "active" once.1.2 = true) as H1 by (by vm_compute).
  assert (classList_contains 9 "active" twice.1.2 = false) as H2 by (by vm_compute).
  split; [exact H1|]. split; [exact H2|].
  split; [by vm_compute|]. split; [by vm_compute|].
  intros Heq. rewrite Heq in H2. congruence.
Qed.

End idempotence.

(** ** Absent elements *)

Lemma onCardClick_unguarded (card : nat) (w : World) :
  element_querySelector card (has_class "product-name") (document w) = None →
  ProductInteractions.onCardClick card w = (w, Throw TypeError).
Proof. intros Hnone. unfold ProductInteractions.onCardClick. by rewrite Hnone. Qed.

(** C5 fails on a click on a product card without a product name:
    [onCardClick] dereferences the result of
    [card.querySelector('.product-name')] with no check and throws a
    [TypeError] before anything else happens, both when called on its
    own and when the click reaches it through the listener of the card. *)
Theorem onCardClick_throws_without_product_name :
  element_querySelector 15 (has_class "product-name") Sample.markup = None ∧
  ProductInteractions.onCardClick 15 Sample.fresh = (Sample.fresh, Throw TypeError) ∧
  let loaded := Page.load Sample.chrome Sample.markup ∅ in
  Page.uncaught loaded = [] ∧
  Page.uncaught (Page.run loaded [Page.Click 15]) = [TypeError].
Proof. by vm_compute. Qed.

(** ** Frames: what an operation leaves alone *)

Section frames.
Context {A : Type} (obs : Element → A) (dflt : A).

Lemma observe_update (f : Element → Element) (r r' : nat) (d : Document) :
  (∀ e, obs (f e) = obs e) →
  observe obs dflt (update_node f r d) r' = observe obs dflt d r'.
Proof.
  intros Hf. unfold observe. rewrite node_update.
  case_decide; [|done]. destruct (node d r'); simpl; [apply Hf|done].
Qed.

Lemma keeps_refl (w : World) : keeps obs dflt w w.
Proof. by intros r. Qed.

Lemma keeps_trans (w1 w2 w3 : World) :
  keeps obs dflt w1 w2 → keeps obs dflt w2 w3 → keeps obs dflt w1 w3.
Proof. intros H12 H23 r. by rewrite H23, H12. Qed.

Lemma keeps_update (f : Element → Element) (r : nat) (w0 w : World) :
  (∀ e, obs (f e) = obs e) →
  keeps obs dflt w0 w →
  keeps obs dflt w0 (with_document (update_node f r) w).
Proof.
  intros Hf Hk r'. simpl. rewrite observe_update by done. apply Hk.
Qed.

Lemma keeps_createElement (name : string) (w0 w : World) :
  obs (mkElement name None [] ∅ ∅ "" None) = dflt →
  keeps obs dflt w0 w →
  keeps obs dflt w0 (ProductInteractions.createElement name w).2.
Proof.
  intros Hnew Hk r. rewrite <- Hk. unfold observe. simpl.
  destruct r as [|i]; simpl; [done|].
  destruct (decide (i < length (descendants (document w)))) as [Hlt|Hge].
  - by rewrite lookup_app_l.
  - rewrite lookup_app_r by lia.
    rewrite (lookup_ge_None_2 (descendants (document w))) by lia.
    destruct (i - length (descendants (document w))) as [|j]; simpl; [done|].
    done.
Qed.

Lemma keeps_foldl {B} (step : World → B → World) (l : list B) (w0 w : World) :
  (∀ w x, keeps obs dflt w0 w → keeps obs dflt w0 (step w x)) →
  keeps obs dflt w0 w → keeps obs dflt w0 (foldl step w l).
Proof.
  intros Hstep. revert w. induction l as [|x l IH]; intros w Hk; [done|].
  simpl. apply IH, Hstep, Hk.
Qed.

End frames.

Lemma style_of_assign (prop prop' value : string) (e : Element) :
  prop ≠ prop' →
  style_of prop' (with_style (style_assign prop value) e) = style_of prop' e.
Proof.
  intros Hne. unfold style_of, style_assign. simpl.
  case_decide; [by apply lookup_delete_ne | by apply lookup_insert_ne].
Qed.

Lemma has_class_add (c c' : string) (e : Element) :
  c ≠ c' →
  has_class c (with_classList (DOMTokenList.add c') e) = has_class c e.
Proof.
  intros Hne. unfold has_class. simpl.
  by rewrite contains_add, bool_decide_eq_false_2.
Qed.

Lemma has_class_remove (c c' : string) (e : Element) :
  c ≠ c' →
  has_class c (with_classList (DOMTokenList.remove c') e) = has_class c e.
Proof.
  intros Hne. unfold has_class. simpl.
  by rewrite contains_remove, bool_decide_eq_false_2.
Qed.

Lemma classList_contains_observe (r : nat) (c : string) (w : World) :
  classList_contains r c w = observe (has_class c) false (document w) r.
Proof. unfold classList_contains, matching, observe. by destruct (node _ r). Qed.

Section setters.
Context {A : Type} (obs : Element → A) (dflt : A) (w0 w : World).
Hypothesis Hk : keeps obs dflt w0 w.

Lemma keeps_with_localStorage f : keeps obs dflt w0 (with_localStorage f w).
Proof. exact Hk. Qed.
Lemma keeps_with_timers f : keeps obs dflt w0 (with_timers f w).
Proof. exact Hk. Qed.
Lemma keeps_with_console f : keeps obs dflt w0 (with_console f w).
Proof. exact Hk. Qed.
Lemma keeps_with_listeners f : keeps obs dflt w0 (with_listeners f w).
Proof. exact Hk. Qed.
Lemma keeps_with_scrollLog f : keeps obs dflt w0 (with_scrollLog f w).
Proof. exact Hk. Qed.
Lemma keeps_with_observer f : keeps obs dflt w0 (with_observer f w).
Proof. exact Hk. Qed.
End setters.

Lemma skeleton_insert (name value : string) (e : Element) :
  name ≠ "href" →
  skeleton (with_attributes (insert name value) e) = skeleton e.
Proof.
  intros Hne. unfold skeleton, href_of. simpl. by rewrite lookup_insert_ne.
Qed.

(** The browser operations in terms of the setters of [World]. *)
Ltac unfold_ops :=
  unfold setStyle, setAttribute, classList_add, classList_remove, setTimeout,
    addEventListener, console_log, ProductInteractions.appendChild, Page.remove,
    SmoothScroll.scrollIntoView, LazyLoader.observe, LazyLoader.unobserve,
    ThemeManager.setStoredTheme, FavoriteManager.setStoredFavorites in *.

Ltac side_condition :=
  intros;
  first [ reflexivity
        | apply style_of_assign; done
        | apply has_class_add; done
        | apply has_class_remove; done
        | apply skeleton_insert; done ].

Ltac keeps_step :=
  first [ apply keeps_refl
        | assumption
        | apply keeps_with_localStorage
        | apply keeps_with_timers
        | apply keeps_with_console
        | apply keeps_with_listeners
        | apply keeps_with_scrollLog
        | apply keeps_with_observer
        | apply keeps_update; [side_condition|]
        | apply keeps_createElement; [side_condition|] ].

Ltac keeps_tac := unfold_ops; repeat keeps_step.

Section operation_frames.
Context {A : Type} (obs : Element → A) (dflt : A).

Lemma applyTheme_keeps (this : ThemeManager.t) (theme : string) (w0 w : World) :
  ignores_theme_attribute obs →
  keeps obs dflt w0 w →
  keeps obs dflt w0 (ThemeManager.applyTheme this theme w).2.
Proof.
  intros Hattr Hk. unfold ThemeManager.applyTheme. simpl. unfold_ops.
  apply keeps_with_localStorage, keeps_update; [apply Hattr|done].
Qed.

Lemma toggleTheme_keeps (this : ThemeManager.t) (w0 w : World) :
  ignores_theme_attribute obs → ignores_transform obs →
  keeps obs dflt w0 w →
  keeps obs dflt w0 (ThemeManager.toggleTheme this w).1.2.
Proof.
  intros Hattr Htr Hk. unfold ThemeManager.toggleTheme.
  set (newTheme := if decide _ then _ else _).
  pose proof (applyTheme_keeps this newTheme w0 w Hattr Hk) as Happ.
  destruct (ThemeManager.applyTheme this newTheme w) as [this1 w1] eqn:Heq.
  simpl in Happ.
  destruct (ThemeManager.themeToggle this1); simpl; [|done].
  unfold_ops. apply keeps_with_timers, keeps_update; [apply Htr|done].
Qed.

Lemma ThemeManager_new_keeps (w0 w : World) :
  ignores_theme_attribute obs →
  keeps obs dflt w0 w →
  keeps obs dflt w0 (ThemeManager.new w).2.
Proof.
  intros Hattr Hk. unfold ThemeManager.new, ThemeManager.init.
  set (this := ThemeManager.mk _ _).
  pose proof (applyTheme_keeps this (ThemeManager.currentTheme this) w0 w Hattr Hk)
    as Happ.
  destruct (ThemeManager.applyTheme this _ w) as [this1 w1]. simpl in Happ.
  destruct (ThemeManager.themeToggle this1); simpl; [|done].
  unfold_ops. by apply keeps_with_listeners.
Qed.

Lemma animateButton_keeps (button : nat) (action : string) (w0 w : World) :
  ignores_animation obs →
  keeps obs dflt w0 w →
  keeps obs dflt w0 (FavoriteManager.animateButton button action w).
Proof.
  intros Han Hk. unfold FavoriteManager.animateButton.
  case_decide; [|done]. unfold_ops.
  apply keeps_with_timers, keeps_update; [apply Han|done].
Qed.

Lemma toggleFavorite_keeps (this : FavoriteManager.t) (button index : nat)
    (w0 w : World) :
  ignores_animation obs → ignores_class obs "active" →
  keeps obs dflt w0 w →
  keeps obs dflt w0 (FavoriteManager.toggleFavorite this button index w).1.2.
Proof.
  intros Han [Hadd Hrem] Hk.
  assert (keeps obs dflt w0 (classList_remove button "active" w)) as Hk1.
  { unfold_ops. by apply keeps_update. }
  assert (keeps obs dflt w0 (classList_add button "active" w)) as Hk2.
  { unfold_ops. by apply keeps_update. }
  unfold FavoriteManager.toggleFavorite.
  destruct (classList_contains button "active" w).
  - destruct (FavoriteManager.filter_out _ _); [|done].
    cbn -[FavoriteManager.animateButton].
    unfold FavoriteManager.setStoredFavorites.
    by apply keeps_with_localStorage, animateButton_keeps.
  - destruct (FavoriteManager.push _ _); [|done].
    cbn -[FavoriteManager.animateButton].
    unfold FavoriteManager.setStoredFavorites.
    by apply keeps_with_localStorage, animateButton_keeps.
Qed.

Lemma init_button_keeps (this : FavoriteManager.t) (btn index : nat)
    (w0 w : World) :
  ignores_class obs "active" →
  keeps obs dflt w0 w →
  keeps obs dflt w0 (FavoriteManager.init_button this btn index w).1.
Proof.
  intros [Hadd Hrem] Hk. unfold FavoriteManager.init_button.
  destruct (FavoriteManager.includes _ _) as [isFavorite|]; [|done].
  simpl. unfold_ops. apply keeps_with_listeners.
  destruct isFavorite; [|done]. by apply keeps_update.
Qed.

Lemma forEach_button_keeps (this : FavoriteManager.t) (btns : list nat)
    (index : nat) (w0 w : World) :
  ignores_class obs "active" →
  keeps obs dflt w0 w →
  keeps obs dflt w0 (FavoriteManager.forEach_button this btns index w).1.
Proof.
  intros Hcls. revert index w.
  induction btns as [|btn btns IH]; intros index w Hk; [done|].
  simpl.
  pose proof (init_button_keeps this btn index w0 w Hcls Hk) as Hk1.
  destruct (FavoriteManager.init_button this btn index w) as [w1 [[]|e]];
    [by apply IH|done].
Qed.

Lemma FavoriteManager_new_keeps (w0 w : World) :
  ignores_class obs "active" →
  keeps obs dflt w0 w →
  keeps obs dflt w0 (FavoriteManager.new w).1.
Proof.
  intros Hcls Hk. unfold FavoriteManager.new.
  destruct (FavoriteManager.getStoredFavorites w) as [favs|]; [|done].
  unfold FavoriteManager.init.
  pose proof (forEach_button_keeps (FavoriteManager.mk favs)
                (document_querySelectorAll (has_class "favorite-btn") (document w))
                0 w0 w Hcls Hk) as Hk1.
  by destruct (FavoriteManager.forEach_button _ _ _ _) as [w1 [[]|e]].
Qed.

End operation_frames.

Section more_operation_frames.
Context {A : Type} (obs : Element → A) (dflt : A).

Lemma createRipple_keeps (card : nat) (w0 w : World) :
  ignores_style obs → ignores_parent obs →
  (∀ e, obs (with_classList (DOMTokenList.add "ripple") e) = obs e) →
  obs (mkElement "span" None [] ∅ ∅ "" None) = dflt →
  keeps obs dflt w0 w →
  keeps obs dflt w0 (ProductInteractions.createRipple card w).
Proof.
  intros Hst Hpar Hcls Hnew Hk. unfold ProductInteractions.createRipple.
  pose proof (keeps_createElement obs dflt "span" w0 w Hnew Hk) as Hcreate.
  destruct (ProductInteractions.createElement "span" w) as [ripple w1].
  simpl in Hcreate. unfold_ops.
  apply keeps_with_timers.
  repeat (apply keeps_update; [first [apply Hst | apply Hpar | apply Hcls]|]).
  exact Hcreate.
Qed.

Lemma onCardClick_keeps (card : nat) (w0 w : World) :
  ignores_style obs → ignores_parent obs →
  (∀ e, obs (with_classList (DOMTokenList.add "ripple") e) = obs e) →
  obs (mkElement "span" None [] ∅ ∅ "" None) = dflt →
  keeps obs dflt w0 w →
  keeps obs dflt w0 (ProductInteractions.onCardClick card w).1.
Proof.
  intros Hst Hpar Hcls Hnew Hk. unfold ProductInteractions.onCardClick.
  destruct (element_querySelector _ _ _); simpl; [|done].
  by apply createRipple_keeps.
Qed.

Lemma onCardHover_eq (card : nat) (isHovering : bool) (w : World) :
  ProductInteractions.onCardHover card isHovering w = w.
Proof. unfold ProductInteractions.onCardHover. by destruct (element_querySelector _ _ _). Qed.

Lemma onAnchorClick_keeps (anchor : nat) (e : Event) (w0 w : World) :
  keeps obs dflt w0 w →
  keeps obs dflt w0 (SmoothScroll.onAnchorClick anchor e w).1.2.
Proof.
  intros Hk. unfold SmoothScroll.onAnchorClick.
  by destruct (selectorEngine _ _ _) as [[el|]|].
Qed.

Lemma run_task_keeps (task : Task) (w0 w : World) :
  ignores_style obs → ignores_parent obs →
  keeps obs dflt w0 w →
  keeps obs dflt w0 (Page.run_task task w).
Proof.
  intros Hst Hpar Hk. destruct task; simpl; unfold_ops;
    apply keeps_update; first [apply Hst | apply Hpar | done].
Qed.

Lemma fire_keeps (k : nat) (w0 w : World) :
  ignores_style obs → ignores_parent obs →
  keeps obs dflt w0 w →
  keeps obs dflt w0 (Page.fire k w).
Proof.
  intros Hst Hpar Hk. unfold Page.fire.
  destruct (timers w !! k) as [[task delay]|]; [|done].
  by apply run_task_keeps.
Qed.

Lemma callback_keeps (entries : list IntersectionObserverEntry) (w0 w : World) :
  (∀ e, obs (with_classList (DOMTokenList.add "loaded") e) = obs e) →
  keeps obs dflt w0 w →
  keeps obs dflt w0 (LazyLoader.callback entries w).
Proof.
  intros Hcls Hk. unfold LazyLoader.callback.
  apply keeps_foldl; [|done]. intros w' entry Hk'.
  unfold LazyLoader.on_entry. destruct (isIntersecting entry); [|done].
  unfold_ops. by apply keeps_with_observer, keeps_update.
Qed.

Lemma ProductInteractions_new_keeps (w0 w : World) :
  keeps obs dflt w0 w → keeps obs dflt w0 (ProductInteractions.new w).
Proof.
  intros Hk. unfold ProductInteractions.new, ProductInteractions.init.
  apply keeps_foldl; [|done]. intros w' card Hk'.
  unfold ProductInteractions.init_card. unfold_ops.
  by do 3 apply keeps_with_listeners.
Qed.

Lemma SmoothScroll_new_keeps (w0 w : World) :
  keeps obs dflt w0 w → keeps obs dflt w0 (SmoothScroll.new w).
Proof.
  intros Hk. unfold SmoothScroll.new, SmoothScroll.init.
  apply keeps_foldl; [|done]. intros w' anchor Hk'.
  unfold_ops. by apply keeps_with_listeners.
Qed.

Lemma LazyLoader_new_keeps (w0 w : World) :
  keeps obs dflt w0 w → keeps obs dflt w0 (LazyLoader.new w).2.
Proof.
  intros Hk. unfold LazyLoader.new, LazyLoader.init. simpl.
  destruct (hasIntersectionObserver (browser w)); [|done].
  apply keeps_foldl; [|by apply keeps_with_observer].
  intros w' img Hk'. unfold_ops. by apply keeps_with_observer.
Qed.

(** Every closure of the script but the one of a favorite button
    leaves alone what is blind to the theme attribute, inline styles,
    the class ['ripple'] and the parent of a node, and is [dflt] on a
    new element. *)
Lemma run_handler_keeps_other (h : Handler) (e : Event) (p : Page.t) (w0 : World) :
  (∀ btn index, h ≠ OnFavoriteClick btn index) →
  ignores_theme_attribute obs → ignores_style obs → ignores_parent obs →
  (∀ e, obs (with_classList (DOMTokenList.add "ripple") e) = obs e) →
  obs (mkElement "span" None [] ∅ ∅ "" None) = dflt →
  keeps obs dflt w0 (Page.world p) →
  keeps obs dflt w0 (Page.world (Page.run_handler h e p).2).
Proof.
  intros Hh Hattr Hst Hpar Hrip Hnew Hk.
  destruct h as [|btn index|card|card|card|anchor]; simpl.
  - destruct (Page.themeManager p) as [tm|]; [|done].
    pose proof (toggleTheme_keeps obs dflt tm w0 (Page.world p) Hattr
                  (λ v e, Hst _ e) Hk) as Ht.
    destruct (ThemeManager.toggleTheme tm (Page.world p)) as [[tm' w'] c].
    simpl in *. by destruct c.
  - by destruct (Hh btn index).
  - by rewrite onCardHover_eq.
  - by rewrite onCardHover_eq.
  - destruct (closest _ _ _); [done|].
    pose proof (onCardClick_keeps card w0 (Page.world p) Hst Hpar Hrip Hnew Hk)
      as Ht.
    destruct (ProductInteractions.onCardClick card (Page.world p)) as [w' c].
    simpl in *. by destruct c.
  - pose proof (onAnchorClick_keeps anchor e w0 (Page.world p) Hk) as Ht.
    destruct (SmoothScroll.onAnchorClick anchor e (Page.world p)) as [[e' w'] c].
    simpl in *. by destruct c.
Qed.

(** The closure of a favorite button changes the class ['active'] and
    the [animation] style only. *)
Lemma run_handler_keeps (h : Handler) (e : Event) (p : Page.t) (w0 : World) :
  ignores_theme_attribute obs → ignores_style obs → ignores_parent obs →
  ignores_class obs "active" →
  (∀ e, obs (with_classList (DOMTokenList.add "ripple") e) = obs e) →
  obs (mkElement "span" None [] ∅ ∅ "" None) = dflt →
  keeps obs dflt w0 (Page.world p) →
  keeps obs dflt w0 (Page.world (Page.run_handler h e p).2).
Proof.
  intros Hattr Hst Hpar Hact Hrip Hnew Hk.
  destruct h as [|btn index|card|card|card|anchor];
    try (apply run_handler_keeps_other; done).
  simpl. destruct (Page.favoriteManager p) as [fm|]; [|done].
  pose proof (toggleFavorite_keeps obs dflt fm btn index w0 (Page.world p)
                (λ v e, Hst _ e) Hact Hk) as Ht.
  destruct (FavoriteManager.toggleFavorite fm btn index (Page.world p))
    as [[fm' w'] c].
  simpl in *. by destruct c.
Qed.

End more_operation_frames.

(** ** The page: what the closures leave alone *)

Section page_frames.
Import Page.

Lemma world_report {X} (c : Completion X) (p : t) : world (report c p) = world p.
Proof. by destruct c. Qed.

Lemma toggleTheme_rest (this : ThemeManager.t) (w : World) :
  let w' := (ThemeManager.toggleTheme this w).1.2 in
  listeners w' = listeners w ∧ observer w' = observer w ∧ browser w' = browser w.
Proof. unfold ThemeManager.toggleTheme. simpl. by destruct (ThemeManager.themeToggle this). Qed.

Lemma toggleFavorite_rest (this : FavoriteManager.t) (button index : nat) (w : World) :
  let result := FavoriteManager.toggleFavorite this button index w in
  let w' := result.1.2 in
  listeners w' = listeners w ∧ observer w' = observer w ∧ browser w' = browser w ∧
  localStorage w' =
    match result.2 with
    | Return _ =>
        <[FavoriteManager.FAVORITES_KEY :=
            JSON.stringify (FavoriteManager.favorites result.1.1)]> (localStorage w)
    | Throw _ => localStorage w
    end.
Proof.
  unfold FavoriteManager.toggleFavorite.
  destruct (classList_contains button "active" w).
  - by destruct (FavoriteManager.filter_out _ _).
  - by destruct (FavoriteManager.push _ _).
Qed.

Lemma onCardClick_rest (card : nat) (w : World) :
  let w' := (ProductInteractions.onCardClick card w).1 in
  listeners w' = listeners w ∧ observer w' = observer w ∧ browser w' = browser w ∧
  localStorage w' = localStorage w.
Proof.
  unfold ProductInteractions.onCardClick.
  by destruct (element_querySelector _ _ _).
Qed.

Lemma onAnchorClick_rest (anchor : nat) (e : Event) (w : World) :
  let w' := (SmoothScroll.onAnchorClick anchor e w).1.2 in
  listeners w' = listeners w ∧ observer w' = observer w ∧ browser w' = browser w ∧
  localStorage w' = localStorage w ∧ document w' = document w.
Proof.
  unfold SmoothScroll.onAnchorClick.
  by destruct (selectorEngine _ _ _) as [[el|]|].
Qed.

Lemma run_handler_rest (h : Handler) (e : Event) (p : t) :
  let w' := world (run_handler h e p).2 in
  listeners w' = listeners (world p) ∧ observer w' = observer (world p) ∧
  browser w' = browser (world p).
Proof.
  destruct h as [|btn index|card|card|card|anchor]; simpl.
  - destruct (themeManager p) as [tm|]; [|done].
    pose proof (toggleTheme_rest tm (world p)) as H.
    destruct (ThemeManager.toggleTheme tm (world p)) as [[tm' w'] c].
    simpl in *. by rewrite world_report.
  - destruct (favoriteManager p) as [fm|]; [|done].
    pose proof (toggleFavorite_rest fm btn index (world p)) as H.
    destruct (FavoriteManager.toggleFavorite fm btn index (world p))
      as [[fm' w'] c].
    simpl in *. rewrite world_report. simpl. tauto.
  - by rewrite onCardHover_eq.
  - by rewrite onCardHover_eq.
  - destruct (closest _ _ _); [done|].
    pose proof (onCardClick_rest card (world p)) as H.
    destruct (ProductInteractions.onCardClick card (world p)) as [w' c].
    simpl in *. rewrite world_report. simpl. tauto.
  - pose proof (onAnchorClick_rest anchor e (world p)) as H.
    destruct (SmoothScroll.onAnchorClick anchor e (world p)) as [[e' w'] c].
    simpl in *. rewrite world_report. simpl. tauto.
Qed.

Lemma run_handler_ev_type (h : Handler) (e : Event) (p : t) :
  ev_type (run_handler h e p).1 = ev_type e.
Proof.
  destruct h as [|btn index|card|card|card|anchor]; simpl; try done.
  - destruct (themeManager p); [|done].
    by destruct (ThemeManager.toggleTheme _ _) as [[? ?] ?].
  - destruct (favoriteManager p); [|done].
    by destruct (FavoriteManager.toggleFavorite _ _ _ _) as [[? ?] ?].
  - destruct (closest _ _ _); [done|].
    by destruct (ProductInteractions.onCardClick _ _).
  - unfold SmoothScroll.onAnchorClick.
    by destruct (selectorEngine _ _ _) as [[el|]|].
Qed.

Lemma elem_of_listeners_at (h : Handler) (ty : EventType) (r : nat) (w : World) :
  h ∈ listeners_at ty r w ↔ mkListener r ty h ∈ listeners w.
Proof.
  unfold listeners_at. rewrite list_elem_of_fmap. split.
  - intros ([r' ty' h'] & -> & Hin). apply list_elem_of_filter in Hin.
    simpl in Hin. by destruct Hin as [[-> ->] Hin].
  - intros Hin. exists (mkListener r ty h). split; [done|].
    apply list_elem_of_filter. done.
Qed.

Section invariants.
Context (I : t → Prop) (L : list Listener) (ty : EventType).
Hypothesis I_listeners : ∀ p, I p → listeners (world p) = L.
Hypothesis I_handler :
  ∀ h e p r, mkListener r ty h ∈ L → I p → I (run_handler h e p).2.

Lemma run_handlers_invariant (hs : list Handler) (r : nat) (e : Event) (p : t) :
  (∀ h, h ∈ hs → mkListener r ty h ∈ L) →
  I p →
  I (run_handlers hs e p).2 ∧ ev_type (run_handlers hs e p).1 = ev_type e.
Proof.
  revert e p. induction hs as [|h hs IH]; intros e p Hin Hp; [done|].
  unfold run_handlers. simpl.
  pose proof (I_handler h e p r (Hin h (list_elem_of_here _ _)) Hp) as Hp'.
  pose proof (run_handler_ev_type h e p) as Hty.
  destruct (run_handler h e p) as [e' p']. simpl in *.
  destruct (IH e' p') as [HI Hev]; [|done|].
  { intros h' Hh'. apply Hin. by apply list_elem_of_further. }
  unfold run_handlers in HI, Hev. split; [done|]. by rewrite Hev.
Qed.

Lemma propagate_invariant (path : list nat) (e : Event) (p : t) :
  ev_type e = ty → I p → I (propagate path e p).2.
Proof.
  revert e p. induction path as [|r path IH]; intros e p Hty Hp; [done|].
  simpl. destruct (propagationStopped e); [done|].
  destruct (run_handlers_invariant (listeners_at (ev_type e) r (world p)) r e p)
    as [HI Hev]; [|done|].
  { intros h Hh. apply elem_of_listeners_at in Hh.
    by rewrite (I_listeners p Hp), Hty in Hh. }
  destruct (run_handlers _ e p) as [e' p']. simpl in *.
  apply IH; [congruence|done].
Qed.

Lemma dispatchEvent_invariant (tgt : nat) (p : t) :
  I p → I (dispatchEvent ty tgt p).2.
Proof. intros Hp. unfold dispatchEvent. by apply propagate_invariant. Qed.

End invariants.

Lemma fire_rest (k : nat) (w : World) :
  listeners (fire k w) = listeners w ∧ observer (fire k w) = observer w ∧
  browser (fire k w) = browser w ∧ localStorage (fire k w) = localStorage w.
Proof.
  unfold fire. destruct (timers w !! k) as [[task delay]|]; [|done].
  by destruct task.
Qed.

Lemma callback_rest (entries : list IntersectionObserverEntry) (w : World) :
  listeners (LazyLoader.callback entries w) = listeners w ∧
  browser (LazyLoader.callback entries w) = browser w ∧
  localStorage (LazyLoader.callback entries w) = localStorage w.
Proof.
  unfold LazyLoader.callback. revert w.
  induction entries as [|en entries IH]; intros w; [done|].
  simpl. destruct (IH (LazyLoader.on_entry en w)) as (-> & -> & ->).
  unfold LazyLoader.on_entry. by destruct (isIntersecting en).
Qed.

(** A property of pages that every closure, every timer callback and
    the observer callback preserve holds after every sequence of
    inputs. *)
Lemma run_invariant (I : t → Prop) (L : list Listener) :
  (∀ p, I p → listeners (world p) = L) →
  (∀ h e p r ty, mkListener r ty h ∈ L → I p → I (run_handler h e p).2) →
  (∀ k p, I p → I (with_world (fire k) p)) →
  (∀ entries p, I p → I (with_world (deliver entries) p)) →
  ∀ inputs p, I p → I (run p inputs).
Proof.
  intros HL Hh Hfire Hdel inputs.
  induction inputs as [|i inputs IH]; intros p Hp; [done|].
  simpl. apply IH.
  destruct i as [r|r|r|k|entries]; simpl;
    try (apply (dispatchEvent_invariant I L); eauto); auto.
Qed.

End page_frames.

(** ** Loading the page *)

Section loading.
Import Page.

Lemma listeners_wf_nil : listeners_wf [].
Proof. intros l Hl. by apply elem_of_nil in Hl. Qed.

Lemma listeners_wf_add (ls : list Listener) (r : nat) (h : Handler) :
  listeners_wf ls → listeners_wf (ls ++ [mkListener r (registered_for h) h]).
Proof.
  intros Hwf l [Hl | ->%list_elem_of_singleton]%elem_of_app; [auto|done].
Qed.

Lemma ThemeManager_new_rest (w : World) :
  let theme := or_default (ThemeManager.getStoredTheme w) "light" in
  let w' := (ThemeManager.new w).2 in
  ThemeManager.currentTheme (ThemeManager.new w).1 = theme ∧
  localStorage w' = <[ThemeManager.THEME_KEY := theme]> (localStorage w) ∧
  (listeners_wf (listeners w) → listeners_wf (listeners w')) ∧
  observer w' = observer w ∧ browser w' = browser w.
Proof.
  unfold ThemeManager.new, ThemeManager.init. simpl.
  destruct (getElementById _ _) as [el|]; simpl; repeat split; try done.
  intros Hwf. by apply (listeners_wf_add _ el OnThemeToggleClick).
Qed.

Lemma init_button_rest (this : FavoriteManager.t) (btn index : nat) (w : World) :
  let w' := (FavoriteManager.init_button this btn index w).1 in
  localStorage w' = localStorage w ∧
  (listeners_wf (listeners w) → listeners_wf (listeners w')) ∧
  observer w' = observer w ∧ browser w' = browser w.
Proof.
  unfold FavoriteManager.init_button.
  destruct (FavoriteManager.includes _ _) as [isFavorite|]; [|done].
  simpl. repeat split; try by destruct isFavorite.
  intros Hw. apply (listeners_wf_add _ btn (OnFavoriteClick btn index)).
  by destruct isFavorite.
Qed.

Lemma forEach_button_rest (this : FavoriteManager.t) (btns : list nat)
    (index : nat) (w : World) :
  let w' := (FavoriteManager.forEach_button this btns index w).1 in
  localStorage w' = localStorage w ∧
  (listeners_wf (listeners w) → listeners_wf (listeners w')) ∧
  observer w' = observer w ∧ browser w' = browser w.
Proof.
  revert index w. induction btns as [|btn btns IH]; intros index w; [done|].
  simpl.
  pose proof (init_button_rest this btn index w) as H1.
  destruct (FavoriteManager.init_button this btn index w) as [w1 [[]|e]];
    [|exact H1].
  simpl in H1. destruct H1 as (Hs1 & Hwf1 & Ho1 & Hb1).
  destruct (IH (S index) w1) as (-> & Hwf & -> & ->).
  repeat split; auto.
Qed.

Lemma FavoriteManager_new_rest (w : World) :
  let w' := (FavoriteManager.new w).1 in
  localStorage w' = localStorage w ∧
  (listeners_wf (listeners w) → listeners_wf (listeners w')) ∧
  observer w' = observer w ∧ browser w' = browser w.
Proof.
  unfold FavoriteManager.new.
  destruct (FavoriteManager.getStoredFavorites w) as [favs|]; [|done].
  unfold FavoriteManager.init.
  pose proof (forEach_button_rest (FavoriteManager.mk favs)
                (document_querySelectorAll (has_class "favorite-btn") (document w))
                0 w) as H.
  by destruct (FavoriteManager.forEach_button _ _ _ _) as [w1 [[]|e]].
Qed.

Lemma ProductInteractions_new_rest (w : World) :
  let w' := ProductInteractions.new w in
  localStorage w' = localStorage w ∧
  (listeners_wf (listeners w) → listeners_wf (listeners w')) ∧
  observer w' = observer w ∧ browser w' = browser w ∧ document w' = document w.
Proof.
  unfold ProductInteractions.new, ProductInteractions.init.
  generalize (document_querySelectorAll (has_class "product-card") (document w)).
  intros cards. revert w. induction cards as [|card cards IH]; intros w; [done|].
  simpl. destruct (IH (ProductInteractions.init_card card w))
    as (-> & Hwf & -> & -> & ->).
  repeat split; try done. intros Hw. apply Hwf. simpl.
  apply (listeners_wf_add _ card (OnCardClick card)).
  apply (listeners_wf_add _ card (OnCardMouseLeave card)).
  by apply (listeners_wf_add _ card (OnCardMouseEnter card)).
Qed.

Lemma SmoothScroll_new_rest (w : World) :
  let w' := SmoothScroll.new w in
  localStorage w' = localStorage w ∧
  (listeners_wf (listeners w) → listeners_wf (listeners w')) ∧
  observer w' = observer w ∧ browser w' = browser w ∧ document w' = document w.
Proof.
  unfold SmoothScroll.new, SmoothScroll.init.
  generalize (document_querySelectorAll is_hash_anchor (document w)).
  intros anchors. revert w. induction anchors as [|a anchors IH]; intros w; [done|].
  simpl. destruct (IH (addEventListener a click (OnAnchorClick a) w))
    as (-> & Hwf & -> & -> & ->).
  repeat split; try done. intros Hw. apply Hwf. simpl.
  by apply (listeners_wf_add _ a (OnAnchorClick a)).
Qed.

Lemma observe_all_rest (imgs : list nat) (w : World) :
  let w' := foldl (λ w img, LazyLoader.observe img w) w imgs in
  localStorage w' = localStorage w ∧ listeners w' = listeners w ∧
  browser w' = browser w ∧ document w' = document w.
Proof.
  revert w. induction imgs as [|img imgs IH]; intros w; [done|].
  simpl. by destruct (IH (LazyLoader.observe img w)) as (-> & -> & -> & ->).
Qed.

Lemma LazyLoader_new_rest (w : World) :
  let w' := (LazyLoader.new w).2 in
  localStorage w' = localStorage w ∧ listeners w' = listeners w ∧
  browser w' = browser w ∧ document w' = document w.
Proof.
  unfold LazyLoader.new, LazyLoader.init. simpl.
  destruct (hasIntersectionObserver (browser w)); [|done].
  by destruct (observe_all_rest
              (document_querySelectorAll (has_class "product-image") (document w))
              (with_observer (λ _, Some []) w)) as (-> & -> & -> & ->).
Qed.

Lemma load_rest (b : Browser) (markup : Document) (storage : gmap string string) :
  let theme := or_default (storage !! ThemeManager.THEME_KEY) "light" in
  let p := load b markup storage in
  localStorage (world p) = <[ThemeManager.THEME_KEY := theme]> storage ∧
  listeners_wf (listeners (world p)) ∧
  browser (world p) = b ∧
  ∃ tm, themeManager p = Some tm ∧ ThemeManager.currentTheme tm = theme.
Proof.
  unfold load, onDOMContentLoaded.
  set (w0 := mkWorld storage markup [] [] [] [] None b).
  destruct (ThemeManager_new_rest w0) as (Htheme & Hsto1 & Hwf1 & _ & Hb1).
  destruct (ThemeManager.new w0) as [tm w1]. simpl in Htheme, Hsto1, Hwf1, Hb1.
  specialize (Hwf1 listeners_wf_nil).
  destruct (FavoriteManager_new_rest w1) as (Hsto2 & Hwf2 & _ & Hb2).
  destruct (FavoriteManager.new w1) as [w2 [fm|exn]];
    cbn -[LazyLoader.new ProductInteractions.new SmoothScroll.new] in *.
  - destruct (ProductInteractions_new_rest w2) as (Hsto3 & Hwf3 & _ & Hb3 & _).
    destruct (SmoothScroll_new_rest (ProductInteractions.new w2))
      as (Hsto4 & Hwf4 & _ & Hb4 & _).
    destruct (LazyLoader_new_rest (SmoothScroll.new (ProductInteractions.new w2)))
      as (Hsto5 & Hls5 & Hb5 & _).
    destruct (LazyLoader.new _) as [ll w5]. simpl in *.
    rewrite Hsto5, Hsto4, Hsto3, Hsto2, Hsto1, Hls5, Hb5, Hb4, Hb3, Hb2, Hb1.
    repeat split; eauto.
  - rewrite Hsto2, Hsto1, Hb2, Hb1. repeat split; eauto.
Qed.

End loading.

(** ** The persisted state *)

Section persisted_state.
Import Page.




Lemma toggleTheme_storage (this : ThemeManager.t) (w : World) :
  localStorage (ThemeManager.toggleTheme this w).1.2 =
  <[ThemeManager.THEME_KEY :=
      ThemeManager.currentTheme (ThemeManager.toggleTheme this w).1.1]>
    (localStorage w).
Proof.
  unfold ThemeManager.toggleTheme. simpl.
  by destruct (ThemeManager.themeToggle this).
Qed.


Lemma new_on_array (w : World) (items : list Item) :
  FavoriteManager.getStoredFavorites w = Return (JSArray items) →
  (FavoriteManager.new w).2 = Return (FavoriteManager.mk (JSArray items)).
Proof.
  intros Hget. unfold FavoriteManager.new, FavoriteManager.init. rewrite Hget.
  pose proof (forEach_button_array items
                (document_querySelectorAll (has_class "favorite-btn") (document w))
                0 w) as Hret.
  by destruct (FavoriteManager.forEach_button _ _ _ _) as [w1 [[]|e]].
Qed.



(** The closures registered for [mouseenter] and [mouseleave] change
    nothing. *)
Lemma run_handler_hover (h : Handler) (e : Event) (p : t) :
  registered_for h ≠ click → (run_handler h e p).2 = p.
Proof.
  destruct h as [|btn index|card|card|card|anchor];
    cbn -[ProductInteractions.onCardHover]; try done;
    intros _; unfold with_world; rewrite onCardHover_eq; by destruct p.
Qed.





(** C10.  Building a [ThemeManager] always stores the theme it
    applies, whatever the storage holds: the theme is the stored one
    or, when that is missing or empty, ['light']; afterwards it is the
    [currentTheme], the [data-theme] of the document and the item
    ['styleweave-theme'], and no other item has changed.  With nothing
    stored the theme is ['light'], and a world with empty storage is
    left with exactly that item.  So every page load, before any
    input, has written the theme item; loaded with empty storage the
    page holds exactly ['styleweave-theme'] = ['light']. *)
Theorem construction_persists_theme :
  (∀ w,
     let theme := or_default (ThemeManager.getStoredTheme w) "light" in
     theme ≠ "" ∧
     ThemeManager.currentTheme (ThemeManager.new w).1 = theme ∧
     getAttribute 0 "data-theme" (ThemeManager.new w).2 = Some theme ∧
     ThemeManager.getStoredTheme (ThemeManager.new w).2 = Some theme ∧
     localStorage (ThemeManager.new w).2 =
       <[ThemeManager.THEME_KEY := theme]> (localStorage w)) ∧
  (∀ w,
     ThemeManager.getStoredTheme w = None →
     ThemeManager.currentTheme (ThemeManager.new w).1 = "light" ∧
     getAttribute 0 "data-theme" (ThemeManager.new w).2 = Some "light" ∧
     ThemeManager.getStoredTheme (ThemeManager.new w).2 = Some "light") ∧
  (∀ w,
     localStorage w = ∅ →
     localStorage (ThemeManager.new w).2 = {[ThemeManager.THEME_KEY := "light"]}) ∧
  (∀ b markup storage,
     localStorage (world (load b markup storage)) =
       <[ThemeManager.THEME_KEY :=
           or_default (storage !! ThemeManager.THEME_KEY) "light"]> storage) ∧
  (∀ b markup,
     localStorage (world (load b markup ∅)) = {[ThemeManager.THEME_KEY := "light"]}).
Proof.
  assert (∀ w,
     let theme := or_default (ThemeManager.getStoredTheme w) "light" in
     theme ≠ "" ∧
     ThemeManager.currentTheme (ThemeManager.new w).1 = theme ∧
     getAttribute 0 "data-theme" (ThemeManager.new w).2 = Some theme ∧
     ThemeManager.getStoredTheme (ThemeManager.new w).2 = Some theme ∧
     localStorage (ThemeManager.new w).2 =
       <[ThemeManager.THEME_KEY := theme]> (localStorage w)) as Hany.
  { intros w theme.
    destruct (new_applies w) as (Hcur & Hattr & Hsto).
    destruct (ThemeManager_new_rest w) as (_ & Hnew & _).
    split; [|done].
    unfold theme, or_default.
    destruct (ThemeManager.getStoredTheme w) as [s|]; [|done].
    by case_decide. }
  split; [exact Hany|]. split; [|split; [|split]].
  - intros w Hnone. destruct (Hany w) as (_ & Hcur & Hattr & Hsto & _).
    rewrite Hnone in *. done.
  - intros w Hempty. destruct (Hany w) as (_ & _ & _ & _ & Hnew).
    rewrite Hnew. unfold ThemeManager.getStoredTheme. by rewrite Hempty.
  - intros b markup storage. by destruct (load_rest b markup storage) as (Hload & _).
  - intros b markup. by destruct (load_rest b markup ∅) as (Hload & _).
Qed.

Lemma construction_persists_theme_witness :
  ThemeManager.getStoredTheme Sample.fresh = None ∧
  localStorage Sample.fresh = ∅ ∧
  ThemeManager.currentTheme (ThemeManager.new Sample.fresh).1 = "light" ∧
  getAttribute 0 "data-theme" (ThemeManager.new Sample.fresh).2 = Some "light" ∧
  ThemeManager.getStoredTheme (ThemeManager.new Sample.fresh).2 = Some "light" ∧
  localStorage (ThemeManager.new Sample.fresh).2 =
    {[ThemeManager.THEME_KEY := "light"]}.
Proof.
  destruct construction_persists_theme as (_ & Hnone & Hempty & _).
  split; [reflexivity|]. split; [reflexivity|].
  destruct (Hnone Sample.fresh eq_refl) as (Hcur & Hattr & Hsto).
  split; [exact Hcur|]. split; [exact Hattr|]. split; [exact Hsto|].
  exact (Hempty Sample.fresh eq_refl).
Defined.

End persisted_state.

(** ** No shared state *)

Section no_shared_state.





Lemma favorites_frame_toggleFavorite (this : FavoriteManager.t)
    (button index : nat) (w : World) :
  favorites_frame w (FavoriteManager.toggleFavorite this button index w).1.2.
Proof.
  split; [|split].
  - intros k Hk.
    destruct (toggleFavorite_rest this button index w) as (_ & _ & _ & ->).
    destruct (FavoriteManager.toggleFavorite this button index w).2; [|done].
    by rewrite lookup_insert_ne.
  - apply toggleFavorite_keeps; [done|done|apply keeps_refl].
  - intros prop Hprop. apply toggleFavorite_keeps; [|done|apply keeps_refl].
    intros value e. apply style_of_assign. congruence.
Qed.








End no_shared_state.

(** ** LazyLoader *)

Section lazy_loading.
Import Page.

Lemma on_entry_loaded_mono (en : IntersectionObserverEntry) (w : World) (r : nat) :
  loaded w r = true → loaded (LazyLoader.on_entry en w) r = true.
Proof.
  intros Hl. unfold LazyLoader.on_entry. destruct (isIntersecting en); [|done].
  unfold loaded, LazyLoader.unobserve.
  change (classList_contains r "loaded" (with_observer ?f ?w'))
    with (classList_contains r "loaded" w').
  rewrite classList_contains_add. unfold loaded in Hl. rewrite Hl.
  apply orb_true_r.
Qed.

Lemma on_entry_loaded_gain (en : IntersectionObserverEntry) (w : World) (r : nat) :
  loaded (LazyLoader.on_entry en w) r = true →
  loaded w r = true ∨ en = mkEntry r true.
Proof.
  unfold LazyLoader.on_entry. destruct en as [tgt [|]]; simpl; [|auto].
  unfold loaded, LazyLoader.unobserve.
  change (classList_contains r "loaded" (with_observer ?f ?w'))
    with (classList_contains r "loaded" w').
  rewrite classList_contains_add.
  intros [[[-> _]%bool_decide_eq_true _]%andb_true_iff | Hl]%orb_true_iff; auto.
Qed.

Lemma callback_loaded_mono (entries : list IntersectionObserverEntry) (w : World)
    (r : nat) :
  loaded w r = true → loaded (LazyLoader.callback entries w) r = true.
Proof.
  unfold LazyLoader.callback. revert w.
  induction entries as [|en entries IH]; intros w Hl; [done|].
  simpl. by apply IH, on_entry_loaded_mono.
Qed.

Lemma callback_loaded_gain (entries : list IntersectionObserverEntry) (w : World)
    (r : nat) :
  loaded (LazyLoader.callback entries w) r = true →
  loaded w r = true ∨ mkEntry r true ∈ entries.
Proof.
  unfold LazyLoader.callback. revert w.
  induction entries as [|en entries IH]; intros w Hl; [by left|].
  simpl in Hl. apply IH in Hl as [Hl|Hin].
  - apply on_entry_loaded_gain in Hl as [Hl| ->]; [by left|].
    right. apply list_elem_of_here.
  - right. by apply list_elem_of_further.
Qed.

(** Nothing after the load starts observing: [unobserve] is the only
    operation on the observer that a callback performs. *)
Lemma on_entry_observed (en : IntersectionObserverEntry) (w : World) (r : nat) :
  observed (LazyLoader.on_entry en w) r →
  observed w r ∧ ¬ (isIntersecting en = true ∧ entry_target en = r).
Proof.
  unfold LazyLoader.on_entry, observed.
  destruct (isIntersecting en); simpl.
  - destruct (observer w) as [targets|]; simpl.
    + intros (? & [= <-] & [Hne Hin]%list_elem_of_filter).
      split; [eauto|]. intros [_ Heq]. done.
    + by intros (? & [=] & _).
  - intros H. split; [done|]. by intros [? _].
Qed.

Lemma callback_observed (entries : list IntersectionObserverEntry) (w : World)
    (r : nat) :
  observed (LazyLoader.callback entries w) r →
  observed w r ∧ mkEntry r true ∉ entries.
Proof.
  unfold LazyLoader.callback. revert w.
  induction entries as [|en entries IH]; intros w Hobs.
  - split; [done|]. apply not_elem_of_nil.
  - simpl in Hobs. apply IH in Hobs as [Hobs Hnin].
    apply on_entry_observed in Hobs as [Hobs Hne].
    split; [done|]. intros [Heq|Hin]%elem_of_cons; [|done].
    subst en. by apply Hne.
Qed.

Lemma step_keeps_loaded (p : t) (i : Input) :
  (∀ entries, i ≠ Intersection entries) →
  keeps (has_class "loaded") false (world p) (world (step p i)).
Proof.
  intros Hi.
  assert (∀ ty r,
            keeps (has_class "loaded") false (world p) (world (dispatchEvent ty r p).2))
    as Hdispatch.
  { intros ty r.
    apply (dispatchEvent_invariant
             (λ q, keeps (has_class "loaded") false (world p) (world q) ∧
                   listeners (world q) = listeners (world p))
             (listeners (world p)) ty); [by intros q [_ ?]| |].
    - intros h e q r' _ [Hk HL]. split.
      + apply run_handler_keeps; try done.
        * split; intros e0; [by apply has_class_add | by apply has_class_remove].
        * intros e0. by apply has_class_add.
      + destruct (run_handler_rest h e q) as (-> & _). done.
    - split; [apply keeps_refl|done]. }
  destruct i as [r|r|r|k|entries]; simpl; try apply Hdispatch.
  - apply fire_keeps; [done|done|apply keeps_refl].
  - by destruct (Hi entries).
Qed.

Lemma step_observed (p : t) (i : Input) (r : nat) :
  observed (world (step p i)) r → observed (world p) r.
Proof.
  assert (∀ ty tgt, observer (world (dispatchEvent ty tgt p).2) = observer (world p))
    as Hdispatch.
  { intros ty tgt.
    apply (dispatchEvent_invariant
             (λ q, observer (world q) = observer (world p) ∧
                   listeners (world q) = listeners (world p))
             (listeners (world p)) ty); [by intros q [_ ?]| |done].
    intros h e q r' _ [Ho HL].
    destruct (run_handler_rest h e q) as (-> & -> & _). done. }
  unfold observed.
  destruct i as [tgt|tgt|tgt|k|entries]; simpl; rewrite ?Hdispatch; try done.
  - by destruct (fire_rest k (world p)) as (_ & -> & _).
  - intros Hobs. by apply callback_observed in Hobs as [Hobs _].
Qed.




Lemma load_keeps_loaded (b : Browser) (markup : Document)
    (storage : gmap string string) (r : nat) :
  loaded (world (load b markup storage)) r = matching (has_class "loaded") markup r.
Proof.
  unfold loaded. rewrite classList_contains_observe.
  set (w0 := mkWorld storage markup [] [] [] [] None b).
  assert (keeps (has_class "loaded") false w0 (world (load b markup storage))) as Hk.
  { unfold load, onDOMContentLoaded. fold w0.
    pose proof (ThemeManager_new_keeps (has_class "loaded") false w0 w0
                  (λ _ _, eq_refl) (keeps_refl _ _ _)) as Hk1.
    destruct (ThemeManager.new w0) as [tm w1]. simpl in Hk1.
    assert (ignores_class (has_class "loaded") "active") as Hact.
    { split; intros e; [by apply has_class_add | by apply has_class_remove]. }
    pose proof (FavoriteManager_new_keeps (has_class "loaded") false w0 w1 Hact Hk1)
      as Hk2.
    destruct (FavoriteManager.new w1) as [w2 [fm|exn]];
      cbn -[LazyLoader.new ProductInteractions.new SmoothScroll.new] in *; [|done].
    pose proof (LazyLoader_new_keeps (has_class "loaded") false w0 _
                  (SmoothScroll_new_keeps _ _ _ _
                     (ProductInteractions_new_keeps _ _ _ _ Hk2))) as Hk5.
    destruct (LazyLoader.new _) as [ll w5]. simpl in *.
    unfold_ops. by apply keeps_with_console. }
  rewrite Hk. unfold observe, matching. simpl. by destruct (node markup r).
Qed.

End lazy_loading.

Section lazy_loading_claim.
Import Page.




End lazy_loading_claim.

(** ** SmoothScroll *)

Section query_stability.
Context (d d' : Document).
Hypothesis Hskel : ∀ r, skeleton <$> node d' r = skeleton <$> node d r.

Lemma same_size : size_of d' = size_of d.
Proof.
  assert (∀ x r, is_Some (node x r) ↔ r < size_of x) as Hlt.
  { intros x [|i]; unfold size_of; simpl.
    - split; [lia|eauto].
    - rewrite lookup_lt_is_Some. lia. }
  assert (∀ r, r < size_of d' ↔ r < size_of d) as Hiff.
  { intros r. rewrite <- !Hlt, <- !(fmap_is_Some skeleton). by rewrite Hskel. }
  destruct (decide (size_of d' < size_of d)) as [H1|H1].
  - apply Hiff in H1. lia.
  - destruct (decide (size_of d < size_of d')) as [H2|H2]; [|lia].
    apply Hiff in H2. lia.
Qed.

Lemma same_parent (r : nat) :
  (node d' r ≫= parentNode) = (node d r ≫= parentNode).
Proof.
  pose proof (Hskel r) as H.
  destruct (node d' r) as [e'|], (node d r) as [e|]; simpl in *; try done.
  unfold skeleton in H. congruence.
Qed.

Lemma same_ancestors_upto (fuel r : nat) :
  ancestors_upto fuel d' r = ancestors_upto fuel d r.
Proof.
  revert r. induction fuel as [|fuel IH]; intros r; [done|].
  simpl. pose proof (same_parent r) as H.
  destruct (node d' r) as [e'|], (node d r) as [e|]; simpl in *.
  - rewrite H. destruct (parentNode e); [|done]. by rewrite IH.
  - by rewrite H.
  - by rewrite <- H.
  - done.
Qed.

Lemma same_connected (r : nat) : isConnected d' r = isConnected d r.
Proof.
  unfold isConnected, is_descendant, ancestors.
  by rewrite same_size, same_ancestors_upto.
Qed.

Lemma same_hash_anchors (r : nat) :
  matching is_hash_anchor d' r = matching is_hash_anchor d r.
Proof.
  unfold matching. pose proof (Hskel r) as H.
  destruct (node d' r) as [e'|], (node d r) as [e|]; simpl in *; try done.
  unfold skeleton, href_of in H. unfold is_hash_anchor.
  injection H as Hname _ _ Hhref. by rewrite Hname, Hhref.
Qed.

Lemma same_query (sel : Element → bool) :
  (∀ r, matching sel d' r = matching sel d r) →
  document_querySelectorAll sel d' = document_querySelectorAll sel d.
Proof.
  intros Hsel. unfold document_querySelectorAll. rewrite same_size.
  apply list_filter_iff. intros r.
  by rewrite same_connected, Hsel.
Qed.

Lemma same_anchor_query :
  document_querySelectorAll is_hash_anchor d' =
  document_querySelectorAll is_hash_anchor d.
Proof. apply same_query, same_hash_anchors. Qed.

End query_stability.

Section smooth_scroll.
Import Page.

Lemma keeps_skeleton (w w' : World) :
  keeps (λ e, Some (skeleton e)) None w w' →
  ∀ r, skeleton <$> node (document w') r = skeleton <$> node (document w) r.
Proof.
  intros Hk r. specialize (Hk r). unfold observe in Hk.
  by destruct (node (document w') r), (node (document w) r).
Qed.

Lemma SmoothScroll_init_listeners (w : World) :
  listeners (SmoothScroll.init w) =
  listeners w ++
  ((λ a, mkListener a click (OnAnchorClick a)) <$>
     document_querySelectorAll is_hash_anchor (document w)).
Proof.
  unfold SmoothScroll.init.
  generalize (document_querySelectorAll is_hash_anchor (document w)).
  intros anchors. revert w.
  induction anchors as [|a anchors IH]; intros w; simpl.
  - by rewrite app_nil_r.
  - rewrite IH. simpl. by rewrite <- app_assoc.
Qed.

(** After a load that completes, every anchor of the markup whose
    [href] starts with [#] has the click listener of [SmoothScroll]. *)
Lemma load_registers_anchors (b : Browser) (markup : Document)
    (storage : gmap string string) (a : nat) :
  uncaught (load b markup storage) = [] →
  a ∈ document_querySelectorAll is_hash_anchor markup →
  mkListener a click (OnAnchorClick a) ∈ listeners (world (load b markup storage)).
Proof.
  unfold load, onDOMContentLoaded.
  set (w0 := mkWorld storage markup [] [] [] [] None b).
  set (obs := λ e, Some (skeleton e)).
  assert (ignores_theme_attribute obs) as Hattr.
  { intros value e. unfold obs. f_equal. by apply skeleton_insert. }
  pose proof (ThemeManager_new_keeps obs None w0 w0 Hattr (keeps_refl _ _ _)) as Hk1.
  destruct (ThemeManager.new w0) as [tm w1]. simpl in Hk1.
  pose proof (FavoriteManager_new_keeps obs None w0 w1
                (conj (λ _, eq_refl) (λ _, eq_refl)) Hk1) as Hk2.
  destruct (FavoriteManager.new w1) as [w2 [fm|exn]];
    cbn -[LazyLoader.new ProductInteractions.new SmoothScroll.new] in *; [|done].
  intros _ Hin.
  pose proof (ProductInteractions_new_keeps obs None w0 w2 Hk2) as Hk3.
  pose proof (keeps_skeleton _ _ Hk3) as Hsk.
  destruct (LazyLoader_new_rest (SmoothScroll.new (ProductInteractions.new w2)))
    as (_ & Hls & _).
  destruct (LazyLoader.new _) as [ll w5]. simpl in *.
  rewrite Hls. unfold SmoothScroll.new. rewrite SmoothScroll_init_listeners.
  apply elem_of_app. right. apply list_elem_of_fmap. exists a. split; [done|].
  by rewrite (same_anchor_query markup _ Hsk).
Qed.

Lemma run_listeners (inputs : list Input) (p : t) :
  listeners (world (run p inputs)) = listeners (world p).
Proof.
  apply (run_invariant (λ q, listeners (world q) = listeners (world p))
           (listeners (world p))); try done.
  - intros h e q r ty _ HL. by destruct (run_handler_rest h e q) as (-> & _).
  - intros k q HL. simpl. by destruct (fire_rest k (world q)) as (-> & _).
  - intros entries q HL. simpl. unfold deliver.
    by destruct (callback_rest (delivered entries (world q)) (world q)) as (-> & _).
Qed.

Lemma run_handler_prevented (h : Handler) (e : Event) (p : t) :
  defaultPrevented e = true ∨ (∃ a, h = OnAnchorClick a) →
  defaultPrevented (run_handler h e p).1 = true.
Proof.
  intros Hpre.
  destruct h as [|btn index|card|card|card|anchor]; simpl.
  1-5: destruct Hpre as [Hpre|[a [=]]].
  - destruct (themeManager p); [|done].
    by destruct (ThemeManager.toggleTheme _ _) as [[? ?] ?].
  - destruct (favoriteManager p); [|done].
    by destruct (FavoriteManager.toggleFavorite _ _ _ _) as [[? ?] []].
  - done.
  - done.
  - destruct (closest _ _ _); [done|].
    by destruct (ProductInteractions.onCardClick _ _).
  - unfold SmoothScroll.onAnchorClick.
    by destruct (selectorEngine _ _ _) as [[el|]|].
Qed.

Lemma run_handlers_prevented (hs : list Handler) (e : Event) (p : t) :
  defaultPrevented e = true ∨ (∃ a, OnAnchorClick a ∈ hs) →
  defaultPrevented (run_handlers hs e p).1 = true.
Proof.
  unfold run_handlers. revert e p.
  induction hs as [|h hs IH]; intros e p Hpre; simpl.
  - destruct Hpre as [Hpre|[a Hin]]; [done|]. by apply elem_of_nil in Hin.
  - destruct (run_handler h e p) as [e' p'] eqn:Hrun. apply IH.
    destruct Hpre as [Hpre|[a [Heq|Hin]%elem_of_cons]].
    + left. pose proof (run_handler_prevented h e p (or_introl Hpre)) as H.
      by rewrite Hrun in H.
    + left. subst h.
      pose proof (run_handler_prevented (OnAnchorClick a) e p
                    (or_intror (ex_intro _ a eq_refl))) as H.
      by rewrite Hrun in H.
    + right. eauto.
Qed.

Lemma propagate_prevented (path : list nat) (e : Event) (p : t) :
  defaultPrevented e = true →
  defaultPrevented (propagate path e p).1 = true.
Proof.
  revert e p. induction path as [|r path IH]; intros e p Hpre; [done|].
  simpl. destruct (propagationStopped e); [done|].
  pose proof (run_handlers_prevented (listeners_at (ev_type e) r (world p)) e p
                (or_introl Hpre)) as H.
  destruct (run_handlers _ e p) as [e' p']. by apply IH.
Qed.

End smooth_scroll.

(** ** The favorites on the page *)

Section listeners_of_the_load.
Import Page.
Context (Q : Listener → Prop).

Lemma ThemeManager_new_listeners (w : World) :
  (∀ el, Q (mkListener el click OnThemeToggleClick)) →
  Forall Q (listeners w) → Forall Q (listeners (ThemeManager.new w).2).
Proof.
  intros HQ Hw. unfold ThemeManager.new, ThemeManager.init. simpl.
  destruct (getElementById _ _) as [el|]; simpl; [|done].
  apply Forall_app. split; [done|]. by apply Forall_singleton.
Qed.

Lemma forEach_button_listeners (this : FavoriteManager.t) (pre rest : list nat)
    (w : World) :
  (∀ i btn, (pre ++ rest) !! i = Some btn →
            Q (mkListener btn click (OnFavoriteClick btn i))) →
  Forall Q (listeners w) →
  Forall Q (listeners (FavoriteManager.forEach_button this rest (length pre) w).1).
Proof.
  revert pre w. induction rest as [|btn rest IH]; intros pre w HQ Hw; [done|].
  simpl. unfold FavoriteManager.init_button.
  destruct (FavoriteManager.includes _ _) as [isFavorite|]; [|done].
  specialize (IH (pre ++ [btn])).
  rewrite length_app, Nat.add_1_r in IH. apply IH.
  - intros i b. rewrite <- app_assoc. apply HQ.
  - unfold addEventListener. simpl.
    apply Forall_app. split.
    + by destruct isFavorite.
    + apply Forall_singleton, HQ. by rewrite list_lookup_middle.
Qed.

Lemma FavoriteManager_new_listeners (w : World) :
  (∀ i btn,
     document_querySelectorAll (has_class "favorite-btn") (document w) !! i = Some btn →
     Q (mkListener btn click (OnFavoriteClick btn i))) →
  Forall Q (listeners w) → Forall Q (listeners (FavoriteManager.new w).1).
Proof.
  intros HQ Hw. unfold FavoriteManager.new.
  destruct (FavoriteManager.getStoredFavorites w) as [favs|]; [|done].
  unfold FavoriteManager.init.
  pose proof (forEach_button_listeners (FavoriteManager.mk favs) []
                (document_querySelectorAll (has_class "favorite-btn") (document w))
                w HQ Hw) as H.
  by destruct (FavoriteManager.forEach_button _ _ _ _) as [w1 [[]|e]].
Qed.

Lemma ProductInteractions_new_listeners (w : World) :
  (∀ card, Q (mkListener card mouseenter (OnCardMouseEnter card)) ∧
           Q (mkListener card mouseleave (OnCardMouseLeave card)) ∧
           Q (mkListener card click (OnCardClick card))) →
  Forall Q (listeners w) → Forall Q (listeners (ProductInteractions.new w)).
Proof.
  intros HQ. unfold ProductInteractions.new, ProductInteractions.init.
  generalize (document_querySelectorAll (has_class "product-card") (document w)).
  intros cards. revert w. induction cards as [|card cards IH]; intros w Hw; [done|].
  simpl. apply IH. unfold ProductInteractions.init_card, addEventListener. simpl.
  destruct (HQ card) as (Henter & Hleave & Hclick).
  repeat (apply Forall_app; split);
    first [assumption | apply Forall_singleton; assumption].
Qed.

Lemma SmoothScroll_new_listeners (w : World) :
  (∀ a, Q (mkListener a click (OnAnchorClick a))) →
  Forall Q (listeners w) → Forall Q (listeners (SmoothScroll.new w)).
Proof.
  intros HQ Hw. unfold SmoothScroll.new. rewrite SmoothScroll_init_listeners.
  apply Forall_app. split; [done|].
  apply Forall_fmap, Forall_forall. intros a _. apply HQ.
Qed.

End listeners_of_the_load.

Section favorites_on_the_page.
Import Page.
Context (b : Browser) (markup : Document) (storage : gmap string string).

Local Abbreviation btns :=
  (document_querySelectorAll (has_class "favorite-btn") markup).
Local Abbreviation w0 := (mkWorld storage markup [] [] [] [] None b).

Lemma keeps_matching (c : string) (w w' : World) :
  keeps (has_class c) false w w' →
  ∀ r, matching (has_class c) (document w') r = matching (has_class c) (document w) r.
Proof.
  intros Hk r. specialize (Hk r). unfold observe in Hk. unfold matching.
  by destruct (node (document w') r), (node (document w) r).
Qed.

Lemma ThemeManager_new_buttons :
  document_querySelectorAll (has_class "favorite-btn")
    (document (ThemeManager.new w0).2) = btns.
Proof.
  apply same_query.
  - apply (keeps_skeleton w0). apply ThemeManager_new_keeps; [|apply keeps_refl].
    intros value e. f_equal. by apply skeleton_insert.
  - apply (keeps_matching _ w0).
    apply ThemeManager_new_keeps; [done|apply keeps_refl].
Qed.

Lemma load_favorite_listeners :
  Forall (favorite_listener btns) (listeners (world (load b markup storage))).
Proof.
  unfold load, onDOMContentLoaded.
  pose proof (ThemeManager_new_listeners (favorite_listener btns) w0) as H1.
  pose proof ThemeManager_new_buttons as Hbtns.
  destruct (ThemeManager.new w0) as [tm w1]. simpl in H1, Hbtns.
  assert (Forall (favorite_listener btns) (listeners w1)) as Hw1.
  { apply H1; [by intros el btn i|apply Forall_nil_2]. }
  assert (Forall (favorite_listener btns) (listeners (FavoriteManager.new w1).1))
    as Hw2.
  { apply FavoriteManager_new_listeners; [|done]. rewrite Hbtns.
    intros i btn Hlook btn' i' [= <- <-]. done. }
  destruct (FavoriteManager.new w1) as [w2 [fm|exn]];
    cbn -[LazyLoader.new ProductInteractions.new SmoothScroll.new] in *; [|done].
  destruct (LazyLoader_new_rest (SmoothScroll.new (ProductInteractions.new w2)))
    as (_ & Hls & _).
  destruct (LazyLoader.new _) as [ll w5]. simpl in *. rewrite Hls.
  apply SmoothScroll_new_listeners; [by intros a btn i|].
  apply ProductInteractions_new_listeners; [by intros card; repeat split|].
  done.
Qed.

Lemma consistent_transfer (fm : FavoriteManager.t) (w w' : World) :
  consistent btns (fm, w) →
  (∀ r, classList_contains r "active" w' = classList_contains r "active" w) →
  (∀ btn, btn ∈ btns → is_Some (node (document w') btn)) →
  localStorage w' !! FavoriteManager.FAVORITES_KEY =
    localStorage w !! FavoriteManager.FAVORITES_KEY →
  consistent btns (fm, w').
Proof.
  intros (l & Hfav & Hnd & Hiff & _ & Hsto) Hact Hnodes Hkey.
  exists l. simpl in *.
  split; [done|]. split; [done|]. split; [|split; [done|by rewrite Hkey]].
  intros i. rewrite Hiff. by setoid_rewrite Hact.
Qed.

Lemma class_gives_node (c : string) (w : World) (r : nat) :
  classList_contains r c w = true → is_Some (node (document w) r).
Proof.
  unfold classList_contains, matching. destruct (node (document w) r); [eauto|done].
Qed.

Lemma invariant_transfer (L : list Listener) (q q' : t) :
  favorites_invariant btns L q →
  listeners (world q') = listeners (world q) →
  favoriteManager q' = favoriteManager q →
  localStorage (world q') !! FavoriteManager.FAVORITES_KEY =
    localStorage (world q) !! FavoriteManager.FAVORITES_KEY →
  (∀ c, c ≠ "ripple" → c ≠ "loaded" →
        keeps (has_class c) false (world q) (world q')) →
  favorites_invariant btns L q'.
Proof.
  intros (HL & Hbtn & fm & Hfm & Hcons) Hls Hmgr Hkey Hk.
  unfold favorites_invariant.
  assert (∀ c r, c ≠ "ripple" → c ≠ "loaded" →
            classList_contains r c (world q') = classList_contains r c (world q))
    as Hcls.
  { intros c r ? ?. rewrite !classList_contains_observe. by apply Hk. }
  split; [congruence|]. split.
  - intros btn Hin. rewrite Hcls by done. auto.
  - exists fm. split; [congruence|].
    apply (consistent_transfer fm (world q)); try done.
    + intros r. by apply Hcls.
    + intros btn Hin. apply (class_gives_node "favorite-btn").
      rewrite Hcls by done. auto.
Qed.

Lemma run_handler_other_manager (h : Handler) (e : Event) (q : t) :
  (∀ btn index, h ≠ OnFavoriteClick btn index) →
  favoriteManager (run_handler h e q).2 = favoriteManager q ∧
  localStorage (world (run_handler h e q).2) !! FavoriteManager.FAVORITES_KEY =
    localStorage (world q) !! FavoriteManager.FAVORITES_KEY.
Proof.
  intros Hh. destruct h as [|btn index|card|card|card|anchor]; simpl.
  - destruct (themeManager q) as [tm|]; [|done].
    pose proof (toggleTheme_storage tm (world q)) as Hsto.
    destruct (ThemeManager.toggleTheme tm (world q)) as [[tm' w'] c].
    simpl in *. destruct c; simpl; rewrite Hsto; by rewrite lookup_insert_ne.
  - by destruct (Hh btn index).
  - by rewrite onCardHover_eq.
  - by rewrite onCardHover_eq.
  - destruct (closest _ _ _); [done|].
    pose proof (onCardClick_rest card (world q)) as (_ & _ & _ & Hsto).
    destruct (ProductInteractions.onCardClick card (world q)) as [w' c].
    simpl in *. destruct c; simpl; by rewrite Hsto.
  - pose proof (onAnchorClick_rest anchor e (world q)) as (_ & _ & _ & Hsto & _).
    destruct (SmoothScroll.onAnchorClick anchor e (world q)) as [[e' w'] c].
    simpl in *. destruct c; simpl; by rewrite Hsto.
Qed.

Lemma run_handler_invariant (L : list Listener) (h : Handler) (e : Event) (q : t)
    (r : nat) (ty : EventType) :
  Forall (favorite_listener btns) L →
  mkListener r ty h ∈ L →
  favorites_invariant btns L q →
  favorites_invariant btns L (run_handler h e q).2.
Proof.
  intros HL Hin Hinv.
  assert ((∃ btn index, h = OnFavoriteClick btn index) ∨
          (∀ btn index, h ≠ OnFavoriteClick btn index))
    as [(btn & index & ->)|Hh].
  { destruct h as [|btn index|card|card|card|anchor];
      try (right; by intros ? ?); left; eauto. }
  - assert (btns !! index = Some btn) as Hlook.
    { rewrite Forall_forall in HL. by apply (HL _ Hin). }
    destruct Hinv as (Hls & Hbtn & fm & Hfm & Hcons). simpl. rewrite Hfm.
    pose proof (click_consistent btns (fm, world q) index
                  (querySelectorAll_NoDup _ _) Hcons) as Hclick.
    unfold FavoriteManager.click in Hclick. rewrite Hlook in Hclick. simpl in Hclick.
    pose proof (toggleFavorite_rest fm btn index (world q)) as (Hls' & _).
    assert (ignores_class (has_class "favorite-btn") "active") as Hign.
    { split; intros e0; [by apply has_class_add | by apply has_class_remove]. }
    pose proof (toggleFavorite_keeps (has_class "favorite-btn") false fm btn index
                  (world q) (world q) (λ _ _, eq_refl) Hign
                  (keeps_refl _ _ _)) as Hk.
    assert ((FavoriteManager.toggleFavorite fm btn index (world q)).2 = Return ())
      as Hret.
    { apply toggleFavorite_returns. destruct Hcons as (l & Hl & _).
      simpl in Hl. rewrite Hl. unfold indices. eauto. }
    destruct (FavoriteManager.toggleFavorite fm btn index (world q))
      as [[fm' w'] c].
    simpl in *. subst c. unfold favorites_invariant. simpl.
    split; [congruence|]. split; [|eauto].
    intros x Hx. rewrite classList_contains_observe, Hk,
      <- classList_contains_observe. auto.
  - destruct (run_handler_other_manager h e q Hh) as [Hmgr Hkey].
    destruct (run_handler_rest h e q) as (Hls & _).
    apply (invariant_transfer L q); try done.
    intros c Hc1 Hc2. apply run_handler_keeps_other; try done.
    intros e0. by apply has_class_add.
Qed.

Lemma favorite_buttons_match (btn : nat) :
  btn ∈ btns → matching (has_class "favorite-btn") markup btn = true.
Proof.
  intros [Hm _]%list_elem_of_filter.
  apply Is_true_true in Hm. by apply andb_true_iff in Hm as [_ Hm].
Qed.

(** On a page whose markup marks no favorite button active and whose
    storage holds no favorites yet, the load completes and leaves a
    consistent state. *)
Lemma load_invariant :
  storage !! FavoriteManager.FAVORITES_KEY = None →
  (∀ btn, btn ∈ btns → matching (has_class "active") markup btn = false) →
  favorites_invariant btns (listeners (world (load b markup storage)))
    (load b markup storage) ∧
  uncaught (load b markup storage) = [].
Proof.
  intros Hempty Hinactive.
  destruct (load_rest b markup storage) as (Hsto & _).
  unfold load, onDOMContentLoaded in *.
  assert (∀ c, keeps (has_class c) false w0 (ThemeManager.new w0).2) as Hk1.
  { intros c. apply ThemeManager_new_keeps; [done|apply keeps_refl]. }
  destruct (ThemeManager_new_rest w0) as (_ & Hsto1 & _).
  pose proof ThemeManager_new_buttons as Hbtns.
  destruct (ThemeManager.new w0) as [tm w1]. simpl in Hk1, Hsto1, Hbtns.
  destruct (new_consistent w1) as [Hnew Hcons].
  { rewrite Hsto1. by rewrite lookup_insert_ne. }
  { intros btn Hin. rewrite Hbtns in Hin. unfold classList_contains.
    rewrite (keeps_matching "active" w0 w1 (Hk1 _)). by apply Hinactive. }
  rewrite Hbtns in Hcons.
  assert (ignores_class (has_class "favorite-btn") "active") as Hign.
  { split; intros e0; [by apply has_class_add | by apply has_class_remove]. }
  pose proof (FavoriteManager_new_keeps (has_class "favorite-btn") false w1 w1
                Hign (keeps_refl _ _ _)) as Hk2.
  pose proof (FavoriteManager_new_rest w1) as (Hsto2 & _).
  rewrite Hnew in Hsto, Hk2, Hsto2 |- *.
  set (w2 := (FavoriteManager.init (FavoriteManager.mk (indices [])) w1).1) in *.
  cbn -[LazyLoader.new ProductInteractions.new SmoothScroll.new] in *.
  destruct (ProductInteractions_new_rest w2) as (_ & _ & _ & _ & Hdoc3).
  destruct (SmoothScroll_new_rest (ProductInteractions.new w2))
    as (_ & _ & _ & _ & Hdoc4).
  destruct (LazyLoader_new_rest (SmoothScroll.new (ProductInteractions.new w2)))
    as (_ & _ & _ & Hdoc5).
  destruct (LazyLoader.new _) as [ll w5]. simpl in *.
  assert (document w5 = document w2) as Hdoc by congruence.
  assert (∀ c r, classList_contains r c w5 = classList_contains r c w2) as Hcls.
  { intros c r. unfold classList_contains. by rewrite Hdoc. }
  split; [|done].
  split; [done|]. split.
  - intros btn Hin. unfold classList_contains. simpl. rewrite Hdoc.
    rewrite (keeps_matching "favorite-btn" w1 w2 Hk2).
    rewrite (keeps_matching "favorite-btn" w0 w1 (Hk1 _)).
    by apply favorite_buttons_match.
  - exists (FavoriteManager.mk (indices [])). split; [done|].
    apply (consistent_transfer _ w2); try done.
    + intros r. unfold classList_contains. simpl. by rewrite Hdoc.
    + intros btn Hin. simpl. rewrite Hdoc.
      destruct Hcons as (l & _ & _ & _ & Hnodes & _). by apply Hnodes.
    + simpl. rewrite Hsto, Hsto2, Hsto1. done.
Qed.

Lemma run_keeps_invariant (L : list Listener) (p : t) (inputs : list Input) :
  Forall (favorite_listener btns) L →
  favorites_invariant btns L p → favorites_invariant btns L (run p inputs).
Proof.
  intros HL Hp.
  apply (run_invariant (favorites_invariant btns L) L); try done.
  - by intros p' (? & _).
  - intros h e p' r ty Hin Hp'.
    by apply (run_handler_invariant L h e p' r ty HL).
  - intros k p' Hp'. destruct (fire_rest k (world p')) as (Hls & _ & _ & Hsto).
    apply (invariant_transfer L p'); simpl; try done; [by rewrite Hsto|].
    intros c _ _. apply fire_keeps; [done|done|apply keeps_refl].
  - intros entries p' Hp'. unfold deliver.
    destruct (callback_rest (delivered entries (world p')) (world p'))
      as (Hls & _ & Hsto).
    apply (invariant_transfer L p'); simpl; try done; [by rewrite Hsto|].
    intros c _ Hc. apply callback_keeps; [|apply keeps_refl].
    intros e0. by apply has_class_add.
Qed.

(** On such a page, after every sequence of inputs (clicks anywhere,
    pointer moves, timers, intersection reports) the [FavoriteManager]
    holds an array of positions without duplicates, the positions of
    the active favorite buttons, and it is what the storage reads
    back. *)
Lemma favorites_on_the_page (inputs : list Input) :
  storage !! FavoriteManager.FAVORITES_KEY = None →
  (∀ btn, btn ∈ btns → matching (has_class "active") markup btn = false) →
  let q := run (load b markup storage) inputs in
  ∃ l, favoriteManager q = Some (FavoriteManager.mk (indices l)) ∧
       NoDup l ∧
       (∀ i, i ∈ l ↔
             ∃ btn, btns !! i = Some btn ∧
                    classList_contains btn "active" (world q) = true) ∧
       FavoriteManager.getStoredFavorites (world q) = Return (indices l).
Proof.
  intros Hempty Hinactive q.
  destruct (load_invariant Hempty Hinactive) as [Hload _].
  destruct (run_keeps_invariant _ _ inputs load_favorite_listeners Hload)
    as (_ & _ & fm & Hfm & Hcons).
  pose proof (consistent_read _ _ Hcons) as Hread.
  destruct Hcons as (l & Hl & Hnd & Hiff & _ & _).
  destruct fm as [v]. simpl in *. subst v.
  exists l. split; [done|]. split; [exact Hnd|]. split; [exact Hiff|exact Hread].
Qed.

End favorites_on_the_page.

Section toggling.

Local Abbreviation times i clicks := (length (filter (λ c : nat, c = i) clicks)).

(** A call through the listener of position [index] inverts whether
    the array holds [index] and leaves the other positions as they
    are. *)
Lemma click_membership (btns : list nat) (st : FavoriteManager.t * World)
    (index : nat) (l : list nat) :
  NoDup btns → consistent btns st →
  FavoriteManager.favorites st.1 = indices l →
  ∃ l', FavoriteManager.favorites (FavoriteManager.click btns st index).1 =
          indices l' ∧
        ∀ i, i ∈ l' ↔
             if decide (i = index ∧ index < length btns) then i ∉ l else i ∈ l.
Proof.
  intros Hbtns (l0 & Hl0 & _ & Hiff & _ & _) Hl.
  assert (l0 = l) as -> by (apply indices_inj; congruence).
  unfold FavoriteManager.click.
  destruct (btns !! index) as [button|] eqn:Hbtn.
  - assert (index < length btns) as Hlt by (by eapply lookup_lt_Some).
    destruct st as [this w]. simpl in *.
    exists (if classList_contains button "active" w
            then filter (λ id, id ≠ index) l else l ++ [index]).
    split; [by apply toggleFavorite_favorites|].
    assert (index ∈ l ↔ classList_contains button "active" w = true) as Hindex.
    { rewrite Hiff. split.
      - intros (btn & Hlook & Hon). congruence.
      - intros Hon. eauto. }
    intros i. destruct (classList_contains button "active" w).
    + rewrite list_elem_of_filter. case_decide as Hi.
      * destruct Hi as [-> _]. split; [by intros [? _]|].
        intros Hnot. destruct Hnot. by apply Hindex.
      * split; [by intros [_ ?]|]. intros Hin. split; [|done].
        intros ->. apply Hi. done.
    + rewrite elem_of_app, list_elem_of_singleton. case_decide as Hi.
      * destruct Hi as [-> _]. split; [|by right].
        intros _ Hin. apply Hindex in Hin. done.
      * split; [|by left]. intros [Hin| ->]; [done|]. destruct Hi. done.
  - exists l. split; [done|]. intros i.
    rewrite decide_False; [done|].
    intros [_ Hlt]. apply lookup_ge_None_1 in Hbtn. lia.
Qed.

(** After a sequence of calls the array holds the positions that were
    toggled an odd number of times. *)
Lemma clicks_parity (btns : list nat) (st0 : FavoriteManager.t * World)
    (clicks : list nat) :
  NoDup btns → consistent btns st0 →
  FavoriteManager.favorites st0.1 = indices [] →
  ∃ l, FavoriteManager.favorites (foldl (FavoriteManager.click btns) st0 clicks).1 =
         indices l ∧
       ∀ i, i ∈ l ↔ i < length btns ∧ Nat.odd (times i clicks) = true.
Proof.
  intros Hbtns Hst0 Hnil.
  induction clicks as [|c clicks IH] using rev_ind.
  - exists []. split; [done|]. intros i. split; [by intros ?%elem_of_nil|].
    by intros [_ ?].
  - destruct IH as (l & Hl & Hiff). rewrite foldl_app. simpl.
    destruct (click_membership btns _ c l Hbtns
                (clicks_consistent btns clicks st0 Hbtns Hst0) Hl)
      as (l' & Hl' & Hiff').
    exists l'. split; [done|]. intros i. rewrite Hiff'.
    rewrite filter_app, length_app, filter_cons, filter_nil.
    destruct (decide (i = c ∧ c < length btns)) as [[-> Hlt]|Hi].
    + rewrite decide_True by done. simpl.
      rewrite Nat.add_1_r, Nat.odd_succ, <- Nat.negb_odd, Hiff.
      destruct (Nat.odd (times c clicks)); simpl.
      * split; [|by intros [_ ?]]. intros Hnot. destruct Hnot. done.
      * split; [done|]. intros _ [_ ?]. done.
    + rewrite Hiff. destruct (decide (c = i)) as [->|Hne].
      * assert (¬ i < length btns) by (intros ?; by apply Hi).
        split; intros [? _]; done.
      * simpl. by rewrite Nat.add_0_r.
Qed.

End toggling.

(** C2 (as amended).  Take a page whose markup marks no favorite
    button active and a storage that holds no favorites yet.  (1) The
    [FavoriteManager] is built on it without an exception, and after
    every sequence of [toggleFavorite] calls made through the click
    listeners of the buttons: [this.favorites] is an array of
    positions that holds no position twice; it holds position [i]
    exactly when the button at position [i] carries the class
    ['active'], which is exactly when [i] is the position of a button
    that was toggled an odd number of times; and the array read back
    from ['styleweave-favorites'] is this array.  (2) The first three
    hold for the page as a whole after every sequence of inputs,
    whatever the other components do in between.  (3) Every call of
    [toggleFavorite] on an array returns, and every call that returns
    ends by writing the array to storage. *)
Theorem favorites_form_a_set (b : Browser) (markup : Document)
    (storage : gmap string string) (clicks : list nat) (inputs : list Page.Input) :
  let btns := document_querySelectorAll (has_class "favorite-btn") markup in
  storage !! FavoriteManager.FAVORITES_KEY = None →
  (∀ btn, btn ∈ btns → matching (has_class "active") markup btn = false) →
  (∃ this0 w1 l,
     FavoriteManager.new (mkWorld storage markup [] [] [] [] None b) =
       (w1, Return this0) ∧
     let st := foldl (FavoriteManager.click btns) (this0, w1) clicks in
     FavoriteManager.favorites st.1 = indices l ∧
     NoDup l ∧
     (∀ i, i ∈ l ↔
           ∃ btn, btns !! i = Some btn ∧
                  classList_contains btn "active" st.2 = true) ∧
     (∀ i, i ∈ l ↔
           i < length btns ∧
           Nat.odd (length (filter (λ c, c = i) clicks)) = true) ∧
     FavoriteManager.getStoredFavorites st.2 = Return (indices l)) ∧
  (let q := Page.run (Page.load b markup storage) inputs in
   ∃ l, Page.favoriteManager q = Some (FavoriteManager.mk (indices l)) ∧
        NoDup l ∧
        (∀ i, i ∈ l ↔
              ∃ btn, btns !! i = Some btn ∧
                     classList_contains btn "active" (Page.world q) = true) ∧
        FavoriteManager.getStoredFavorites (Page.world q) = Return (indices l)) ∧
  (∀ this btn i w,
     ((∃ items, FavoriteManager.favorites this = JSArray items) →
      (FavoriteManager.toggleFavorite this btn i w).2 = Return ()) ∧
     ((FavoriteManager.toggleFavorite this btn i w).2 = Return () →
      localStorage (FavoriteManager.toggleFavorite this btn i w).1.2
        !! FavoriteManager.FAVORITES_KEY =
      Some (JSON.stringify
              (FavoriteManager.favorites
                 (FavoriteManager.toggleFavorite this btn i w).1.1)))).
Proof.
  intros btns Hempty Hinactive. split; [|split].
  - set (w0 := mkWorld storage markup [] [] [] [] None b).
    destruct (new_consistent w0) as [Hnew Hcons]; [done|done|].
    fold btns in Hcons.
    pose proof (querySelectorAll_NoDup (has_class "favorite-btn") markup) as Hbtns.
    fold btns in Hbtns.
    destruct (clicks_parity btns _ clicks Hbtns Hcons eq_refl) as (l & Hl & Hodd).
    pose proof (clicks_consistent btns clicks _ Hbtns Hcons) as Hfinal.
    pose proof (consistent_read _ _ Hfinal) as Hread.
    destruct Hfinal as (l' & Hl' & Hnd & Hiff & _ & _).
    assert (l' = l) as -> by (apply indices_inj; congruence).
    eexists _, _, l. split; [exact Hnew|]. simpl.
    split; [exact Hl|]. split; [exact Hnd|]. split; [exact Hiff|].
    split; [exact Hodd|]. by rewrite Hread, Hl.
  - by apply favorites_on_the_page.
  - intros this btn i w. split.
    + apply toggleFavorite_returns.
    + apply toggleFavorite_stored.
Qed.

Lemma favorites_form_a_set_witness :
  let btns := [9; 13; 16] in
  let q := Page.run (Page.load Sample.chrome Sample.markup ∅)
             [Page.Click 9; Page.Click 16; Page.Click 2; Page.Click 9; Page.Click 13] in
  (∃ this0 w1 l,
     FavoriteManager.new Sample.fresh = (w1, Return this0) ∧
     let st := foldl (FavoriteManager.click btns) (this0, w1) [0; 2; 0; 1] in
     FavoriteManager.favorites st.1 = indices l ∧
     NoDup l ∧
     (∀ i, i ∈ l ↔
           ∃ btn, btns !! i = Some btn ∧
                  classList_contains btn "active" st.2 = true) ∧
     (∀ i, i ∈ l ↔
           i < length btns ∧
           Nat.odd (length (filter (λ c, c = i) [0; 2; 0; 1])) = true) ∧
     FavoriteManager.getStoredFavorites st.2 = Return (indices l)) ∧
  (∃ l, Page.favoriteManager q = Some (FavoriteManager.mk (indices l)) ∧
        NoDup l ∧
        (∀ i, i ∈ l ↔
              ∃ btn, btns !! i = Some btn ∧
                     classList_contains btn "active" (Page.world q) = true) ∧
        FavoriteManager.getStoredFavorites (Page.world q) = Return (indices l)) ∧
  Page.favoriteManager q = Some (FavoriteManager.mk (indices [2; 1])) ∧
  localStorage (Page.world q) !! FavoriteManager.FAVORITES_KEY = Some "[2,1]".
Proof.
  intros btns q.
  destruct (favorites_form_a_set Sample.chrome Sample.markup ∅ [0; 2; 0; 1]
              [Page.Click 9; Page.Click 16; Page.Click 2; Page.Click 9; Page.Click 13])
    as (Hcalls & Hpage & _).
  - reflexivity.
  - intros btn Hin. change (btn ∈ [9; 13; 16]) in Hin.
    repeat (apply elem_of_cons in Hin as [->|Hin]; [reflexivity|]).
    by apply elem_of_nil in Hin.
  - split; [exact Hcalls|]. split; [exact Hpage|]. split; by vm_compute.
Defined.

(** C2 as stated fails on a page whose markup marks a favorite button
    active: with empty storage the first button of the sample page
    carries ['active'] from the start, [init] adds classes only for
    stored positions, and after a click on the second button the
    stored array is [[1]] while the button at position 0 is active. *)
Lemma active_in_markup_not_stored :
  let btns := document_querySelectorAll (has_class "favorite-btn") Sample.preselected in
  let q := Page.run (Page.load Sample.chrome Sample.preselected ∅) [Page.Click 13] in
  btns = [9; 13; 16] ∧
  Page.uncaught q = [] ∧
  Page.favoriteManager q = Some (FavoriteManager.mk (indices [1])) ∧
  localStorage (Page.world q) !! FavoriteManager.FAVORITES_KEY = Some "[1]" ∧
  classList_contains 9 "active" (Page.world q) = true ∧
  ¬ (∀ i l,
       Page.favoriteManager q = Some (FavoriteManager.mk (indices l)) →
       (i ∈ l ↔ ∃ btn, btns !! i = Some btn ∧
                       classList_contains btn "active" (Page.world q) = true)).
Proof.
  intros btns q.
  assert (btns = [9; 13; 16]) as Hbtns by (by vm_compute).
  assert (Page.favoriteManager q = Some (FavoriteManager.mk (indices [1]))) as Hfm
    by (by vm_compute).
  assert (classList_contains 9 "active" (Page.world q) = true) as Hact
    by (by vm_compute).
  split; [exact Hbtns|]. split; [by vm_compute|]. split; [exact Hfm|].
  split; [by vm_compute|]. split; [exact Hact|].
  intros Hclaim. destruct (Hclaim 0 [1] Hfm) as [_ Hin].
  assert (0 ∈ [1]) as Habs.
  { apply Hin. exists 9. rewrite Hbtns. split; [done|exact Hact]. }
  apply elem_of_cons in Habs as [?|?%elem_of_nil]; done.
Qed.

(** * Further properties of the code *)

(** ** Storing and restoring the favorites *)

Section favorites_storage.
Import FavoriteManager.

(** X1.  The array written by [setStoredFavorites] is the array
    [getStoredFavorites] reads, so a [FavoriteManager] built on that
    storage starts with the same array; the same holds after every
    [toggleFavorite], which ends by storing. *)
Theorem stored_favorites_round_trip :
  (∀ l w,
     getStoredFavorites (setStoredFavorites (mk (indices l)) w) =
     Return (indices l)) ∧
  (∀ l w,
     (new (setStoredFavorites (mk (indices l)) w)).2 = Return (mk (indices l))) ∧
  (∀ l btn index w,
     (toggleFavorite (mk (indices l)) btn index w).2 = Return () ∧
     getStoredFavorites (toggleFavorite (mk (indices l)) btn index w).1.2 =
     Return (favorites (toggleFavorite (mk (indices l)) btn index w).1.1)).
Proof.
  assert (∀ l w, localStorage w !! FAVORITES_KEY = Some (JSON.stringify (indices l)) →
                 getStoredFavorites w = Return (indices l)) as Hread.
  { intros l w Hsto. unfold getStoredFavorites. rewrite Hsto.
    rewrite decide_False by apply stringify_nonempty.
    by rewrite parse_stringify. }
  split; [|split].
  - intros l w. apply Hread. apply lookup_insert_eq.
  - intros l w. apply new_on_array, Hread, lookup_insert_eq.
  - intros l btn index w.
    assert ((toggleFavorite (mk (indices l)) btn index w).2 = Return ()) as Hret.
    { apply toggleFavorite_returns. unfold indices. simpl. eauto. }
    split; [done|].
    pose proof (toggleFavorite_stored (mk (indices l)) btn index w Hret) as Hsto.
    rewrite (toggleFavorite_favorites (mk (indices l)) l) in Hsto |- * by done.
    by apply Hread.
Qed.

Lemma forEach_button_active (items : list Item) (rest : list nat) (index : nat)
    (w : World) (r : nat) :
  (∀ btn, btn ∈ rest → is_Some (node (document w) btn)) →
  classList_contains r "active" (forEach_button (mk (JSArray items)) rest index w).1
    = true ↔
  classList_contains r "active" w = true ∨
  ∃ k, rest !! k = Some r ∧ Index (index + k) ∈ items.
Proof.
  revert index w. induction rest as [|btn rest IH]; intros index w Hnodes.
  - simpl. split; [auto|]. intros [H|(k & Hk & _)]; [done|].
    by rewrite lookup_nil in Hk.
  - simpl. rewrite IH.
    + change (classList_contains r "active" (addEventListener ?a ?b ?c ?w'))
        with (classList_contains r "active" w').
      assert (is_Some (node (document w) btn)) as Hbtn.
      { apply Hnodes, list_elem_of_here. }
      case_bool_decide as Hin.
      * rewrite classList_contains_add, orb_true_iff, andb_true_iff,
          !bool_decide_eq_true.
        split.
        -- intros [[[[-> _] _] | H] | (k & Hk & Hfav)].
           ++ right. exists 0. split; [done|]. by rewrite Nat.add_0_r.
           ++ by left.
           ++ right. exists (S k). split; [done|].
              by rewrite Nat.add_succ_r.
        -- intros [H | ([|k] & Hk & Hfav)].
           ++ left. by right.
           ++ injection Hk as ->. left. left. done.
           ++ right. exists k. split; [done|]. by rewrite Nat.add_succ_r in Hfav.
      * split.
        -- intros [H | (k & Hk & Hfav)]; [by left|].
           right. exists (S k). split; [done|]. by rewrite Nat.add_succ_r.
        -- intros [H | ([|k] & Hk & Hfav)]; [by left| |].
           ++ rewrite Nat.add_0_r in Hfav. done.
           ++ right. exists k. split; [done|]. by rewrite Nat.add_succ_r in Hfav.
    + intros b Hb.
      change (document (addEventListener ?a ?b ?c ?w')) with (document w').
      case_bool_decide.
      * unfold classList_add. simpl. apply node_is_Some_update.
        apply Hnodes. by apply list_elem_of_further.
      * apply Hnodes. by apply list_elem_of_further.
Qed.

(** X2.  [init] restores the stored state: on an array it runs to its
    end, and afterwards an element carries ['active'] exactly when it
    carried it before or it is the favorite button at a stored
    position.  Stored positions past the last button, and elements of
    the array that are no positions, mark nothing.  The storage is not
    written. *)
Theorem init_restores_favorites (items : list Item) (w : World) (r : nat) :
  let this := mk (JSArray items) in
  let btns := document_querySelectorAll (has_class "favorite-btn") (document w) in
  (init this w).2 = Return () ∧
  (classList_contains r "active" (init this w).1 = true ↔
   classList_contains r "active" w = true ∨
   ∃ i, btns !! i = Some r ∧ Index i ∈ items) ∧
  localStorage (init this w).1 = localStorage w.
Proof.
  intros this btns. split; [apply forEach_button_array|]. split.
  - unfold init. fold btns. unfold this. rewrite forEach_button_active.
    + done.
    + intros btn Hin. by eapply querySelectorAll_node.
  - unfold init. fold btns.
    by destruct (forEach_button_rest this btns 0 w) as (-> & _).
Qed.

End favorites_storage.

(** ** A second click on the same favorite button *)

Section double_toggle.
Import FavoriteManager.

Lemma filter_ne_notin (i : nat) (l : list nat) :
  i ∉ l → filter (λ id, id ≠ i) l = l.
Proof.
  induction l as [|x l IH]; [done|].
  intros [Hne Hnin]%not_elem_of_cons.
  rewrite filter_cons, decide_True by done. by rewrite IH.
Qed.

Lemma filter_ne_Permutation (i : nat) (l : list nat) :
  NoDup l → i ∈ l → filter (λ id, id ≠ i) l ++ [i] ≡ₚ l.
Proof.
  induction 1 as [|x l Hx Hnd IH]; [by intros ?%elem_of_nil|].
  intros [->|Hin]%elem_of_cons.
  - rewrite filter_cons, decide_False by (by intros ?).
    rewrite filter_ne_notin by done. by rewrite Permutation_app_comm.
  - rewrite filter_cons, decide_True by (intros ->; done).
    simpl. by rewrite IH.
Qed.

(** X3.  Two calls of [toggleFavorite] on the same button undo each other:
    every element carries ['active'] as before, and the array holds the
    same positions as before (in the same order when the button was
    inactive; with the position moved to the end when it was
    active). *)
Theorem toggleFavorite_twice (l : list nat) (btn index : nat) (w : World) :
  is_Some (node (document w) btn) →
  NoDup l →
  (index ∈ l ↔ classList_contains btn "active" w = true) →
  let this := mk (indices l) in
  let once := toggleFavorite this btn index w in
  let twice := toggleFavorite once.1.1 btn index once.1.2 in
  once.2 = Return () ∧ twice.2 = Return () ∧
  (∀ r, classList_contains r "active" twice.1.2 = classList_contains r "active" w) ∧
  ∃ l', favorites twice.1.1 = indices l' ∧
        l' ≡ₚ l ∧
        (classList_contains btn "active" w = false → l' = l).
Proof.
  intros Hnode Hnd Hiff this once twice.
  assert (is_Some (node (document once.1.2) btn)) as Hnode1.
  { by apply toggleFavorite_nodes. }
  assert (classList_contains btn "active" once.1.2 =
          negb (classList_contains btn "active" w)) as Hflip.
  { unfold once. rewrite toggleFavorite_active by done. by rewrite decide_True. }
  set (l1 := if classList_contains btn "active" w
             then filter (λ id, id ≠ index) l else l ++ [index]).
  assert (favorites once.1.1 = indices l1) as Hl1.
  { unfold once. by rewrite (toggleFavorite_favorites this l). }
  set (l2 := if classList_contains btn "active" w
             then filter (λ id, id ≠ index) l ++ [index]
             else filter (λ id, id ≠ index) (l ++ [index])).
  assert (favorites twice.1.1 = indices l2) as Hl2.
  { unfold twice. rewrite (toggleFavorite_favorites once.1.1 l1) by done.
    rewrite Hflip. unfold l1, l2.
    by destruct (classList_contains btn "active" w). }
  split; [|split; [|split]].
  - apply toggleFavorite_returns. unfold this, indices. simpl. eauto.
  - apply toggleFavorite_returns. rewrite Hl1. unfold indices. eauto.
  - intros r. unfold twice. rewrite toggleFavorite_active by done.
    case_decide as Hr.
    + subst r. rewrite Hflip. apply negb_involutive.
    + unfold once. rewrite toggleFavorite_active by done. by rewrite decide_False.
  - exists l2. split; [done|]. unfold l2.
    destruct (classList_contains btn "active" w) eqn:Hact.
    + split; [|done]. apply filter_ne_Permutation; [done|]. by apply Hiff.
    + assert (filter (λ id, id ≠ index) (l ++ [index]) = l) as ->; [|done].
      rewrite filter_app, filter_ne_notin.
      * rewrite filter_cons, decide_False by (by intros ?). simpl.
        by rewrite app_nil_r.
      * intros Hin. apply Hiff in Hin. congruence.
Qed.

Lemma toggleFavorite_twice_witness :
  let this := mk (indices [0; 2]) in
  let w := (toggleFavorite (mk (indices [])) 9 0 Sample.fresh).1.2 in
  let once := toggleFavorite this 9 0 w in
  let twice := toggleFavorite once.1.1 9 0 once.1.2 in
  favorites once.1.1 = indices [2] ∧
  favorites twice.1.1 = indices [2; 0] ∧
  (∃ l', favorites twice.1.1 = indices l' ∧ l' ≡ₚ [0; 2]) ∧
  classList_contains 9 "active" twice.1.2 = classList_contains 9 "active" w.
Proof.
  intros this w once twice.
  destruct (toggleFavorite_twice [0; 2] 9 0 w) as (_ & _ & Hcls & l' & Hl' & Hperm & _).
  - vm_compute. eauto.
  - by apply (bool_decide_unpack _).
  - split; [intros _; by vm_compute|]. intros _. by apply (bool_decide_unpack _).
  - split; [by vm_compute|]. split; [by vm_compute|].
    split; [by exists l'|apply Hcls].
Defined.

End double_toggle.

(** ** The theme on the page *)

Section theme_on_the_page.
Import Page.

Lemma getAttribute_observe (r : nat) (name : string) (w : World) :
  getAttribute r name w = observe attributes ∅ (document w) r !! name.
Proof. unfold getAttribute, observe. by destruct (node (document w) r). Qed.

Lemma or_default_nonempty (x : option string) (dflt : string) :
  dflt ≠ "" → or_default x dflt ≠ "".
Proof. intros Hd. unfold or_default. destruct x as [s|]; [|done]. by case_decide. Qed.

Lemma or_default_Some (s dflt : string) : s ≠ "" → or_default (Some s) dflt = s.
Proof. intros Hs. unfold or_default. by rewrite decide_False. Qed.

(** What the closures other than the one of the theme toggle leave
    alone. *)
Lemma run_handler_no_theme (h : Handler) (e : Event) (q : t) :
  h ≠ OnThemeToggleClick →
  themeManager (run_handler h e q).2 = themeManager q ∧
  localStorage (world (run_handler h e q).2) !! ThemeManager.THEME_KEY =
    localStorage (world q) !! ThemeManager.THEME_KEY ∧
  keeps attributes ∅ (world q) (world (run_handler h e q).2).
Proof.
  intros Hh. destruct h as [|btn index|card|card|card|anchor]; simpl; [done|..].
  - destruct (favoriteManager q) as [fm|]; [|by repeat split].
    destruct (favorites_frame_toggleFavorite fm btn index (world q))
      as (Hsto & Hattr & _).
    destruct (FavoriteManager.toggleFavorite fm btn index (world q))
      as [[fm' w'] c].
    simpl in *. destruct c; simpl; (split; [done|]); (split; [by apply Hsto|done]).
  - by rewrite onCardHover_eq.
  - by rewrite onCardHover_eq.
  - destruct (closest _ _ _); [by repeat split|].
    pose proof (onCardClick_rest card (world q)) as (_ & _ & _ & Hsto).
    pose proof (onCardClick_keeps attributes ∅ card (world q) (world q)
                  (λ _ _, eq_refl) (λ _ _, eq_refl) (λ _, eq_refl) eq_refl
                  (keeps_refl _ _ _)) as Hattr.
    destruct (ProductInteractions.onCardClick card (world q)) as [w' c].
    simpl in *. destruct c; simpl; by rewrite Hsto.
  - pose proof (onAnchorClick_rest anchor e (world q)) as (_ & _ & _ & Hsto & Hdoc).
    destruct (SmoothScroll.onAnchorClick anchor e (world q)) as [[e' w'] c].
    simpl in *. destruct c; simpl; rewrite Hsto;
      (split; [done|]; split; [done|]; intros r; by rewrite Hdoc).
Qed.

(** At every moment the three copies of the theme agree. *)
Lemma theme_coherent (b : Browser) (markup : Document)
    (storage : gmap string string) (inputs : list Input) :
  let q := run (load b markup storage) inputs in
  ∃ tm, themeManager q = Some tm ∧
        ThemeManager.currentTheme tm ≠ "" ∧
        localStorage (world q) !! ThemeManager.THEME_KEY =
          Some (ThemeManager.currentTheme tm) ∧
        getAttribute 0 "data-theme" (world q) = Some (ThemeManager.currentTheme tm).
Proof.
  set (L := listeners (world (load b markup storage))).
  set (I := λ q : t,
         listeners (world q) = L ∧
         ∃ tm, themeManager q = Some tm ∧
               ThemeManager.currentTheme tm ≠ "" ∧
               localStorage (world q) !! ThemeManager.THEME_KEY =
                 Some (ThemeManager.currentTheme tm) ∧
               getAttribute 0 "data-theme" (world q) =
                 Some (ThemeManager.currentTheme tm)).
  assert (∀ q q', I q →
            listeners (world q') = listeners (world q) →
            themeManager q' = themeManager q →
            localStorage (world q') !! ThemeManager.THEME_KEY =
              localStorage (world q) !! ThemeManager.THEME_KEY →
            keeps attributes ∅ (world q) (world q') → I q') as Htransfer.
  { intros q q' (HL & tm & Htm & Hne & Hsto & Hattr) Hls Hmgr Hkey Hk.
    split; [congruence|]. exists tm. split; [congruence|]. split; [done|].
    split; [congruence|].
    rewrite getAttribute_observe, Hk, <- getAttribute_observe. done. }
  cut (I (run (load b markup storage) inputs)); [by intros [_ ?]|].
  apply (run_invariant I L).
  - by intros q [? _].
  - intros h e q r ty _ Hq.
    destruct (decide (h = OnThemeToggleClick)) as [->|Hh].
    + destruct Hq as (HL & tm & Htm & Hne & Hsto & Hattr). simpl. rewrite Htm.
      destruct (toggleTheme_spec tm (world q)) as (Hcur & _ & Hattr' & Hsto').
      destruct (toggleTheme_rest tm (world q)) as (Hls & _).
      destruct (ThemeManager.toggleTheme tm (world q)) as [[tm' w'] c].
      simpl in *. split; [rewrite world_report; simpl; congruence|].
      exists tm'. split; [by destruct c|]. rewrite world_report. simpl.
      rewrite Hsto', Hattr', Hcur. split; [by case_decide|done].
    + destruct (run_handler_no_theme h e q Hh) as (Hmgr & Hkey & Hk).
      destruct (run_handler_rest h e q) as (Hls & _).
      by apply (Htransfer q).
  - intros k q Hq. destruct (fire_rest k (world q)) as (Hls & _ & _ & Hsto).
    apply (Htransfer q); simpl; try done; [by rewrite Hsto|].
    apply fire_keeps; [done|done|apply keeps_refl].
  - intros entries q Hq. unfold deliver.
    destruct (callback_rest (delivered entries (world q)) (world q))
      as (Hls & _ & Hsto).
    apply (Htransfer q); simpl; try done; [by rewrite Hsto|].
    apply callback_keeps; [done|apply keeps_refl].
  - split; [done|].
    destruct (load_rest b markup storage) as (Hsto & _ & _ & tm & Htm & Hcur).
    exists tm. split; [done|]. rewrite Hcur, Hsto, lookup_insert_eq.
    split; [by apply or_default_nonempty|]. split; [done|].
    clear Htm Hcur Hsto.
    set (w0 := mkWorld storage markup [] [] [] [] None b).
    assert (keeps attributes ∅ (ThemeManager.new w0).2 (world (load b markup storage)))
      as Hk.
    { unfold load, onDOMContentLoaded. fold w0.
      destruct (ThemeManager.new w0) as [tm0 w1].
      cbn -[LazyLoader.new ProductInteractions.new SmoothScroll.new
            FavoriteManager.new].
      pose proof (FavoriteManager_new_keeps attributes ∅ w1 w1
                    (conj (λ _, eq_refl) (λ _, eq_refl)) (keeps_refl _ _ _)) as Hk2.
      destruct (FavoriteManager.new w1) as [w2 [fm|exn]];
        cbn -[LazyLoader.new ProductInteractions.new SmoothScroll.new] in *; [|done].
      pose proof (LazyLoader_new_keeps attributes ∅ w1 _
                    (SmoothScroll_new_keeps _ _ _ _
                       (ProductInteractions_new_keeps _ _ _ _ Hk2))) as Hk5.
      destruct (LazyLoader.new _) as [ll w5]. simpl in *.
      unfold_ops. by apply keeps_with_console. }
    rewrite getAttribute_observe, Hk, <- getAttribute_observe.
    apply new_applies.
Qed.

End theme_on_the_page.

Section theme_persistence.
Import Page.

(** X4.  At every moment of a loaded page the three copies of the theme
    agree: the [currentTheme] of the [ThemeManager], the item stored
    under ['styleweave-theme'] and the [data-theme] attribute of the
    document are the same non-empty string.  A page loaded afterwards
    on the storage the first one left (same origin, any markup) starts
    with that theme. *)
Theorem theme_persists (b b' : Browser) (markup markup' : Document)
    (storage : gmap string string) (inputs : list Input) :
  let q := run (load b markup storage) inputs in
  let q' := load b' markup' (localStorage (world q)) in
  ∃ tm tm',
    themeManager q = Some tm ∧
    ThemeManager.currentTheme tm ≠ "" ∧
    localStorage (world q) !! ThemeManager.THEME_KEY =
      Some (ThemeManager.currentTheme tm) ∧
    getAttribute 0 "data-theme" (world q) = Some (ThemeManager.currentTheme tm) ∧
    themeManager q' = Some tm' ∧
    ThemeManager.currentTheme tm' = ThemeManager.currentTheme tm ∧
    getAttribute 0 "data-theme" (world q') = Some (ThemeManager.currentTheme tm) ∧
    localStorage (world q') = localStorage (world q).
Proof.
  intros q q'.
  destruct (theme_coherent b markup storage inputs)
    as (tm & Htm & Hne & Hsto & Hattr). fold q in Htm, Hsto, Hattr.
  destruct (theme_coherent b' markup' (localStorage (world q)) [])
    as (tm' & Htm' & _ & Hsto' & Hattr'). simpl in Htm', Hsto', Hattr'.
  fold q' in Htm', Hsto', Hattr'.
  destruct (load_rest b' markup' (localStorage (world q)))
    as (Hload & _ & _ & tm2 & Htm2 & Hcur2). fold q' in Hload, Htm2.
  assert (tm2 = tm') as -> by congruence.
  rewrite Hsto, or_default_Some in Hcur2, Hload by done.
  exists tm, tm'. repeat split; try done.
  - by rewrite Hattr', Hcur2.
  - rewrite Hload. by apply insert_id.
Qed.

End theme_persistence.

(** ** Reloading the page *)

Section reload.
Import Page.

Lemma load_completed (b : Browser) (markup : Document)
    (storage : gmap string string) (w2 : World) (fm : FavoriteManager.t) :
  FavoriteManager.new
    (ThemeManager.new (mkWorld storage markup [] [] [] [] None b)).2 =
    (w2, Return fm) →
  favoriteManager (load b markup storage) = Some fm ∧
  document (world (load b markup storage)) = document w2 ∧
  uncaught (load b markup storage) = [].
Proof.
  unfold load, onDOMContentLoaded.
  destruct (ThemeManager.new _) as [tm w1]. cbn [snd]. intros ->.
  cbn -[LazyLoader.new ProductInteractions.new SmoothScroll.new].
  destruct (ProductInteractions_new_rest w2) as (_ & _ & _ & _ & Hdoc3).
  destruct (SmoothScroll_new_rest (ProductInteractions.new w2))
    as (_ & _ & _ & _ & Hdoc4).
  destruct (LazyLoader_new_rest (SmoothScroll.new (ProductInteractions.new w2)))
    as (_ & _ & _ & Hdoc5).
  destruct (LazyLoader.new _) as [ll w5]. simpl in *.
  split; [done|]. split; [|done]. by rewrite Hdoc5, Hdoc4, Hdoc3.
Qed.

(** X5.  The favorites survive a reload.  Take a first visit as in C2 (no
    favorites stored, no button marked active by the markup) and any
    inputs; load the same markup again on the storage the visit left.
    The load completes, the [FavoriteManager] starts with the array the
    first one ended with, and every favorite button carries ['active']
    exactly if it did at the end of the visit. *)
Theorem favorites_survive_reload (b b' : Browser) (markup : Document)
    (storage : gmap string string) (inputs : list Input) :
  let btns := document_querySelectorAll (has_class "favorite-btn") markup in
  storage !! FavoriteManager.FAVORITES_KEY = None →
  (∀ btn, btn ∈ btns → matching (has_class "active") markup btn = false) →
  let q := run (load b markup storage) inputs in
  let q' := load b' markup (localStorage (world q)) in
  ∃ fm, favoriteManager q = Some fm ∧
        favoriteManager q' = Some fm ∧
        uncaught q' = [] ∧
        ∀ btn, btn ∈ btns →
          classList_contains btn "active" (world q') =
          classList_contains btn "active" (world q).
Proof.
  intros btns Hempty Hinactive q q'.
  destruct (load_invariant b markup storage Hempty Hinactive) as [Hload _].
  destruct (run_keeps_invariant markup _ _ inputs
              (load_favorite_listeners b markup storage) Hload)
    as (_ & _ & fm & Hfm & l & Hl & _ & Hiff & _ & Hsto).
  fold q in Hfm, Hiff, Hsto. fold btns in Hiff. simpl in Hl, Hiff, Hsto.
  destruct fm as [v]. simpl in Hl. subst v.
  set (w0 := mkWorld (localStorage (world q)) markup [] [] [] [] None b').
  assert (FavoriteManager.getStoredFavorites (ThemeManager.new w0).2 =
            Return (indices l)) as Hread.
  { apply stored_read.
    destruct (ThemeManager_new_rest w0) as (_ & -> & _).
    by rewrite lookup_insert_ne. }
  pose proof (new_on_array _ _ Hread) as Hnew.
  assert (FavoriteManager.new (ThemeManager.new w0).2 =
            ((FavoriteManager.init (FavoriteManager.mk (indices l))
                (ThemeManager.new w0).2).1,
             Return (FavoriteManager.mk (indices l)))) as Hnew'.
  { unfold FavoriteManager.new in Hnew |- *. rewrite Hread in Hnew |- *.
    by destruct (FavoriteManager.init _ _) as [w1 [[]|e]]. }
  destruct (load_completed b' markup (localStorage (world q)) _ _ Hnew')
    as (Hfm' & Hdoc & Hok). fold q' in Hfm', Hdoc, Hok.
  exists (FavoriteManager.mk (indices l)).
  split; [done|]. split; [done|]. split; [done|].
  intros btn Hbtn. apply Bool.eq_true_iff_eq.
  unfold classList_contains at 1. rewrite Hdoc.
  change (matching (has_class "active") (document ?w) btn)
    with (classList_contains btn "active" w).
  unfold FavoriteManager.init.
  pose proof (ThemeManager_new_buttons b' markup (localStorage (world q))) as Hsame.
  fold w0 in Hsame. rewrite Hsame.
  fold btns. unfold indices. rewrite forEach_button_active.
  - assert (classList_contains btn "active" (ThemeManager.new w0).2 = false) as ->.
    { unfold classList_contains.
      rewrite (keeps_matching "active" w0); [by apply Hinactive|].
      apply ThemeManager_new_keeps; [done|apply keeps_refl]. }
    split.
    + intros [?|(k & Hk & Hin)]; [done|]. simpl in Hin.
      apply elem_of_indices, Hiff in Hin as (btn' & Hk' & Hon). congruence.
    + intros Hon. right.
      apply list_elem_of_lookup_1 in Hbtn as [k Hk]. exists k. split; [done|].
      simpl. apply elem_of_indices, Hiff. eauto.
  - intros x Hx. apply (class_gives_node "favorite-btn").
    unfold classList_contains.
    rewrite (keeps_matching "favorite-btn" w0).
    + by apply (favorite_buttons_match markup).
    + apply ThemeManager_new_keeps; [done|apply keeps_refl].
Qed.

Lemma favorites_survive_reload_witness :
  let btns := [9; 13; 16] in
  let q := run (load Sample.chrome Sample.markup ∅) [Click 9; Click 16; Click 9] in
  let q' := load Sample.no_observer Sample.markup (localStorage (world q)) in
  ∃ fm, favoriteManager q = Some fm ∧
        favoriteManager q' = Some fm ∧
        uncaught q' = [] ∧
        ∀ btn, btn ∈ btns →
          classList_contains btn "active" (world q') =
          classList_contains btn "active" (world q).
Proof.
  apply (favorites_survive_reload Sample.chrome Sample.no_observer Sample.markup ∅
           [Click 9; Click 16; Click 9]).
  - reflexivity.
  - intros btn Hin. change (btn ∈ [9; 13; 16]) in Hin.
    repeat (apply elem_of_cons in Hin as [->|Hin]; [reflexivity|]).
    by apply elem_of_nil in Hin.
Defined.

End reload.

(** ** Which closures a page has, and what a dispatch runs *)

Section listeners_of_a_page.
Import Page.
Context (Q : Listener → Prop).

Lemma SmoothScroll_new_listeners_in (w : World) :
  (∀ a, a ∈ document_querySelectorAll is_hash_anchor (document w) →
        Q (mkListener a click (OnAnchorClick a))) →
  Forall Q (listeners w) → Forall Q (listeners (SmoothScroll.new w)).
Proof.
  intros HQ Hw. unfold SmoothScroll.new. rewrite SmoothScroll_init_listeners.
  apply Forall_app. split; [done|].
  apply Forall_fmap, Forall_forall. intros a Ha. by apply HQ.
Qed.

(** The listeners of a loaded page: those of the [ThemeManager], then
    one per favorite button, three per card, one per anchor of the
    markup whose [href] starts with [#]. *)
Lemma load_listeners (b : Browser) (markup : Document)
    (storage : gmap string string) :
  Forall Q (listeners
              (ThemeManager.new (mkWorld storage markup [] [] [] [] None b)).2) →
  (∀ btn index, Q (mkListener btn click (OnFavoriteClick btn index))) →
  (∀ card, Q (mkListener card mouseenter (OnCardMouseEnter card)) ∧
           Q (mkListener card mouseleave (OnCardMouseLeave card)) ∧
           Q (mkListener card click (OnCardClick card))) →
  (∀ a, a ∈ document_querySelectorAll is_hash_anchor markup →
        Q (mkListener a click (OnAnchorClick a))) →
  Forall Q (listeners (world (load b markup storage))).
Proof.
  intros Htheme Hfav Hcard Hanchor. unfold load, onDOMContentLoaded.
  set (w0 := mkWorld storage markup [] [] [] [] None b) in *.
  set (obs := λ e, Some (skeleton e)).
  assert (keeps obs None w0 (ThemeManager.new w0).2) as Hk1.
  { apply ThemeManager_new_keeps; [|apply keeps_refl].
    intros value e. unfold obs. f_equal. by apply skeleton_insert. }
  destruct (ThemeManager.new w0) as [tm w1]. cbn [snd] in Htheme, Hk1.
  pose proof (FavoriteManager_new_keeps obs None w0 w1
                (conj (λ _, eq_refl) (λ _, eq_refl)) Hk1) as Hk2.
  assert (Forall Q (listeners (FavoriteManager.new w1).1)) as Hw2.
  { apply FavoriteManager_new_listeners; [|done]. intros i btn _. apply Hfav. }
  destruct (FavoriteManager.new w1) as [w2 [fm|exn]];
    cbn -[LazyLoader.new ProductInteractions.new SmoothScroll.new] in *; [|done].
  pose proof (keeps_skeleton _ _ (ProductInteractions_new_keeps obs None w0 w2 Hk2))
    as Hsk.
  destruct (LazyLoader_new_rest (SmoothScroll.new (ProductInteractions.new w2)))
    as (_ & Hls & _).
  destruct (LazyLoader.new _) as [ll w5]. simpl in *. rewrite Hls.
  apply SmoothScroll_new_listeners_in.
  - intros a Ha. apply Hanchor. by rewrite (same_anchor_query markup _ Hsk) in Ha.
  - by apply ProductInteractions_new_listeners.
Qed.

End listeners_of_a_page.

Section dispatch.
Import Page.

Lemma listeners_at_ext (ty : EventType) (r : nat) (w w' : World) :
  listeners w' = listeners w → listeners_at ty r w' = listeners_at ty r w.
Proof. intros H. unfold listeners_at. by rewrite H. Qed.

Lemma run_handler_ev_target (h : Handler) (e : Event) (p : t) :
  ev_target (run_handler h e p).1 = ev_target e.
Proof.
  destruct h as [|btn index|card|card|card|anchor]; simpl; try done.
  - destruct (themeManager p); [|done].
    by destruct (ThemeManager.toggleTheme _ _) as [[? ?] ?].
  - destruct (favoriteManager p); [|done].
    by destruct (FavoriteManager.toggleFavorite _ _ _ _) as [[? ?] []].
  - destruct (closest _ _ _); [done|].
    by destruct (ProductInteractions.onCardClick _ _).
  - unfold SmoothScroll.onAnchorClick.
    by destruct (selectorEngine _ _ _) as [[el|]|].
Qed.

Section pairs.
Context (J : Event → t → Prop) (path : list nat).
Hypothesis J_handler :
  ∀ h e q r, r ∈ path → h ∈ listeners_at (ev_type e) r (world q) → J e q →
             J (run_handler h e q).1 (run_handler h e q).2.

Lemma run_handlers_pairs (hs : list Handler) (r : nat) (e : Event) (p : t) :
  r ∈ path →
  (∀ h, h ∈ hs → h ∈ listeners_at (ev_type e) r (world p)) →
  J e p →
  J (run_handlers hs e p).1 (run_handlers hs e p).2.
Proof.
  intros Hr. revert e p. induction hs as [|h hs IH]; intros e p Hin Hp; [done|].
  unfold run_handlers. simpl.
  pose proof (J_handler h e p r Hr (Hin h (list_elem_of_here _ _)) Hp) as Hp'.
  pose proof (run_handler_ev_type h e p) as Hty.
  destruct (run_handler_rest h e p) as (Hls & _).
  destruct (run_handler h e p) as [e' p']. simpl in *.
  apply (IH e' p'); [|done].
  intros h' Hh'. rewrite Hty, (listeners_at_ext _ _ (world p)) by done.
  apply Hin. by apply list_elem_of_further.
Qed.

Lemma propagate_pairs_sub (rest : list nat) (e : Event) (p : t) :
  rest ⊆ path → J e p → J (propagate rest e p).1 (propagate rest e p).2.
Proof.
  revert e p. induction rest as [|r rest IH]; intros e p Hsub Hp; [done|].
  simpl. destruct (propagationStopped e); [done|].
  pose proof (run_handlers_pairs (listeners_at (ev_type e) r (world p)) r e p) as H.
  destruct (run_handlers _ e p) as [e' p']. simpl in H.
  apply IH.
  - intros x Hx. apply Hsub. by apply list_elem_of_further.
  - apply H; [|done|done]. apply Hsub, list_elem_of_here.
Qed.

Lemma propagate_pairs (e : Event) (p : t) :
  J e p → J (propagate path e p).1 (propagate path e p).2.
Proof. by apply propagate_pairs_sub. Qed.

End pairs.

End dispatch.

Section dispatch_properties.
Import Page.

Lemma run_handler_not_prevented (h : Handler) (e : Event) (p : t) :
  (∀ a, h ≠ OnAnchorClick a) →
  defaultPrevented (run_handler h e p).1 = defaultPrevented e.
Proof.
  intros Hh. destruct h as [|btn index|card|card|card|anchor]; simpl; try done.
  - destruct (themeManager p); [|done].
    by destruct (ThemeManager.toggleTheme _ _) as [[? ?] ?].
  - destruct (favoriteManager p); [|done].
    by destruct (FavoriteManager.toggleFavorite _ _ _ _) as [[? ?] []].
  - destruct (closest _ _ _); [done|].
    by destruct (ProductInteractions.onCardClick _ _).
  - by destruct (Hh anchor).
Qed.

Lemma load_anchor_listeners (b : Browser) (markup : Document)
    (storage : gmap string string) :
  Forall (λ l, ∀ a, handler l = OnAnchorClick a →
                    target l = a ∧
                    a ∈ document_querySelectorAll is_hash_anchor markup)
         (listeners (world (load b markup storage))).
Proof.
  apply load_listeners.
  - apply ThemeManager_new_listeners; [by intros el x|apply Forall_nil_2].
  - by intros btn index x.
  - intros card. split; [|split]; by intros x.
  - intros a Ha x [= <-]. by split.
Qed.

(** X6.  Links that are not in-page anchors keep their default action: on
    a loaded page, a click whose target and ancestors are none of the
    anchors of the markup with an [href] starting with [#] ends with
    the default not prevented. *)
Theorem other_links_not_intercepted (b : Browser) (markup : Document)
    (storage : gmap string string) (inputs : list Input) (tgt : nat) :
  let q := run (load b markup storage) inputs in
  (∀ r, r ∈ tgt :: ancestors (document (world q)) tgt →
        r ∉ document_querySelectorAll is_hash_anchor markup) →
  defaultPrevented (dispatchEvent click tgt q).1 = false.
Proof.
  intros q Hpath. unfold dispatchEvent.
  set (L := listeners (world q)).
  pose proof (load_anchor_listeners b markup storage) as HL.
  rewrite <- (run_listeners inputs) in HL. fold q L in HL.
  rewrite Forall_forall in HL.
  pose proof (propagate_pairs
                (λ e q', ev_type e = click ∧ defaultPrevented e = false ∧
                         listeners (world q') = L)
                (tgt :: ancestors (document (world q)) tgt)) as Hprop.
  simpl in Hprop. apply Hprop; [|done].
  intros h e q' r Hr Hh (Hty & Hpre & Hls).
  rewrite run_handler_ev_type.
  destruct (run_handler_rest h e q') as (Hls' & _).
  split; [done|]. split; [|congruence].
  rewrite run_handler_not_prevented; [done|].
  intros a ->. apply elem_of_listeners_at in Hh. rewrite Hls in Hh.
  destruct (HL _ Hh a eq_refl) as [Htgt Ha]. simpl in Htgt. subst a.
  by apply (Hpath r).
Qed.

Lemma other_links_not_intercepted_witness :
  let q := run (load Sample.chrome Sample.markup ∅) [Click 9] in
  defaultPrevented (dispatchEvent click 5 q).1 = false.
Proof.
  apply (other_links_not_intercepted Sample.chrome Sample.markup ∅ [Click 9] 5).
  intros r Hr. change (r ∈ [5; 1; 0]) in Hr. change (r ∉ [3; 4]).
  repeat (apply elem_of_cons in Hr as [->|Hr];
          [by apply (bool_decide_unpack _)|]).
  by apply elem_of_nil in Hr.
Defined.

(** X7.  Moving the pointer over the page does nothing: on a loaded page a
    [mouseenter] or [mouseleave] on any element leaves the whole state
    (document, storage, timers, console, objects) as it is. *)
Theorem hover_changes_nothing (b : Browser) (markup : Document)
    (storage : gmap string string) (inputs : list Input) (r : nat) :
  let q := run (load b markup storage) inputs in
  step q (MouseEnter r) = q ∧ step q (MouseLeave r) = q.
Proof.
  intros q.
  destruct (load_rest b markup storage) as (_ & Hwf & _).
  rewrite <- (run_listeners inputs) in Hwf. fold q in Hwf.
  assert (∀ ty, ty ≠ click → (dispatchEvent ty r q).2 = q) as Hhover.
  { intros ty Hty.
    apply (dispatchEvent_invariant (λ q', q' = q) (listeners (world q)) ty);
      [by intros q' ->| |done].
    intros h e q' r' Hin ->. apply run_handler_hover.
    pose proof (Hwf _ Hin) as Hreg. simpl in Hreg. congruence. }
  split; simpl; by apply Hhover.
Qed.

Lemma ThemeManager_new_guard (w : World) :
  listeners w = [] →
  Forall (λ l, handler l = OnThemeToggleClick →
               is_Some (ThemeManager.themeToggle (ThemeManager.new w).1))
         (listeners (ThemeManager.new w).2).
Proof.
  intros Hnil. unfold ThemeManager.new, ThemeManager.init. simpl.
  destruct (getElementById _ _) as [el|]; simpl; rewrite Hnil.
  - apply Forall_singleton. eauto.
  - apply Forall_nil_2.
Qed.

Lemma ThemeManager_new_manager (b : Browser) (markup : Document)
    (storage : gmap string string) :
  themeManager (load b markup storage) =
  Some (ThemeManager.new (mkWorld storage markup [] [] [] [] None b)).1.
Proof.
  unfold load, onDOMContentLoaded.
  destruct (ThemeManager.new _) as [tm w1].
  destruct (FavoriteManager.new w1) as [w2 [fm|exn]]; [|done].
  cbn -[LazyLoader.new ProductInteractions.new SmoothScroll.new].
  by destruct (LazyLoader.new _).
Qed.

(** X8.  The check in [ThemeManager.init] suffices: on a loaded page the
    closure of the theme toggle is registered only if the toggle
    exists, so running it never leaves an exception, at any time.
    Called on an object without a toggle, [toggleTheme] throws a
    [TypeError] only after it has applied and stored the new theme. *)
Theorem theme_toggle_guarded (b : Browser) (markup : Document)
    (storage : gmap string string) (inputs : list Input) :
  let q := run (load b markup storage) inputs in
  (∀ r ty e, mkListener r ty OnThemeToggleClick ∈ listeners (world q) →
             uncaught (run_handler OnThemeToggleClick e q).2 = uncaught q) ∧
  (∀ this w,
     ThemeManager.themeToggle this = None →
     (ThemeManager.toggleTheme this w).2 = Throw TypeError ∧
     localStorage (ThemeManager.toggleTheme this w).1.2 !! ThemeManager.THEME_KEY =
       Some (ThemeManager.currentTheme (ThemeManager.toggleTheme this w).1.1) ∧
     getAttribute 0 "data-theme" (ThemeManager.toggleTheme this w).1.2 =
       Some (ThemeManager.currentTheme (ThemeManager.toggleTheme this w).1.1)).
Proof.
  intros q. split.
  - set (w0 := mkWorld storage markup [] [] [] [] None b).
    set (tm0 := (ThemeManager.new w0).1).
    set (L := listeners (world (load b markup storage))).
    assert (Forall (λ l, handler l = OnThemeToggleClick →
                         is_Some (ThemeManager.themeToggle tm0)) L) as HL.
    { apply load_listeners.
      - by apply ThemeManager_new_guard.
      - by intros btn index.
      - intros card. split; [|split]; by intros.
      - by intros a _. }
    assert (listeners (world q) = L ∧
            ∃ tm, themeManager q = Some tm ∧
                  ThemeManager.themeToggle tm = ThemeManager.themeToggle tm0)
      as (Hls & tm & Htm & Htoggle).
    { apply (run_invariant
               (λ q', listeners (world q') = L ∧
                      ∃ tm, themeManager q' = Some tm ∧
                            ThemeManager.themeToggle tm =
                              ThemeManager.themeToggle tm0) L).
      - by intros q' [? _].
      - intros h e q' r ty _ (Hls & tm & Htm & Htoggle).
        destruct (run_handler_rest h e q') as (Hls' & _).
        split; [congruence|].
        destruct (decide (h = OnThemeToggleClick)) as [->|Hh].
        + simpl. rewrite Htm.
          destruct (toggleTheme_spec tm (world q')) as (_ & Hsame & _).
          destruct (ThemeManager.toggleTheme tm (world q')) as [[tm' w'] c].
          simpl in *. exists tm'. split; [by destruct c|congruence].
        + destruct (run_handler_no_theme h e q' Hh) as (Hmgr & _).
          exists tm. split; [congruence|done].
      - intros k q' (Hls & Hmgr). split; [|done]. simpl.
        by destruct (fire_rest k (world q')) as (-> & _).
      - intros entries q' (Hls & Hmgr). split; [|done]. simpl. unfold deliver.
        by destruct (callback_rest (delivered entries (world q')) (world q'))
          as (-> & _).
      - split; [done|]. exists tm0. split; [|done].
        apply ThemeManager_new_manager. }
    intros r ty e Hin. rewrite Hls in Hin.
    rewrite Forall_forall in HL. destruct (HL _ Hin eq_refl) as [el Hel].
    simpl. rewrite Htm. unfold ThemeManager.toggleTheme. simpl.
    rewrite Htoggle, Hel. done.
  - intros this w Hnone.
    destruct (toggleTheme_spec this w) as (Hcur & _ & Hattr & Hsto).
    rewrite Hcur, Hattr, Hsto. split; [|done].
    unfold ThemeManager.toggleTheme. simpl. by rewrite Hnone.
Qed.

Lemma theme_toggle_guarded_witness :
  let q := run (load Sample.chrome Sample.markup ∅) [Click 2; Click 9] in
  uncaught (run_handler OnThemeToggleClick (mkEvent click 2 false false) q).2 =
    uncaught q ∧
  (ThemeManager.toggleTheme (ThemeManager.mk None "light") Sample.fresh).2 =
    Throw TypeError.
Proof.
  intros q.
  destruct (theme_toggle_guarded Sample.chrome Sample.markup ∅ [Click 2; Click 9])
    as [Hpage Hcall].
  split.
  - apply (Hpage 2 click). vm_compute. constructor.
  - by apply Hcall.
Defined.

End dispatch_properties.

(** ** An anchor whose [href] is a bare [#] *)

Section bare_hash.
Import Page.

Lemma load_keeps {A} (obs : Element → A) (dflt : A) (b : Browser)
    (markup : Document) (storage : gmap string string) :
  ignores_theme_attribute obs → ignores_class obs "active" →
  keeps obs dflt (mkWorld storage markup [] [] [] [] None b)
    (world (load b markup storage)).
Proof.
  intros Hattr Hact.
  set (w0 := mkWorld storage markup [] [] [] [] None b).
  unfold load, onDOMContentLoaded. fold w0.
  pose proof (ThemeManager_new_keeps obs dflt w0 w0 Hattr (keeps_refl _ _ _)) as Hk1.
  destruct (ThemeManager.new w0) as [tm w1]. simpl in Hk1.
  pose proof (FavoriteManager_new_keeps obs dflt w0 w1 Hact Hk1) as Hk2.
  destruct (FavoriteManager.new w1) as [w2 [fm|exn]];
    cbn -[LazyLoader.new ProductInteractions.new SmoothScroll.new] in *; [|done].
  pose proof (LazyLoader_new_keeps obs dflt w0 _
                (SmoothScroll_new_keeps _ _ _ _
                   (ProductInteractions_new_keeps _ _ _ _ Hk2))) as Hk5.
  destruct (LazyLoader.new _) as [ll w5]. simpl in *.
  unfold_ops. by apply keeps_with_console.
Qed.

Lemma run_keeps {A} (obs : Element → A) (dflt : A) (p : t) (inputs : list Input) :
  ignores_theme_attribute obs → ignores_style obs → ignores_parent obs →
  ignores_class obs "active" →
  (∀ e, obs (with_classList (DOMTokenList.add "ripple") e) = obs e) →
  (∀ e, obs (with_classList (DOMTokenList.add "loaded") e) = obs e) →
  obs (mkElement "span" None [] ∅ ∅ "" None) = dflt →
  keeps obs dflt (world p) (world (run p inputs)) ∧
  browser (world (run p inputs)) = browser (world p).
Proof.
  intros Hattr Hst Hpar Hact Hrip Hld Hnew.
  apply (run_invariant
           (λ q, listeners (world q) = listeners (world p) ∧
                 keeps obs dflt (world p) (world q) ∧
                 browser (world q) = browser (world p))
           (listeners (world p))).
  - by intros q (? & _).
  - intros h e q r ty _ (HL & Hk & Hb).
    destruct (run_handler_rest h e q) as (-> & _ & ->).
    split; [done|]. split; [|done]. by apply run_handler_keeps.
  - intros k q (HL & Hk & Hb). simpl.
    destruct (fire_rest k (world q)) as (-> & _ & -> & _).
    split; [done|]. split; [|done]. by apply fire_keeps.
  - intros entries q (HL & Hk & Hb). simpl. unfold deliver.
    destruct (callback_rest (delivered entries (world q)) (world q))
      as (-> & -> & _).
    split; [done|]. split; [|done]. by apply callback_keeps.
  - split; [done|]. split; [apply keeps_refl|done].
Qed.

Lemma run_handler_uncaught (h : Handler) (e : Event) (q : t) :
  uncaught q `prefix_of` uncaught (run_handler h e q).2.
Proof.
  assert (∀ X (c : Completion X) q', uncaught q' `prefix_of` uncaught (report c q'))
    as Hreport.
  { intros X [x|exn] q'; simpl; [done|]. by apply prefix_app_r. }
  destruct h as [|btn index|card|card|card|anchor]; simpl.
  - destruct (themeManager q) as [tm|]; [|done].
    destruct (ThemeManager.toggleTheme tm (world q)) as [[tm' w'] c].
    apply (Hreport _ c (mk w' (Some tm') (favoriteManager q) (uncaught q))).
  - destruct (favoriteManager q) as [fm|]; [|done].
    destruct (FavoriteManager.toggleFavorite fm btn index (world q))
      as [[fm' w'] c].
    apply (Hreport _ c (mk w' (themeManager q) (Some fm') (uncaught q))).
  - done.
  - done.
  - destruct (closest _ _ _); [done|].
    destruct (ProductInteractions.onCardClick card (world q)) as [w' c].
    apply (Hreport _ c (with_world (λ _, w') q)).
  - destruct (SmoothScroll.onAnchorClick anchor e (world q)) as [[e' w'] c].
    apply (Hreport _ c (with_world (λ _, w') q)).
Qed.

Lemma run_handlers_uncaught (hs : list Handler) (e : Event) (q : t) :
  uncaught q `prefix_of` uncaught (run_handlers hs e q).2.
Proof.
  revert e q. induction hs as [|h hs IH]; intros e q; [done|].
  unfold run_handlers. simpl.
  pose proof (run_handler_uncaught h e q) as Hh.
  destruct (run_handler h e q) as [e' q']. simpl in Hh.
  etrans; [exact Hh|apply IH].
Qed.

Lemma propagate_uncaught (path : list nat) (e : Event) (q : t) :
  uncaught q `prefix_of` uncaught (propagate path e q).2.
Proof.
  revert e q. induction path as [|r path IH]; intros e q; [done|].
  simpl. destruct (propagationStopped e); [done|].
  pose proof (run_handlers_uncaught (listeners_at (ev_type e) r (world q)) e q) as Hh.
  destruct (run_handlers _ e q) as [e' q']. simpl in Hh.
  etrans; [exact Hh|apply IH].
Qed.

Section one_anchor.
Context (b : Browser) (a : nat) (exn : Exn).
Hypothesis engine_rejects : ∀ d, selectorEngine b "#" d = Throw exn.

Local Abbreviation bare q :=
  (browser (world q) = b ∧ observe href_of None (document (world q)) a = Some "#").

(** The closure of the anchor prevents the default, throws and leaves
    the world as it is. *)
Lemma run_handler_bare_hash (e : Event) (q : t) :
  bare q →
  (run_handler (OnAnchorClick a) e q).1 = preventDefault e ∧
  world (run_handler (OnAnchorClick a) e q).2 = world q ∧
  uncaught (run_handler (OnAnchorClick a) e q).2 = uncaught q ++ [exn].
Proof.
  intros [Hb Hhref]. simpl. unfold SmoothScroll.onAnchorClick.
  assert (getAttribute a "href" (world q) = Some "#") as ->.
  { unfold getAttribute. unfold observe, href_of in Hhref.
    by destruct (node (document (world q)) a). }
  simpl. rewrite Hb, engine_rejects. by destruct q.
Qed.

Lemma run_handler_keeps_bare (h : Handler) (e : Event) (q : t) :
  bare q → h ≠ OnAnchorClick a → bare (run_handler h e q).2.
Proof.
  intros [Hb Hhref] _.
  destruct (run_handler_rest h e q) as (_ & _ & ->). split; [done|].
  rewrite <- Hhref.
  apply (run_handler_keeps href_of None h e q (world q)); try done;
    first [ apply keeps_refl
          | intros value e0; unfold href_of; simpl; by rewrite lookup_insert_ne ].
Qed.

Lemma run_handlers_bare_hash (hs : list Handler) (e : Event) (q : t) :
  bare q → OnAnchorClick a ∈ hs →
  ∃ before after,
    uncaught (run_handlers hs e q).2 = uncaught q ++ before ++ exn :: after.
Proof.
  revert e q. induction hs as [|h hs IH]; intros e q Hq Hin.
  { by apply elem_of_nil in Hin. }
  unfold run_handlers. simpl.
  destruct (decide (h = OnAnchorClick a)) as [->|Hne].
  - destruct (run_handler_bare_hash e q Hq) as (_ & _ & Hun).
    pose proof (run_handlers_uncaught hs (run_handler (OnAnchorClick a) e q).1
                  (run_handler (OnAnchorClick a) e q).2) as [after Hafter].
    destruct (run_handler (OnAnchorClick a) e q) as [e' q']. simpl in *.
    exists [], after. unfold run_handlers in Hafter.
    rewrite Hafter, Hun, <- app_assoc. done.
  - apply elem_of_cons in Hin as [Heq|Hin]; [congruence|].
    pose proof (run_handler_keeps_bare h e q Hq Hne) as Hq'.
    pose proof (run_handler_uncaught h e q) as [k Hk].
    destruct (run_handler h e q) as [e' q']. simpl in *.
    destruct (IH e' q' Hq' Hin) as (before & after & Hfinal).
    exists (k ++ before), after. unfold run_handlers in Hfinal.
    rewrite Hfinal, Hk, <- !app_assoc. done.
Qed.

End one_anchor.

(** C6 fails on an anchor whose [href] is [#] alone, the usual link
    to the top of a page.  Take a page that has loaded without an
    exception, at any later time, an anchor [a] of the markup with
    [href="#"], and a browser whose selector engine rejects the text
    [#], as every engine does.  The closure that [SmoothScroll]
    registered for [a] prevents the default and then throws out of
    [document.querySelector]: the [if (target)] that follows is never
    reached, the exception leaves the listener, and a click on [a]
    ends with that exception among those reported, whatever else
    listens along the way. *)
Theorem bare_hash_anchor_throws (b : Browser) (markup : Document)
    (storage : gmap string string) (inputs : list Input) (a : nat) (exn : Exn) :
  uncaught (load b markup storage) = [] →
  a ∈ document_querySelectorAll is_hash_anchor markup →
  observe href_of None markup a = Some "#" →
  (∀ d, selectorEngine b "#" d = Throw exn) →
  let p := run (load b markup storage) inputs in
  OnAnchorClick a ∈ listeners_at click a (world p) ∧
  (∀ e, (run_handler (OnAnchorClick a) e p).1 = preventDefault e ∧
        world (run_handler (OnAnchorClick a) e p).2 = world p ∧
        uncaught (run_handler (OnAnchorClick a) e p).2 = uncaught p ++ [exn]) ∧
  defaultPrevented (dispatchEvent click a p).1 = true ∧
  ∃ before after,
    uncaught (dispatchEvent click a p).2 = uncaught p ++ before ++ exn :: after.
Proof.
  intros Hok Hin Hhref Hrej p.
  set (w0 := mkWorld storage markup [] [] [] [] None b).
  assert (ignores_theme_attribute href_of) as Hattr.
  { intros value e0. unfold href_of. simpl. by rewrite lookup_insert_ne. }
  assert (browser (world p) = b ∧
          observe href_of None (document (world p)) a = Some "#") as Hbare.
  { destruct (run_keeps href_of None (load b markup storage) inputs)
      as [Hk Hb]; try done.
    destruct (load_rest b markup storage) as (_ & _ & Hb0 & _).
    split; [unfold p; congruence|].
    unfold p. rewrite Hk.
    by rewrite (load_keeps href_of None b markup storage Hattr
                  (conj (λ _, eq_refl) (λ _, eq_refl)) a). }
  assert (OnAnchorClick a ∈ listeners_at click a (world p)) as Hreg.
  { apply elem_of_listeners_at. unfold p. rewrite run_listeners.
    by apply load_registers_anchors. }
  split; [done|].
  split; [intros e; by apply (run_handler_bare_hash b a exn Hrej)|].
  unfold dispatchEvent. simpl.
  pose proof (run_handlers_prevented (listeners_at click a (world p))
                (mkEvent click a false false) p
                (or_intror (ex_intro _ a Hreg))) as Hpre.
  destruct (run_handlers_bare_hash b a exn Hrej
              (listeners_at click a (world p)) (mkEvent click a false false) p
              Hbare Hreg) as (before & after & Hun).
  pose proof (propagate_uncaught (ancestors (document (world p)) a)
                (run_handlers (listeners_at click a (world p))
                   (mkEvent click a false false) p).1
                (run_handlers (listeners_at click a (world p))
                   (mkEvent click a false false) p).2) as [k Hk].
  destruct (run_handlers _ _ p) as [e' p']. simpl in *.
  split; [by apply propagate_prevented|].
  exists before, (after ++ k). rewrite Hk, Hun, <- !app_assoc. done.
Qed.

Lemma bare_hash_anchor_throws_witness :
  let p := run (load Sample.chrome Sample.markup ∅) [Click 9; Click 2] in
  getAttribute 4 "href" (world p) = Some "#" ∧
  uncaught p = [] ∧
  defaultPrevented (dispatchEvent click 4 p).1 = true ∧
  uncaught (dispatchEvent click 4 p).2 = [SyntaxError] ∧
  scrollLog (world (dispatchEvent click 4 p).2) = [].
Proof.
  intros p.
  destruct (bare_hash_anchor_throws Sample.chrome Sample.markup ∅
              [Click 9; Click 2] 4 SyntaxError) as (_ & _ & Hprevented & _).
  - by vm_compute.
  - change (4 ∈ [3; 4]). apply list_elem_of_further, list_elem_of_here.
  - by vm_compute.
  - done.
  - split; [by vm_compute|]. split; [by vm_compute|].
    split; [exact Hprevented|]. split; by vm_compute.
Defined.

End bare_hash.

(** ** A click on a favorite button is not a click on its card *)

Section favorite_click.
Import Page.

Lemma closest_same (sel : Element → bool) (d d' : Document) (r : nat) :
  (∀ x, skeleton <$> node d' x = skeleton <$> node d x) →
  (∀ x, matching sel d' x = matching sel d x) →
  closest sel d' r = closest sel d r.
Proof.
  intros Hskel Hsel. unfold closest, ancestors.
  rewrite (same_size d d' Hskel), (same_ancestors_upto d d' Hskel).
  f_equal. apply list_filter_iff. intros x. by rewrite Hsel.
Qed.

Lemma run_handler_keeps_no_card {A} (obs : Element → A) (dflt : A)
    (h : Handler) (e : Event) (q : t) :
  (∀ card, h ≠ OnCardClick card) →
  ignores_theme_attribute obs → ignores_transform obs → ignores_animation obs →
  ignores_class obs "active" →
  keeps obs dflt (world q) (world (run_handler h e q).2).
Proof.
  intros Hh Hattr Htr Han Hact.
  destruct h as [|btn index|card|card|card|anchor]; simpl.
  - destruct (themeManager q) as [tm|]; [|apply keeps_refl].
    pose proof (toggleTheme_keeps obs dflt tm (world q) (world q) Hattr Htr
                  (keeps_refl _ _ _)) as Hk.
    destruct (ThemeManager.toggleTheme tm (world q)) as [[tm' w'] c].
    simpl in *. by destruct c.
  - destruct (favoriteManager q) as [fm|]; [|apply keeps_refl].
    pose proof (toggleFavorite_keeps obs dflt fm btn index (world q) (world q)
                  Han Hact (keeps_refl _ _ _)) as Hk.
    destruct (FavoriteManager.toggleFavorite fm btn index (world q))
      as [[fm' w'] c].
    simpl in *. by destruct c.
  - rewrite onCardHover_eq. apply keeps_refl.
  - rewrite onCardHover_eq. apply keeps_refl.
  - by destruct (Hh card).
  - pose proof (onAnchorClick_keeps obs dflt anchor e (world q) (world q)
                  (keeps_refl _ _ _)) as Hk.
    destruct (SmoothScroll.onAnchorClick anchor e (world q)) as [[e' w'] c].
    simpl in *. by destruct c.
Qed.

Lemma run_handler_console (h : Handler) (e : Event) (q : t) :
  (∀ card, h ≠ OnCardClick card) →
  console (world (run_handler h e q).2) = console (world q).
Proof.
  intros Hh. destruct h as [|btn index|card|card|card|anchor]; simpl.
  - destruct (themeManager q) as [tm|]; [|done].
    unfold ThemeManager.toggleTheme. simpl.
    by destruct (ThemeManager.themeToggle tm).
  - destruct (favoriteManager q) as [fm|]; [|done].
    unfold FavoriteManager.toggleFavorite.
    destruct (classList_contains btn "active" (world q)).
    + by destruct (FavoriteManager.filter_out _ _).
    + by destruct (FavoriteManager.push _ _).
  - by rewrite onCardHover_eq.
  - by rewrite onCardHover_eq.
  - by destruct (Hh card).
  - unfold SmoothScroll.onAnchorClick.
    by destruct (selectorEngine _ _ _) as [[el|]|].
Qed.

(** X9.  A click on a favorite button, or on anything inside one, never
    reaches [onCardClick], whatever listeners the page has: after the
    dispatch the console holds no new line and the document has no new
    node (no ripple), and every node has the parent it had. *)
Theorem favorite_click_is_not_a_card_click (p : t) (tgt : nat) :
  is_Some (closest (has_class "favorite-btn") (document (world p)) tgt) →
  let p' := (dispatchEvent click tgt p).2 in
  console (world p') = console (world p) ∧
  size_of (document (world p')) = size_of (document (world p)) ∧
  ∀ r, parentNode <$> node (document (world p')) r =
       parentNode <$> node (document (world p)) r.
Proof.
  intros Hbtn p'.
  set (obs := λ e : Element, Some (skeleton e)).
  set (J := λ (e : Event) (q : t),
         ev_target e = tgt ∧
         keeps obs None (world p) (world q) ∧
         keeps (has_class "favorite-btn") false (world p) (world q) ∧
         console (world q) = console (world p)).
  assert (J (dispatchEvent click tgt p).1 p') as (_ & Hsk & _ & Hcon).
  { unfold p', dispatchEvent. apply (propagate_pairs J).
    - intros h e q r _ _ (Htgt & Hsk & Hcls & Hcon).
      assert (is_Some (closest (has_class "favorite-btn") (document (world q)) tgt))
        as [x Hclosest].
      { rewrite (closest_same _ (document (world p))); [done| |].
        - by apply keeps_skeleton.
        - by apply keeps_matching. }
      unfold J. rewrite run_handler_ev_target. split; [done|].
      assert ((∃ card, h = OnCardClick card) ∨ ∀ card, h ≠ OnCardClick card)
        as [[card ->]|Hh'].
      { destruct h; eauto. }
      + simpl. rewrite Htgt, Hclosest. done.
      + split; [|split].
        * eapply keeps_trans; [exact Hsk|].
          apply run_handler_keeps_no_card; try done.
          intros value e0. unfold obs. f_equal. by apply skeleton_insert.
        * eapply keeps_trans; [exact Hcls|].
          apply run_handler_keeps_no_card; try done.
          split; intros e0; [by apply has_class_add | by apply has_class_remove].
        * by rewrite run_handler_console.
    - split; [done|]. split; [apply keeps_refl|]. split; [apply keeps_refl|done]. }
  pose proof (keeps_skeleton _ _ Hsk) as Hskel.
  split; [done|]. split; [by apply same_size|].
  intros r. specialize (Hskel r).
  destruct (node (document (world p')) r), (node (document (world p)) r);
    simpl in *; try done.
  unfold skeleton in Hskel. congruence.
Qed.

Lemma favorite_click_is_not_a_card_click_witness :
  let p := load Sample.chrome Sample.markup ∅ in
  let p' := (dispatchEvent click 9 p).2 in
  console (world p') = console (world p) ∧
  size_of (document (world p')) = size_of (document (world p)) ∧
  classList_contains 9 "active" (world p') = true.
Proof.
  intros p p'.
  destruct (favorite_click_is_not_a_card_click p 9) as (Hcon & Hsize & _).
  - vm_compute. eauto.
  - split; [exact Hcon|]. split; [exact Hsize|]. by vm_compute.
Defined.

End favorite_click.

(** ** The ripple of a card click *)

Section ripple.
Import ProductInteractions.

Lemma node_lt_size (d : Document) (r : nat) :
  is_Some (node d r) ↔ r < size_of d.
Proof.
  unfold size_of. destruct r as [|i]; simpl.
  - split; [lia|eauto].
  - rewrite lookup_lt_is_Some. lia.
Qed.

Lemma node_snoc (d : Document) (e : Element) (x : nat) :
  node (mkDocument (documentElement d) (descendants d ++ [e])) x =
  if decide (x = size_of d) then Some e else node d x.
Proof.
  unfold size_of.
  destruct (decide _) as [Hx|Hx]; destruct x as [|i]; try done; simpl.
  - assert (i = length (descendants d)) as -> by lia.
    by rewrite list_lookup_middle.
  - assert (i ≠ length (descendants d)) by congruence.
    destruct (decide (i < length (descendants d))) as [Hlt|Hge].
    + by rewrite lookup_app_l.
    + rewrite !lookup_ge_None_2; [done|lia|].
      rewrite length_app. simpl. lia.
Qed.

Lemma size_update (f : Element → Element) (r : nat) (d : Document) :
  size_of (update_node f r d) = size_of d.
Proof. unfold size_of. destruct r; simpl; by rewrite ?length_alter. Qed.

Lemma ancestors_detached (d : Document) (r : nat) :
  (parentNode <$> node d r) = Some None → ancestors d r = [].
Proof.
  unfold ancestors, size_of. simpl. intros Hr.
  destruct (node d r) as [e|]; [|done].
  simpl in Hr. by destruct (parentNode e).
Qed.

(** X10.  A click on a card with a product name.  The call returns; the
    console gains one line with the text of the name; the store gains
    one node, a [span] of class [ripple] that is a child of the card;
    the card has [position] and [overflow] set in its inline style and
    no other node of the page is touched; one timer is added.  When
    that timer expires, the ripple is detached from the document, the
    timer queue is as it was before the click, and no other node
    changes: the inline style of the card stays. *)
Theorem card_click_ripple (card el : nat) (w : World) :
  is_Some (node (document w) card) →
  element_querySelector card (has_class "product-name") (document w) = Some el →
  let r := size_of (document w) in
  let w1 := (onCardClick card w).1 in
  let w2 := Page.fire (length (timers w)) w1 in
  (onCardClick card w).2 = Return () ∧
  console w1 =
    console w ++
      ["Product clicked: " +:+ default "" (textContent <$> node (document w) el)] ∧
  timers w1 = timers w ++ [(RemoveRipple r, 600)] ∧
  size_of (document w1) = S r ∧
  (∃ e, node (document w1) r = Some e ∧ localName e = "span" ∧
        classList e = ["ripple"] ∧ parentNode e = Some card) ∧
  node (document w1) card =
    with_style (λ s, <["overflow" := "hidden"]> (<["position" := "relative"]> s))
      <$> node (document w) card ∧
  (∀ x, x ≠ card → x ≠ r → node (document w1) x = node (document w) x) ∧
  timers w2 = timers w ∧
  isConnected (document w2) r = false ∧
  (∀ x, x ≠ r → node (document w2) x = node (document w1) x).
Proof.
  intros Hcard Hname r w1 w2.
  assert (card ≠ r) as Hne.
  { apply node_lt_size in Hcard. unfold r. lia. }
  assert (r ≠ 0) as Hr0 by done.
  unfold w2, w1, onCardClick. rewrite Hname.
  unfold Page.fire, Page.remove, createRipple, createElement, appendChild,
    setStyle, classList_add, setTimeout, console_log.
  cbn [fst snd timers console document with_document with_timers with_console
       localStorage listeners scrollLog observer browser Page.run_task].
  fold r.
  rewrite list_lookup_middle by done.
  cbn [fst snd timers console document with_document with_timers with_console
       localStorage listeners scrollLog observer browser Page.run_task].
  unfold Page.remove.
  cbn [fst snd timers console document with_document with_timers with_console
       localStorage listeners scrollLog observer browser Page.run_task].
  split; [done|]. split; [done|]. split; [done|].
  split.
  { rewrite !size_update. unfold r, size_of. simpl. rewrite length_app. simpl. lia. }
  split.
  { rewrite !node_update_eq, !node_update_ne, !node_update_eq by done.
    rewrite node_snoc, decide_True by done. simpl.
    eexists. split; [done|]. done. }
  split.
  { rewrite !node_update_ne, !node_update_eq, !node_update_ne by done.
    rewrite node_snoc, decide_False by done.
    by destruct (node (document w) card). }
  split.
  { intros x Hx1 Hx2. rewrite !node_update_ne by done.
    by rewrite node_snoc, decide_False. }
  split.
  { by rewrite delete_middle, app_nil_r. }
  split.
  { unfold isConnected. rewrite bool_decide_eq_false_2 by done. cbn [orb].
    unfold is_descendant. rewrite ancestors_detached; [done|].
    rewrite !node_update_eq, !node_update_ne, !node_update_eq by done.
    rewrite node_snoc, decide_True by done. done. }
  intros x Hx. by rewrite node_update_ne.
Qed.

Lemma card_click_ripple_witness :
  let w := Sample.fresh in
  let w1 := (onCardClick 7 w).1 in
  let w2 := Page.fire (length (timers w)) w1 in
  (onCardClick 7 w).2 = Return () ∧
  console w1 = console w ++ ["Product clicked: Linen Shirt"] ∧
  timers w1 = timers w ++ [(RemoveRipple 17, 600)] ∧
  timers w2 = timers w ∧
  isConnected (document w2) 17 = false.
Proof.
  intros w w1 w2.
  destruct (card_click_ripple 7 10 Sample.fresh)
    as (Hret & Hcon & Htm & _ & _ & _ & _ & Htm2 & Hdetached & _).
  - vm_compute. eauto.
  - by vm_compute.
  - split; [exact Hret|]. split; [exact Hcon|]. split; [exact Htm|].
    split; [exact Htm2|exact Hdetached].
Defined.

End ripple.

(** ** The animation feedback is transient *)

Section feedback.

Local Abbreviation inline_style prop w r :=
  (observe (style_of prop) None (document w) r).

Lemma inline_style_setStyle (r x : nat) (prop prop' value : string) (w : World) :
  is_Some (node (document w) r) →
  inline_style prop' (setStyle r prop value w) x =
  if decide (x = r ∧ prop' = prop)
  then (if decide (value = "") then None else Some value)
  else inline_style prop' w x.
Proof.
  intros [e He]. unfold observe, setStyle. simpl.
  rewrite node_update.
  destruct (decide (r = x)) as [<-|Hne].
  - rewrite He. simpl. unfold style_of, style_assign. simpl.
    destruct (decide (r = r ∧ prop' = prop)) as [[_ ->]|Hn].
    + destruct (decide (value = ""));
        [apply lookup_delete_eq | apply lookup_insert_eq].
    + assert (prop ≠ prop') by (intros ->; by apply Hn).
      destruct (decide (value = ""));
        [by apply lookup_delete_ne | by apply lookup_insert_ne].
  - destruct (decide (x = r ∧ prop' = prop)) as [[-> _]|_]; done.
Qed.

Ltac world_fields :=
  cbn [document timers localStorage console listeners scrollLog observer browser
       with_document with_timers with_localStorage with_console fst snd].


(** X11.  A call of [toggleTheme] on a manager whose toggle button exists
    returns, sets the inline [transform] of the button and adds one
    timer.  When that timer expires the button has no inline
    [transform], also if it had one before the call; the timer queue
    is as before the call; no other inline style of the page differs
    from before the call; the theme chosen by the call stays applied
    and stored. *)
Theorem toggle_feedback_is_transient (this : ThemeManager.t) (el : nat) (w : World) :
  ThemeManager.themeToggle this = Some el →
  is_Some (node (document w) el) →
  let res := ThemeManager.toggleTheme this w in
  let w1 := res.1.2 in
  let w2 := Page.fire (length (timers w)) w1 in
  res.2 = Return () ∧
  timers w1 = timers w ++ [(ResetTransform el, 300)] ∧
  inline_style "transform" w1 el = Some "rotate(360deg)" ∧
  timers w2 = timers w ∧
  inline_style "transform" w2 el = None ∧
  (∀ x prop, (x, prop) ≠ (el, "transform") →
     inline_style prop w2 x = inline_style prop w x) ∧
  getAttribute 0 "data-theme" w2 = Some (ThemeManager.currentTheme res.1.1) ∧
  ThemeManager.getStoredTheme w2 = Some (ThemeManager.currentTheme res.1.1).
Proof.
  intros Htoggle Hel res w1 w2.
  unfold w2, w1, res, ThemeManager.toggleTheme, ThemeManager.applyTheme.
  cbn [ThemeManager.themeToggle]. rewrite Htoggle.
  set (theme := if decide (ThemeManager.currentTheme this = "light")
                then "dark" else "light").
  set (wa := ThemeManager.setStoredTheme theme (setAttribute 0 "data-theme" theme w)).
  assert (is_Some (node (document wa) el)) as Hel'.
  { unfold wa, ThemeManager.setStoredTheme, setAttribute. world_fields.
    by apply node_is_Some_update. }
  assert (∀ prop x, inline_style prop wa x = inline_style prop w x) as Hwa.
  { intros prop x. unfold wa, ThemeManager.setStoredTheme, setAttribute.
    world_fields. by apply observe_update. }
  cbn [fst snd]. unfold Page.fire, setTimeout.
  cbn [timers with_timers]. 
  assert (timers (setStyle el "transform" "rotate(360deg)" wa) = timers w) as -> by done.
  rewrite list_lookup_middle by done. cbn [Page.run_task].
  split; [done|]. split; [done|].
  split.
  { change (inline_style "transform"
              (setStyle el "transform" "rotate(360deg)" wa) el = Some "rotate(360deg)").
    rewrite inline_style_setStyle by done. by destruct (decide (_ ∧ _)) as [_|Hn]; [|destruct Hn]. }
  split.
  { unfold setStyle. world_fields. by rewrite delete_middle, app_nil_r. }
  assert (∀ prop x,
    inline_style prop
      (setStyle el "transform" ""
         (with_timers (delete (length (timers w)))
            (with_timers (λ q, q ++ [(ResetTransform el, 300)])
               (setStyle el "transform" "rotate(360deg)" wa)))) x =
    if decide (x = el ∧ prop = "transform") then None else inline_style prop w x)
    as Hstyle.
  { intros prop x. rewrite inline_style_setStyle.
    - case_decide as Hx; [done|].
      change (inline_style prop (setStyle el "transform" "rotate(360deg)" wa) x =
              inline_style prop w x).
      rewrite inline_style_setStyle by done. destruct (decide (_ ∧ _)); [done|apply Hwa].
    - unfold setStyle. world_fields. by apply node_is_Some_update. }
  split.
  { rewrite Hstyle. by destruct (decide (_ ∧ _)) as [_|Hn]; [|destruct Hn]. }
  split.
  { intros x prop Hne. rewrite Hstyle.
    destruct (decide (_ ∧ _)) as [[-> ->]|_]; done. }
  split.
  { rewrite getAttribute_setStyle.
    change (getAttribute 0 "data-theme"
              (setStyle el "transform" "rotate(360deg)" wa) = Some theme).
    rewrite getAttribute_setStyle. unfold wa, getAttribute. simpl.
    apply lookup_insert_eq. }
  unfold ThemeManager.getStoredTheme. simpl. apply lookup_insert_eq.
Qed.

Lemma toggle_feedback_is_transient_witness :
  let this := ThemeManager.mk (Some 2) "light" in
  let w := Sample.fresh in
  let res := ThemeManager.toggleTheme this w in
  let w2 := Page.fire (length (timers w)) res.1.2 in
  res.2 = Return () ∧
  timers w2 = timers w ∧
  inline_style "transform" w2 2 = None ∧
  getAttribute 0 "data-theme" w2 = Some "dark".
Proof.
  intros this w res w2.
  destruct (toggle_feedback_is_transient this 2 w)
    as (Hret & _ & _ & Htm & Hnone & _ & Hattr & _).
  - done.
  - vm_compute. eauto.
  - split; [exact Hret|]. split; [exact Htm|]. split; [exact Hnone|exact Hattr].
Defined.

(** X12.  [toggleFavorite] animates only when it adds.  On an active button
    it schedules no timer and touches no inline style.  On an inactive
    button it sets the inline [animation] and adds one timer; when
    that timer expires the button has no inline [animation], the timer
    queue is as before the call, and the button is still active and
    the stored array is the one the call wrote. *)
Theorem heart_burst_only_on_add (l : list nat) (btn index : nat) (w : World) :
  is_Some (node (document w) btn) →
  let this := FavoriteManager.mk (indices l) in
  let st := FavoriteManager.toggleFavorite this btn index w in
  let w2 := Page.fire (length (timers w)) st.1.2 in
  (classList_contains btn "active" w = true →
     timers st.1.2 = timers w ∧
     ∀ x prop, inline_style prop st.1.2 x = inline_style prop w x) ∧
  (classList_contains btn "active" w = false →
     timers st.1.2 = timers w ++ [(ResetAnimation btn, 400)] ∧
     inline_style "animation" st.1.2 btn = Some "heartBurst 0.4s ease-out" ∧
     timers w2 = timers w ∧
     inline_style "animation" w2 btn = None ∧
     (∀ x prop, (x, prop) ≠ (btn, "animation") →
        inline_style prop w2 x = inline_style prop w x) ∧
     classList_contains btn "active" w2 = true ∧
     FavoriteManager.getStoredFavorites w2 = Return (indices (l ++ [index]))).
Proof.
  intros Hbtn this st w2. unfold w2, st.
  rewrite (toggleFavorite_indices this l) by done. split.
  - intros ->. unfold FavoriteManager.animateButton.
    rewrite decide_False by done. split; [done|].
    intros x prop. cbn [fst snd].
    unfold FavoriteManager.setStoredFavorites, classList_remove.
    world_fields. by apply observe_update.
  - intros Hinactive. rewrite Hinactive.
    unfold FavoriteManager.animateButton. rewrite decide_True by done.
    set (wa := classList_add btn "active" w).
    assert (is_Some (node (document wa) btn)) as Hbtn'.
    { unfold wa, classList_add. world_fields. by apply node_is_Some_update. }
    assert (∀ prop x, inline_style prop wa x = inline_style prop w x) as Hwa.
    { intros prop x. unfold wa, classList_add. world_fields.
      by apply observe_update. }
    cbn [fst snd]. unfold Page.fire, setTimeout, FavoriteManager.setStoredFavorites.
    cbn [timers with_timers with_localStorage].
    assert (timers (setStyle btn "animation" "heartBurst 0.4s ease-out" wa) = timers w)
      as -> by done.
    rewrite list_lookup_middle by done. cbn [Page.run_task].
    split; [done|].
    split.
    { change (inline_style "animation"
                (setStyle btn "animation" "heartBurst 0.4s ease-out" wa) btn =
              Some "heartBurst 0.4s ease-out").
      rewrite inline_style_setStyle by done.
      by destruct (decide (_ ∧ _)) as [_|Hn]; [|destruct Hn]. }
    split.
    { unfold setStyle. world_fields. by rewrite delete_middle, app_nil_r. }
    set (wb := with_timers _ _).
    assert (∀ prop x,
      inline_style prop (setStyle btn "animation" "" wb) x =
      if decide (x = btn ∧ prop = "animation") then None else inline_style prop w x)
      as Hstyle.
    { intros prop x. rewrite inline_style_setStyle.
      - case_decide as Hx; [done|].
        change (inline_style prop
                  (setStyle btn "animation" "heartBurst 0.4s ease-out" wa) x =
                inline_style prop w x).
        rewrite inline_style_setStyle by done.
        destruct (decide (_ ∧ _)); [done|apply Hwa].
      - unfold wb, setStyle. world_fields. by apply node_is_Some_update. }
    split.
    { rewrite Hstyle. by destruct (decide (_ ∧ _)) as [_|Hn]; [|destruct Hn]. }
    split.
    { intros x prop Hne. rewrite Hstyle.
      destruct (decide (_ ∧ _)) as [[-> ->]|_]; done. }
    split.
    { rewrite classList_contains_setStyle.
      change (classList_contains btn "active"
                (setStyle btn "animation" "heartBurst 0.4s ease-out" wa) = true).
      rewrite classList_contains_setStyle. unfold wa.
      rewrite classList_contains_add.
      rewrite !bool_decide_eq_true_2; done. }
    apply stored_read. right. simpl. apply lookup_insert_eq.
Qed.

Lemma heart_burst_only_on_add_witness :
  let this := FavoriteManager.mk (indices []) in
  let w := Sample.fresh in
  let st := FavoriteManager.toggleFavorite this 9 0 w in
  let w2 := Page.fire (length (timers w)) st.1.2 in
  timers st.1.2 = timers w ++ [(ResetAnimation 9, 400)] ∧
  timers w2 = timers w ∧
  inline_style "animation" w2 9 = None ∧
  classList_contains 9 "active" w2 = true.
Proof.
  intros this w st w2.
  destruct (heart_burst_only_on_add [] 9 0 w) as [_ Hadd].
  - vm_compute. eauto.
  - destruct Hadd as (Htm & _ & Htm2 & Hnone & _ & Hactive & _).
    + by vm_compute.
    + split; [exact Htm|]. split; [exact Htm2|]. split; [exact Hnone|exact Hactive].
Defined.

End feedback.

(** ** What the observer watches *)

Section observer_targets.
Import Page.

Lemma observe_all_targets (imgs : list nat) (w : World) (ts : list nat) :
  observer w = Some ts →
  ∃ ts', observer (foldl (λ w img, LazyLoader.observe img w) w imgs) = Some ts' ∧
         ∀ r, r ∈ ts' ↔ r ∈ ts ∨ r ∈ imgs.
Proof.
  revert w ts. induction imgs as [|img imgs IH]; intros w ts Hts.
  - exists ts. split; [done|]. intros r. rewrite elem_of_nil. tauto.
  - simpl.
    destruct (IH (LazyLoader.observe img w)
                (if bool_decide (img ∈ ts) then ts else ts ++ [img]))
      as (ts' & Hobs & Hiff).
    { unfold LazyLoader.observe. simpl. by rewrite Hts. }
    exists ts'. split; [done|]. intros r. rewrite Hiff, elem_of_cons.
    case_bool_decide as Hin.
    + split; [tauto|]. intros [?|[->|?]]; tauto.
    + rewrite elem_of_app, list_elem_of_singleton. tauto.
Qed.

Lemma load_keeps_class (c : string) (b : Browser) (markup : Document)
    (storage : gmap string string) :
  c ≠ "active" →
  keeps (has_class c) false (mkWorld storage markup [] [] [] [] None b)
    (world (load b markup storage)).
Proof.
  intros Hc.
  set (w0 := mkWorld storage markup [] [] [] [] None b).
  unfold load, onDOMContentLoaded. fold w0.
  pose proof (ThemeManager_new_keeps (has_class c) false w0 w0
                (λ _ _, eq_refl) (keeps_refl _ _ _)) as Hk1.
  destruct (ThemeManager.new w0) as [tm w1]. simpl in Hk1.
  assert (ignores_class (has_class c) "active") as Hact.
  { split; intros e; [by apply has_class_add | by apply has_class_remove]. }
  pose proof (FavoriteManager_new_keeps (has_class c) false w0 w1 Hact Hk1) as Hk2.
  destruct (FavoriteManager.new w1) as [w2 [fm|exn]];
    cbn -[LazyLoader.new ProductInteractions.new SmoothScroll.new] in *; [|done].
  pose proof (LazyLoader_new_keeps (has_class c) false w0 _
                (SmoothScroll_new_keeps _ _ _ _
                   (ProductInteractions_new_keeps _ _ _ _ Hk2))) as Hk5.
  destruct (LazyLoader.new _) as [ll w5]. simpl in *.
  unfold_ops. by apply keeps_with_console.
Qed.

Lemma step_keeps_class (c : string) (p : t) (i : Input) :
  c ≠ "active" → c ≠ "ripple" → c ≠ "loaded" →
  keeps (has_class c) false (world p) (world (step p i)).
Proof.
  intros Hactive Hripple Hloaded.
  assert (∀ ty r,
            keeps (has_class c) false (world p) (world (dispatchEvent ty r p).2))
    as Hdispatch.
  { intros ty r.
    apply (dispatchEvent_invariant
             (λ q, keeps (has_class c) false (world p) (world q) ∧
                   listeners (world q) = listeners (world p))
             (listeners (world p)) ty); [by intros q [_ ?]| |].
    - intros h e q r' _ [Hk HL]. split.
      + apply run_handler_keeps; try done.
        * split; intros e0; [by apply has_class_add | by apply has_class_remove].
        * intros e0. by apply has_class_add.
      + destruct (run_handler_rest h e q) as (-> & _). done.
    - split; [apply keeps_refl|done]. }
  destruct i as [r|r|r|k|entries]; simpl; try apply Hdispatch.
  - apply fire_keeps; [done|done|apply keeps_refl].
  - apply callback_keeps; [|apply keeps_refl].
    intros e. by apply has_class_add.
Qed.

Lemma run_keeps_class (c : string) (p : t) (inputs : list Input) :
  c ≠ "active" → c ≠ "ripple" → c ≠ "loaded" →
  keeps (has_class c) false (world p) (world (run p inputs)).
Proof.
  intros Hactive Hripple Hloaded. revert p.
  induction inputs as [|i inputs IH]; intros p; [apply keeps_refl|].
  simpl. eapply keeps_trans; [|apply IH]. by apply step_keeps_class.
Qed.

Lemma load_observer (b : Browser) (markup : Document)
    (storage : gmap string string) :
  hasIntersectionObserver b = true →
  uncaught (load b markup storage) = [] →
  ∃ ts, observer (world (load b markup storage)) = Some ts ∧
        ∀ r, r ∈ ts ↔
             r ∈ document_querySelectorAll (has_class "product-image") markup.
Proof.
  intros Hio.
  unfold load, onDOMContentLoaded.
  set (w0 := mkWorld storage markup [] [] [] [] None b).
  set (obs := λ e, Some (skeleton e)).
  assert (ignores_theme_attribute obs) as Hattr.
  { intros value e. unfold obs. f_equal. by apply skeleton_insert. }
  assert (ignores_class (has_class "product-image") "active") as Hact.
  { split; intros e; [by apply has_class_add | by apply has_class_remove]. }
  pose proof (ThemeManager_new_keeps obs None w0 w0 Hattr (keeps_refl _ _ _)) as Hk1.
  pose proof (ThemeManager_new_keeps (has_class "product-image") false w0 w0
                (λ _ _, eq_refl) (keeps_refl _ _ _)) as Hc1.
  destruct (ThemeManager_new_rest w0) as (_ & _ & _ & _ & Hb1).
  destruct (ThemeManager.new w0) as [tm w1]. simpl in Hk1, Hc1, Hb1.
  pose proof (FavoriteManager_new_keeps obs None w0 w1
                (conj (λ _, eq_refl) (λ _, eq_refl)) Hk1) as Hk2.
  pose proof (FavoriteManager_new_keeps (has_class "product-image") false w0 w1
                Hact Hc1) as Hc2.
  destruct (FavoriteManager_new_rest w1) as (_ & _ & _ & Hb2).
  destruct (FavoriteManager.new w1) as [w2 [fm|exn]];
    cbn -[LazyLoader.new ProductInteractions.new SmoothScroll.new] in *; [|done].
  intros _.
  destruct (ProductInteractions_new_rest w2) as (_ & _ & _ & Hb3 & Hd3).
  destruct (SmoothScroll_new_rest (ProductInteractions.new w2))
    as (_ & _ & _ & Hb4 & Hd4).
  set (w4 := SmoothScroll.new (ProductInteractions.new w2)) in *.
  assert (document w4 = document w2) as Hd by congruence.
  assert (hasIntersectionObserver (browser w4) = true) as Hio4 by congruence.
  unfold LazyLoader.new, LazyLoader.init. cbn [LazyLoader.images]. rewrite Hio4.
  cbn [snd console_log with_console observer].
  destruct (observe_all_targets
              (document_querySelectorAll (has_class "product-image") (document w4))
              (with_observer (λ _, Some []) w4) []) as (ts & Hts & Hiff); [done|].
  exists ts. split; [done|]. intros r. rewrite Hiff, elem_of_nil, Hd.
  rewrite (same_query markup (document w2) (keeps_skeleton w0 w2 Hk2)).
  - tauto.
  - by apply (keeps_matching "product-image" w0 w2).
Qed.

Lemma step_observer (p : t) (i : Input) :
  (∀ entries, i ≠ Intersection entries) →
  observer (world (step p i)) = observer (world p).
Proof.
  intros Hi.
  assert (∀ ty tgt, observer (world (dispatchEvent ty tgt p).2) = observer (world p))
    as Hdispatch.
  { intros ty tgt.
    apply (dispatchEvent_invariant
             (λ q, observer (world q) = observer (world p) ∧
                   listeners (world q) = listeners (world p))
             (listeners (world p)) ty); [by intros q [_ ?]| |done].
    intros h e q r' _ [Ho HL].
    destruct (run_handler_rest h e q) as (-> & -> & _). done. }
  destruct i as [tgt|tgt|tgt|k|entries]; simpl; rewrite ?Hdispatch; try done.
  - by destruct (fire_rest k (world p)) as (_ & -> & _).
  - by destruct (Hi entries).
Qed.

Lemma on_entry_still_observed (en : IntersectionObserverEntry) (w : World) (r : nat) :
  observed w r → en ≠ mkEntry r true → observed (LazyLoader.on_entry en w) r.
Proof.
  intros (ts & Hts & Hin) Hne. unfold LazyLoader.on_entry, observed.
  destruct en as [tgt [|]]; simpl; [|eauto].
  rewrite Hts. simpl. eexists. split; [done|].
  apply list_elem_of_filter. split; [|done]. intros ->. done.
Qed.

Lemma callback_still_observed (entries : list IntersectionObserverEntry)
    (w : World) (r : nat) :
  observed w r → mkEntry r true ∉ entries →
  observed (LazyLoader.callback entries w) r.
Proof.
  unfold LazyLoader.callback. revert w.
  induction entries as [|en entries IH]; intros w Hobs Hnin; [done|].
  simpl. apply not_elem_of_cons in Hnin as [Hne Hnin].
  apply IH; [|done]. apply on_entry_still_observed; [done|]. by intros ->.
Qed.

Lemma elem_of_delivered (entries : list IntersectionObserverEntry) (w : World)
    (en : IntersectionObserverEntry) :
  en ∈ delivered entries w ↔ en ∈ entries ∧ observed w (entry_target en).
Proof.
  unfold delivered, observed. destruct (observer w) as [targets|].
  - rewrite list_elem_of_filter. split.
    + intros [? ?]. eauto.
    + intros [? (ts & [= <-] & ?)]. done.
  - rewrite elem_of_nil. split; [done|]. by intros [_ (? & [=] & _)].
Qed.

Lemma step_observed_iff (p : t) (i : Input) (r : nat) :
  observed (world (step p i)) r ↔
  observed (world p) r ∧ ∀ entries, i = Intersection entries → mkEntry r true ∉ entries.
Proof.
  split.
  - intros Hobs. pose proof (step_observed _ _ _ Hobs) as Hbefore.
    split; [done|]. intros entries -> Hin. simpl in Hobs.
    apply callback_observed in Hobs as [_ Hnin]. apply Hnin.
    by apply elem_of_delivered.
  - intros [Hobs Hnin]. destruct i as [tgt|tgt|tgt|k|entries];
      try (unfold observed; by rewrite step_observer).
    simpl. apply callback_still_observed; [done|].
    intros [Hin _]%elem_of_delivered. by apply (Hnin entries).
Qed.

Lemma on_entry_node (en : IntersectionObserverEntry) (w : World) (r : nat) :
  is_Some (node (document (LazyLoader.on_entry en w)) r) ↔
  is_Some (node (document w) r).
Proof.
  unfold LazyLoader.on_entry. destruct (isIntersecting en); [|done].
  unfold LazyLoader.unobserve, classList_add.
  cbn [document with_observer with_document]. apply node_is_Some_update.
Qed.

Lemma callback_loaded_add (entries : list IntersectionObserverEntry) (w : World)
    (r : nat) :
  mkEntry r true ∈ entries → is_Some (node (document w) r) →
  loaded (LazyLoader.callback entries w) r = true.
Proof.
  unfold LazyLoader.callback. revert w.
  induction entries as [|en entries IH]; intros w Hin Hnode.
  - by apply elem_of_nil in Hin.
  - simpl. apply elem_of_cons in Hin as [<-|Hin].
    + apply (callback_loaded_mono entries).
      unfold LazyLoader.on_entry, loaded, LazyLoader.unobserve. simpl.
      change (classList_contains r "loaded" (with_observer ?f ?w'))
        with (classList_contains r "loaded" w').
      rewrite classList_contains_add.
      rewrite !bool_decide_eq_true_2; done.
    + apply IH; [done|]. by apply on_entry_node.
Qed.

Lemma step_loaded_mono (p : t) (i : Input) (r : nat) :
  loaded (world p) r = true → loaded (world (step p i)) r = true.
Proof.
  intros Hl. destruct i as [tgt|tgt|tgt|k|entries];
    try (unfold loaded in *; rewrite classList_contains_observe in *;
         rewrite step_keeps_loaded; done).
  simpl. by apply callback_loaded_mono.
Qed.

Lemma step_loaded_inv (p : t) (i : Input) (r : nat) :
  loaded (world (step p i)) r = true →
  loaded (world p) r = true ∨
  ∃ entries, i = Intersection entries ∧ observed (world p) r ∧
             mkEntry r true ∈ entries.
Proof.
  intros Hl. destruct i as [tgt|tgt|tgt|k|entries];
    try (left; unfold loaded in *; rewrite classList_contains_observe in *;
         rewrite step_keeps_loaded in Hl; done).
  simpl in Hl. apply callback_loaded_gain in Hl as [Hl|Hin]; [by left|].
  right. exists entries. apply elem_of_delivered in Hin as [Hin Hobs]. done.
Qed.

(** X13.  With an [IntersectionObserver] and a load that completed, after
    any sequence of inputs the observer watches exactly the
    [.product-image] elements of the markup that no batch of entries
    has reported as intersecting so far, and the elements that carry
    ['loaded'] are those of the markup together with the product
    images that have been reported as intersecting. *)
Theorem observer_watches_unseen_images (b : Browser) (markup : Document)
    (storage : gmap string string) (inputs : list Input) (r : nat) :
  hasIntersectionObserver b = true →
  uncaught (load b markup storage) = [] →
  let imgs := document_querySelectorAll (has_class "product-image") markup in
  let q := run (load b markup storage) inputs in
  let reported :=
    ∃ entries, Intersection entries ∈ inputs ∧ mkEntry r true ∈ entries in
  (observed (world q) r ↔ r ∈ imgs ∧ ¬ reported) ∧
  (loaded (world q) r = true ↔
     matching (has_class "loaded") markup r = true ∨ (r ∈ imgs ∧ reported)).
Proof.
  intros Hio Hdone imgs. simpl.
  assert (r ∈ imgs → ∀ inputs,
            is_Some (node (document (world (run (load b markup storage) inputs))) r))
    as Hnode.
  { intros [[_ Hm]%andb_prop_elim _]%list_elem_of_filter inputs'.
    apply Is_true_eq_true in Hm.
    apply (class_gives_node "product-image"). unfold classList_contains.
    rewrite (keeps_matching "product-image" _ _
               (run_keeps_class "product-image" _ inputs' ltac:(done) ltac:(done)
                  ltac:(done))).
    by rewrite (keeps_matching "product-image" _ _
                  (load_keeps_class "product-image" b markup storage ltac:(done))). }
  induction inputs as [|i inputs IH] using rev_ind.
  - simpl. destruct (load_observer b markup storage Hio Hdone) as (ts & Hts & Hiff).
    split.
    + unfold observed. rewrite Hts. split.
      * intros (? & [= <-] & Hin). split; [by apply Hiff|].
        by intros (? & ?%elem_of_nil & _).
      * intros [Hin _]. exists ts. split; [done|]. by apply Hiff.
    + rewrite load_keeps_loaded. split; [by left|].
      intros [?|[_ (? & ?%elem_of_nil & _)]]; done.
  - destruct IH as [IHo IHl].
    unfold run in *. rewrite foldl_app. simpl.
    set (q := foldl step (load b markup storage) inputs) in *.
    split.
    + rewrite step_observed_iff, IHo. split.
      * intros [[Himg Hnot] Hnow]. split; [done|].
        intros (entries & [Hin|Hin%list_elem_of_singleton]%elem_of_app & Hr).
        -- apply Hnot. eauto.
        -- by apply (Hnow entries).
      * intros [Himg Hnot]. split; [split; [done|]|].
        -- intros (entries & Hin & Hr). apply Hnot. exists entries.
           split; [|done]. apply elem_of_app. by left.
        -- intros entries -> Hr. apply Hnot. exists entries.
           split; [|done]. apply elem_of_app. right. by apply list_elem_of_singleton.
    + split.
      * intros [Hl|(entries & -> & Hobs & Hr)]%step_loaded_inv.
        -- apply IHl in Hl as [Hm|[Himg (entries & Hin & Hr)]]; [by left|].
           right. split; [done|]. exists entries. split; [|done].
           apply elem_of_app. by left.
        -- right. apply IHo in Hobs as [Himg _]. split; [done|].
           exists entries. split; [|done].
           apply elem_of_app. right. by apply list_elem_of_singleton.
      * intros Hcase. destruct (loaded (world q) r) eqn:Hbefore.
        { by apply step_loaded_mono. }
        destruct Hcase as [Hm|[Himg (entries & Hin & Hr)]].
        { assert (false = true) by (apply IHl; by left). done. }
        apply elem_of_app in Hin as [Hin|Hin%list_elem_of_singleton].
        { assert (false = true); [|done].
          apply IHl. right. split; [done|]. eauto. }
        subst i. simpl. apply callback_loaded_add; [|by apply (Hnode Himg inputs)].
        apply elem_of_delivered. split; [done|]. simpl.
        apply IHo. split; [done|].
        intros (entries' & Hin' & Hr').
        assert (false = true); [|done].
        apply IHl. right. split; [done|]. eauto.
Qed.

Lemma observer_watches_unseen_images_witness :
  let q := run (load Sample.chrome Sample.markup ∅)
             [Intersection [mkEntry 8 true; mkEntry 12 false]; Click 9] in
  observed (world q) 12 ∧ ¬ observed (world q) 8 ∧
  loaded (world q) 8 = true.
Proof.
  intros q.
  pose proof (observer_watches_unseen_images Sample.chrome Sample.markup ∅
                [Intersection [mkEntry 8 true; mkEntry 12 false]; Click 9]) as H.
  assert (∀ r, r = 8 ∨ r = 12 →
            r ∈ document_querySelectorAll (has_class "product-image") Sample.markup)
    as Himg.
  { intros r [-> | ->]; apply list_elem_of_filter;
      (split; [by vm_compute | apply elem_of_seq; vm_compute; lia]). }
  split; [|split].
  - apply (H 12); [done|by vm_compute|]. split; [apply Himg; by right|].
    intros (entries & [[= ->]|Hin]%elem_of_cons & Hr).
    + apply elem_of_cons in Hr as [[=]|Hr].
      apply elem_of_cons in Hr as [[=]|Hr]. by apply elem_of_nil in Hr.
    + by apply list_elem_of_singleton in Hin.
  - intros Hobs. apply (H 8) in Hobs as [_ Hnot]; [|done|by vm_compute].
    apply Hnot. eexists. split; [constructor|constructor].
  - apply (H 8); [done|by vm_compute|]. right. split; [apply Himg; by left|].
    eexists. split; [constructor|constructor].
Defined.

End observer_targets.

(** ** A load that stops in the FavoriteManager *)

Section aborted_load.
Import Page.







End aborted_load.
